(** * cqc_monitor: the server store and the monitoring cycle of [bot.py]

    A shallow embedding of the parts of [bot.py] that carry state:
    the class [ServerDatabase], the pure formatter [format_diff], the
    dispatcher [send_update_to_server] and one iteration of the
    [while] loop of [monitoring_task].

    Conventions.
    - JSON values read from [servers.json] or from the remote API are
      restricted to scalars ([None], booleans, integers, strings);
      floating point numbers and nested containers are left out.
    - A Python [dict] that is iterated ([self.data['servers']]) is an
      association list in insertion order; a [dict] that is only read
      and written by key (one server's configuration, one change
      record) is a [gmap string value].
    - Writing the file ([save_database]) is assumed to succeed, so the
      in-memory dictionary is the whole state of the store.
    - Network and Discord calls are answered by an explicit [World].
    - Integers are unbounded; the limit CPython puts on the number of
      digits [int] and [str] convert is far beyond guild identifiers
      and is left out. *)

From Stdlib Require Import ZArith Lia Ascii String List Permutation.
From stdpp Require Import base option list strings pretty gmap fin_maps.

Local Open Scope string_scope.
Local Open Scope list_scope.
Local Open Scope Z_scope.

(** ** Python values, exceptions and builtins *)

Inductive value : Type :=
| VNone
| VBool (b : bool)
| VInt (n : Z)
| VStr (s : string).

#[global] Instance value_eq_dec : EqDecision value.
Proof. solve_decision. Defined.

Inductive exn : Type :=
| KeyError (key : string)
| TypeError
| ValueError.

#[global] Instance exn_eq_dec : EqDecision exn.
Proof. solve_decision. Defined.

Inductive result (A : Type) : Type :=
| Ok (a : A)
| Raise (e : exn).
Arguments Ok {A} a.
Arguments Raise {A} e.

(** [bool(v)] *)
Definition truthy (v : value) : bool :=
  match v with
  | VNone => false
  | VBool b => b
  | VInt n => negb (n =? 0)
  | VStr s => negb (String.eqb s "")
  end.

(** The integer a [bool] or [int] stands for in arithmetic. *)
Definition as_number (v : value) : option Z :=
  match v with
  | VInt n => Some n
  | VBool b => Some (if b then 1 else 0)
  | _ => None
  end.

(** [a > b]: numbers compare by value, strings lexicographically,
    anything else raises [TypeError]. *)
Definition py_gt (a b : value) : result bool :=
  match as_number a, as_number b with
  | Some x, Some y => Ok (y <? x)
  | _, _ =>
      match a, b with
      | VStr s, VStr t => Ok (String.ltb t s)
      | _, _ => Raise TypeError
      end
  end.

(** [str(n)] for an integer. *)
Definition py_str (n : Z) : string := pretty n.

(** [int(s)] on the decimal spellings [str] produces (an optional
    sign followed by digits).  Python also accepts surrounding white
    space and underscores between digits; the program never writes
    such keys, and they raise [ValueError] here. *)
Fixpoint int_digits (s : string) (acc : N) : option N :=
  match s with
  | EmptyString => Some acc
  | String c s' =>
      match Ascii.is_nat c with
      | Some d => int_digits s' (acc * 10 + N.of_nat d)%N
      | None => None
      end
  end.

Definition int_unsigned (s : string) : result N :=
  match s with
  | EmptyString => Raise ValueError
  | _ => match int_digits s 0%N with
         | Some n => Ok n
         | None => Raise ValueError
         end
  end.

Definition py_int (s : string) : result Z :=
  match s with
  | String "-"%char s' =>
      match int_unsigned s' with
      | Ok n => Ok (- Z.of_N n)
      | Raise e => Raise e
      end
  | String "+"%char s' =>
      match int_unsigned s' with
      | Ok n => Ok (Z.of_N n)
      | Raise e => Raise e
      end
  | _ =>
      match int_unsigned s with
      | Ok n => Ok (Z.of_N n)
      | Raise e => Raise e
      end
  end.

(** [f"{v}"] *)
Definition py_format (v : value) : string :=
  match v with
  | VNone => "None"
  | VBool true => "True"
  | VBool false => "False"
  | VInt n => py_str n
  | VStr s => s
  end.

(** Thousands grouping of a digit string given least significant
    digit first. *)
Fixpoint group3 (rev_digits : list ascii) : list ascii :=
  match rev_digits with
  | a :: b :: c :: ((_ :: _) as rest) =>
      a :: b :: c :: ","%char :: group3 rest
  | l => l
  end.

Definition group_thousands (digits : string) : string :=
  string_of_list_ascii
    (rev (group3 (rev (list_ascii_of_string digits)))).

Definition format_int_comma (n : Z) : string :=
  (if n <? 0 then "-" else "") +:+ group_thousands (pretty (Z.abs_N n)).

(** [f"{v:,}"]: defined for numbers; a string raises [ValueError]
    and [None] raises [TypeError]. *)
Definition py_format_comma (v : value) : result string :=
  match v with
  | VInt n => Ok (format_int_comma n)
  | VBool b => Ok (if b then "1" else "0")
  | VStr _ => Raise ValueError
  | VNone => Raise TypeError
  end.

Definition newline : string := String (ascii_of_nat 10) EmptyString.

(** ** Python dictionaries in insertion order *)

Section PyDict.
Context {V : Type}.

Fixpoint dict_get (k : string) (d : list (string * V)) : option V :=
  match d with
  | [] => None
  | (k', v) :: d' => if decide (k = k') then Some v else dict_get k d'
  end.

(** [d[k] = v]: an existing key keeps its position, a new key goes
    to the end. *)
Fixpoint dict_set (k : string) (v : V) (d : list (string * V))
  : list (string * V) :=
  match d with
  | [] => [(k, v)]
  | (k', v') :: d' =>
      if decide (k = k') then (k, v) :: d' else (k', v') :: dict_set k v d'
  end.

(** [del d[k]] *)
Fixpoint dict_del (k : string) (d : list (string * V))
  : list (string * V) :=
  match d with
  | [] => []
  | (k', v') :: d' =>
      if decide (k = k') then d' else (k', v') :: dict_del k d'
  end.

(** [k in d] *)
Definition dict_mem (k : string) (d : list (string * V)) : bool :=
  bool_decide (is_Some (dict_get k d)).

Definition dict_keys (d : list (string * V)) : list string := d.*1.
End PyDict.

(** ** Fallible computations *)

#[global] Instance result_ret : MRet result := λ A a, Ok a.
#[global] Instance result_bind : MBind result := λ A B f m,
  match m with
  | Ok a => f a
  | Raise e => Raise e
  end.

(** ** The server store: class [ServerDatabase] *)

(** One server's configuration and one change record of the diff
    endpoint are dictionaries from field names to values. *)
Abbreviation config := (gmap string value) (only parsing).
Abbreviation record := (gmap string value) (only parsing).

(** [self.data['servers']] *)
Abbreviation servers := (list (string * gmap string value)) (only parsing).

(** The entries [get_active_servers] hands out. *)
Record server_info : Type := {
  guild_id : Z;
  channel_id : value;
  last_action_id : value;
  guild_name : value;
  channel_name : value
}.

#[global] Instance server_info_eq_dec : EqDecision server_info.
Proof. solve_decision. Defined.

Module ServerDatabase.

(** [load_database] when the file is missing. *)
Definition empty : servers := [].

(** [now] is the reading of [datetime.datetime.now().isoformat()]. *)
Definition add_server (guild_id : Z) (channel_id guild_name channel_name : value)
    (now : string) (db : servers) : servers :=
  dict_set (py_str guild_id)
    (list_to_map
       [("channel_id", channel_id);
        ("enabled", VBool true);
        ("last_action_id", VInt 0);
        ("guild_name", guild_name);
        ("channel_name", channel_name);
        ("added_at", VStr now)])
    db.

Definition remove_server (guild_id : Z) (db : servers) : servers :=
  if dict_mem (py_str guild_id) db
  then dict_del (py_str guild_id) db
  else db.

Definition disable_server (guild_id : Z) (db : servers) : servers :=
  match dict_get (py_str guild_id) db with
  | Some cfg => dict_set (py_str guild_id) (<["enabled" := VBool false]> cfg) db
  | None => db
  end.

Definition enable_server (guild_id : Z) (db : servers) : servers :=
  match dict_get (py_str guild_id) db with
  | Some cfg => dict_set (py_str guild_id) (<["enabled" := VBool true]> cfg) db
  | None => db
  end.

(** [config.get('enabled', True)] as a condition. *)
Definition is_enabled (cfg : config) : bool :=
  truthy (default (VBool true) (cfg !! "enabled")).

(** The dictionary built for one enabled server; [int(guild_id)] is
    evaluated before [config['channel_id']]. *)
Definition active_entry (key : string) (cfg : config) : result server_info :=
  g ← py_int key;
  ch ← match cfg !! "channel_id" with
       | Some v => Ok v
       | None => Raise (KeyError "channel_id")
       end;
  Ok {| guild_id := g;
        channel_id := ch;
        last_action_id := default (VInt 0) (cfg !! "last_action_id");
        guild_name := default (VStr "Unknown") (cfg !! "guild_name");
        channel_name := default (VStr "Unknown") (cfg !! "channel_name") |}.

Fixpoint get_active_servers (db : servers) : result (list server_info) :=
  match db with
  | [] => Ok []
  | (key, cfg) :: rest =>
      if is_enabled cfg then
        entry ← active_entry key cfg;
        active ← get_active_servers rest;
        Ok (entry :: active)
      else get_active_servers rest
  end.

Definition update_last_action_id (guild_id : Z) (action_id : value)
    (db : servers) : servers :=
  match dict_get (py_str guild_id) db with
  | Some cfg =>
      dict_set (py_str guild_id) (<["last_action_id" := action_id]> cfg) db
  | None => db
  end.

Definition get_server_count (db : servers) : nat :=
  length (filter (λ s, is_enabled s = true) db.*2).

End ServerDatabase.
Import ServerDatabase.

(** ** The diff formatter *)

Definition highlighted_squadrons : list (string * string) :=
  [("WE ROCK YOU ROLL", "ðŸ”¸")].

Definition default_marker : string := "ðŸ”¹".

(** [highlighted_squadrons.get(squad, "...")]: only a string can be
    equal to a key of the table. *)
Definition marker_of (squad : value) : string :=
  match squad with
  | VStr s => default default_marker (dict_get s highlighted_squadrons)
  | _ => default_marker
  end.

(** The body of the loop of [format_diff]: the rendered line and the
    time stamp of one change. *)
Definition format_change (change : record) : result (string * value) :=
  let squad := default (VStr "Unknown") (change !! "squadron_name") in
  let squad_tag := default (VStr "Unknown") (change !! "tag") in
  let diff := default (VInt 0) (change !! "total_experience_diff") in
  let ts := default (VStr "") (change !! "timestamp") in
  let emoji := marker_of squad in
  points ← py_format_comma diff;
  Ok (emoji +:+ " " +:+ py_format squad +:+ " (" +:+ py_format squad_tag
        +:+ ") gained " +:+ points +:+ " points",
      ts).

Fixpoint format_changes (data : list record)
    (squads : list string) (timestamps : list value)
  : result (list string * list value) :=
  match data with
  | [] => Ok (squads, timestamps)
  | change :: rest =>
      lt ← format_change change;
      format_changes rest (squads ++ [lt.1]) (timestamps ++ [lt.2])
  end.

(** [data] is the answer of the diff endpoint: [None] when the
    request failed, otherwise a list of change records. *)
Definition format_diff (data : option (list record))
  : result (option string * option value) :=
  match data with
  | None | Some [] => Ok (None, None)
  | Some data =>
      st ← format_changes data [] [];
      let timestamp := last st.2 in
      let squads_text :=
        match st.1 with
        | [] => None
        | _ => Some (String.concat newline st.1)
        end in
      Ok (squads_text, timestamp)
  end.

(** ** The outside world of one poll cycle *)

Record embed : Type := {
  title : string;
  description : string
}.

#[global] Instance embed_eq_dec : EqDecision embed.
Proof. solve_decision. Defined.

(** How [channel.send] ends. *)
Inductive send_result : Type :=
| SendOk
| SendForbidden   (* raises discord.Forbidden *)
| SendNotFound    (* raises discord.NotFound *)
| SendError.      (* raises any other exception *)

(** The answers of the remote API and of Discord during one cycle.
    [fetch_diff g a] is the answer to the request for action [a] made
    while guild [g] is being served; [fetch_json] turns every failure
    into [None].  [strptime s] is the Unix time of [s] read with the
    format ["%Y-%m-%d %H:%M:%S"] in UTC, [None] standing for the
    [ValueError] of a string that does not match. *)
Record World : Type := {
  fetch_leaderboard : option (list record);
  fetch_diff : Z → value → option (list record);
  strptime : string → option Z;
  get_channel : value → bool;
  channel_send : value → embed → send_result
}.

(** What a cycle does to the outside, in order. *)
Inductive event : Type :=
| EvFetchDiff (guild : Z) (action_id : value)
| EvDispatch (server : server_info) (e : embed)
| EvSent (server : server_info) (e : embed).

#[global] Instance event_eq_dec : EqDecision event.
Proof. solve_decision. Defined.

(** The guild an event was made for. *)
Definition event_guild (ev : event) : Z :=
  match ev with
  | EvFetchDiff g _ => g
  | EvDispatch si _ => guild_id si
  | EvSent si _ => guild_id si
  end.

(** ** Stateful computations that may raise

    The store [db] is a global object mutated in place: what was
    written before an exception is raised stays written. *)

Record cstate : Type := {
  st_db : servers;
  st_log : list event
}.

Definition M (A : Type) : Type := cstate → result A * cstate.

#[global] Instance M_ret : MRet M := λ A a st, (Ok a, st).
#[global] Instance M_bind : MBind M := λ A B f m st,
  match m st with
  | (Ok a, st') => f a st'
  | (Raise e, st') => (Raise e, st')
  end.

Definition lift {A} (r : result A) : M A := λ st, (r, st).

Definition emit (ev : event) : M unit :=
  λ st, (Ok tt, {| st_db := st_db st; st_log := st_log st ++ [ev] |}).

Definition modify_db (f : servers → servers) : M unit :=
  λ st, (Ok tt, {| st_db := f (st_db st); st_log := st_log st |}).

Definition read_db {A} (f : servers → result A) : M A :=
  λ st, (f (st_db st), st).

(** ** The dispatcher *)

Definition send_update_to_server (w : World) (server_info : server_info)
    (e : embed) : M bool :=
  emit (EvDispatch server_info e);;
  if negb (get_channel w (channel_id server_info)) then
    modify_db (remove_server (guild_id server_info));;
    mret false
  else
    match channel_send w (channel_id server_info) e with
    | SendOk => emit (EvSent server_info e);; mret true
    | SendForbidden => mret false
    | SendNotFound =>
        modify_db (remove_server (guild_id server_info));;
        mret false
    | SendError => mret false
    end.

(** ** The polling engine *)

Definition clock_marker : string := "ðŸ•›".

(** [if msg:] for the summary returned by [format_diff]. *)
Definition nonempty_text (msg : option string) : option string :=
  match msg with
  | Some s => if String.eqb s "" then None else Some s
  | None => None
  end.

(** The description of the embed: [msg], followed by the time of the
    event when [ts] is a time stamp in the expected format.  A true
    value that is not a string makes [strptime] raise [TypeError],
    which the [except ValueError] around it does not catch. *)
Definition describe (w : World) (msg : string) (ts : option value)
  : result string :=
  match ts with
  | Some v =>
      if truthy v then
        match v with
        | VStr s =>
            match strptime w s with
            | Some unix_ts =>
                Ok (msg +:+ newline +:+ newline +:+ " " +:+ clock_marker
                      +:+ " <t:" +:+ py_str unix_ts +:+ ":f>")
            | None => Ok msg
            end
        | _ => Raise TypeError
        end
      else Ok msg
  | None => Ok msg
  end.

(** The body of [for server_info in active_servers]; the result is
    the new value of [updates_sent]. *)
Definition process_server (w : World) (latest_action_id : value)
    (server_info : server_info) (updates_sent : nat) : M nat :=
  newer ← lift (py_gt latest_action_id (last_action_id server_info));
  if (newer : bool) then
    emit (EvFetchDiff (guild_id server_info) latest_action_id);;
    let diff := fetch_diff w (guild_id server_info) latest_action_id in
    mt ← lift (format_diff diff);
    match nonempty_text mt.1 with
    | Some msg =>
        text ← lift (describe w msg mt.2);
        let embed := {| title := "CQC Activity Detected";
                        description := text |} in
        sent ← send_update_to_server w server_info embed;
        if negb sent then mret updates_sent
        else
          modify_db (update_last_action_id (guild_id server_info)
                       latest_action_id);;
          mret (S updates_sent)
    | None => mret updates_sent
    end
  else mret updates_sent.

Fixpoint for_servers (w : World) (latest_action_id : value)
    (active_servers : list server_info) (updates_sent : nat) : M nat :=
  match active_servers with
  | [] => mret updates_sent
  | server_info :: rest =>
      n ← process_server w latest_action_id server_info updates_sent;
      for_servers w latest_action_id rest n
  end.

(** How one iteration of the [while] loop ends before it sleeps. *)
Inductive cycle_outcome : Type :=
| NoLeaderboard                   (* "Failed to fetch leaderboard" *)
| NoActiveServers                 (* "No active servers to monitor" *)
| Completed (updates_sent : nat)
| Aborted (e : exn).              (* "Error in monitoring task" *)

(** The [try] block of the loop body. *)
Definition cycle_body (w : World) : M cycle_outcome :=
  match fetch_leaderboard w with
  | None | Some [] => mret NoLeaderboard
  | Some (head :: _) =>
      latest_action_id ←
        lift (match head !! "action_id" with
              | Some v => Ok v
              | None => Raise (KeyError "action_id")
              end);
      active_servers ← read_db get_active_servers;
      match active_servers with
      | [] => mret NoActiveServers
      | _ =>
          updates_sent ← for_servers w latest_action_id active_servers 0%nat;
          mret (Completed updates_sent)
      end
  end.

(** A cycle starts with the store as it is and nothing done yet. *)
Definition initial_state (db : servers) : cstate :=
  {| st_db := db; st_log := [] |}.

(** One iteration of the loop of [monitoring_task]: the [try] block
    with its [except Exception] handler. *)
Definition monitoring_cycle (w : World) (db : servers)
  : cstate * cycle_outcome :=
  match cycle_body w (initial_state db) with
  | (Ok o, st) => (st, o)
  | (Raise e, st) => (st, Aborted e)
  end.

(** The loop of [monitoring_task], one world per iteration until the
    bot is closed. *)
Fixpoint monitoring_task (ws : list World) (db : servers)
  : servers * list (list event * cycle_outcome) :=
  match ws with
  | [] => (db, [])
  | w :: ws' =>
      let '(st, o) := monitoring_cycle w db in
      let '(db', tr) := monitoring_task ws' (st_db st) in
      (db', (st_log st, o) :: tr)
  end.

(** How the loop over the servers ends the cycle. *)
Definition outcome_of (r : result nat) : cycle_outcome :=
  match r with
  | Ok n => Completed n
  | Raise e => Aborted e
  end.

(** ** Reading the store *)

(** The cursor of an entry as [get_active_servers] reads it. *)
Definition cursor_of (cfg : config) : value :=
  default (VInt 0) (cfg !! "last_action_id").

Definition cursor (guild_id : Z) (db : servers) : option value :=
  cursor_of <$> dict_get (py_str guild_id) db.

Definition raises {A} (r : result A) : bool :=
  match r with
  | Ok _ => false
  | Raise _ => true
  end.

(** A key is canonical when it is the [str] of the integer it reads
    as; every key the program writes is. *)
Definition canonical_key (k : string) : Prop :=
  match py_int k with
  | Ok g => py_str g = k
  | Raise _ => False
  end.

#[global] Instance canonical_key_dec k : Decision (canonical_key k).
Proof. unfold canonical_key. destruct (py_int k); apply _. Defined.

(** The keys of a Python dictionary are distinct; the keys of the
    store are moreover canonical. *)
Definition store_wf (db : servers) : Prop :=
  NoDup (dict_keys db) ∧ Forall canonical_key (dict_keys db).

#[global] Instance store_wf_dec db : Decision (store_wf db).
Proof. unfold store_wf. apply _. Defined.

(** Every entry that counts as enabled can be listed: its key reads
    as an integer and it has a ['channel_id']. *)
Definition listable_entry (kc : string * config) : Prop :=
  is_enabled kc.2 = true → raises (active_entry kc.1 kc.2) = false.

#[global] Instance listable_entry_dec kc : Decision (listable_entry kc).
Proof. unfold listable_entry. apply _. Defined.

Definition listable (db : servers) : Prop := Forall listable_entry db.

(** What [get_active_servers] appends for one item of the store. *)
Definition active_of (kc : string * config) : option server_info :=
  if is_enabled kc.2 then
    match active_entry kc.1 kc.2 with
    | Ok si => Some si
    | Raise _ => None
    end
  else None.

(** ** Sequences of store operations *)

Inductive store_op : Type :=
| Upsert (guild_id : Z) (channel_id guild_name channel_name : value)
    (now : string)
| Remove (guild_id : Z)
| SetEnabled (guild_id : Z) (enabled : bool).

#[global] Instance store_op_eq_dec : EqDecision store_op.
Proof. solve_decision. Defined.

Definition op_guild (op : store_op) : Z :=
  match op with
  | Upsert g _ _ _ _ => g
  | Remove g => g
  | SetEnabled g _ => g
  end.

Definition apply_op (db : servers) (op : store_op) : servers :=
  match op with
  | Upsert g ch gn cn now => add_server g ch gn cn now db
  | Remove g => remove_server g db
  | SetEnabled g true => enable_server g db
  | SetEnabled g false => disable_server g db
  end.

Definition run_ops (ops : list store_op) (db : servers) : servers :=
  foldl apply_op db ops.

(** The operations of a sequence that address guild [g], in order. *)
Definition ops_on (g : Z) (ops : list store_op) : list store_op :=
  filter (λ op, op_guild op = g) ops.

(** What an operation does to the entry of its own guild. *)
Definition op_entry (op : store_op) (entry : option config) : option config :=
  match op with
  | Upsert _ ch gn cn now =>
      Some (list_to_map
              [("channel_id", ch);
               ("enabled", VBool true);
               ("last_action_id", VInt 0);
               ("guild_name", gn);
               ("channel_name", cn);
               ("added_at", VStr now)])
  | Remove _ => None
  | SetEnabled _ b => (λ cfg, <["enabled" := VBool b]> cfg) <$> entry
  end.

(** The entries the operations write: a channel and a boolean flag. *)
Definition written_entry (kc : string * config) : Prop :=
  is_Some (kc.2 !! "channel_id") ∧ ∃ b, kc.2 !! "enabled" = Some (VBool b).

(** The documented contract of the store, for one tenant, written
    without the dictionary: the tenant is absent ([None]) or present
    with its flag.  [upsert] creates or overwrites the tenant and
    resets the flag to true, [remove] deletes it, [setEnabled] sets
    the flag and does nothing when the tenant is absent; a call for
    another tenant changes nothing. *)
Definition tenant_step (g : Z) (tenant : option bool) (op : store_op)
  : option bool :=
  if decide (op_guild op = g)
  then match op with
       | Upsert _ _ _ _ _ => Some true
       | Remove _ => None
       | SetEnabled _ b => (λ _, b) <$> tenant
       end
  else tenant.

(** The tenant after a sequence of calls on the empty store. *)
Definition tenant_after (g : Z) (ops : list store_op) : option bool :=
  foldl (tenant_step g) None ops.

(** ** Reading the formatter *)

(** The line [format_diff] renders for a change that can be rendered. *)
Definition line_of (change : record) : string :=
  match format_change change with
  | Ok lt => lt.1
  | Raise _ => ""
  end.

(** [change.get("timestamp", "")] *)
Definition timestamp_of (change : record) : value :=
  default (VStr "") (change !! "timestamp").

(** The experience difference of a change is a number, or absent. *)
Definition numeric_delta (change : record) : Prop :=
  match change !! "total_experience_diff" with
  | Some v => is_Some (as_number v)
  | None => True
  end.

#[global] Instance numeric_delta_dec change : Decision (numeric_delta change).
Proof. unfold numeric_delta. destruct (_ !! _); apply _. Defined.

(** ** What serving one guild does to the store *)

Inductive effect : Type :=
| Keep        (* the store is left as it is *)
| Removed     (* [remove_server] was called for the guild *)
| Advanced.   (* [update_last_action_id] was called for the guild *)

Definition apply_effect (eff : effect) (g : Z) (latest_action_id : value)
    (db : servers) : servers :=
  match eff with
  | Keep => db
  | Removed => remove_server g db
  | Advanced => update_last_action_id g latest_action_id db
  end.

(** The effect of a dispatch, read off the answers of Discord. *)
Definition dispatch_effect (w : World) (si : server_info) (e : embed)
  : effect :=
  if negb (get_channel w (channel_id si)) then Removed
  else
    match channel_send w (channel_id si) e with
    | SendOk => Advanced
    | SendNotFound => Removed
    | SendForbidden | SendError => Keep
    end.

(** ** Concrete stores and worlds *)

(** Guild 7 was registered and has been served up to action 5. *)
Definition store_7_at_5 : servers :=
  update_last_action_id 7 (VInt 5)
    (add_server 7 (VInt 70) (VStr "GuildA") (VStr "general") "t0" empty).

(** A file edited by hand: the entry of guild 5 has no ['enabled']
    key. *)
Definition legacy_store : servers :=
  [("5", {[ "channel_id" := VInt 50 ]});
   ("6", list_to_map [("channel_id", VInt 60); ("enabled", VBool false)])].

(** A gain of 1500 points, and a loss for a highlighted squadron. *)
Definition change_X : record :=
  list_to_map
    [("squadron_name", VStr "X"); ("tag", VStr "X1");
     ("total_experience_diff", VInt 1500);
     ("timestamp", VStr "2024-01-01 12:00:00")].

Definition change_Y : record :=
  list_to_map
    [("squadron_name", VStr "WE ROCK YOU ROLL"); ("tag", VStr "WRYR");
     ("total_experience_diff", VInt (-25));
     ("timestamp", VStr "2024-01-01 12:05:00")].

(** A change whose experience difference arrived as a string. *)
Definition change_malformed : record :=
  list_to_map
    [("squadron_name", VStr "X"); ("tag", VStr "X1");
     ("total_experience_diff", VStr "1500");
     ("timestamp", VStr "2024-01-01 12:00:00")].

(** The head of the leaderboard is action 42.  The diff requested for
    guild 2 comes back malformed and the one for guild 8 empty;
    channel 40 has been deleted and the bot may not post in channel
    50. *)
Definition world_42 : World := {|
  fetch_leaderboard := Some [ {[ "action_id" := VInt 42 ]} ];
  fetch_diff := λ g _,
    if decide (g = 2) then Some [change_malformed]
    else if decide (g = 8) then Some []
    else Some [change_X];
  strptime := λ s,
    if String.eqb s "2024-01-01 12:00:00" then Some 1704110400 else None;
  get_channel := λ ch, negb (bool_decide (ch = VInt 40));
  channel_send := λ ch _,
    if bool_decide (ch = VInt 50) then SendForbidden else SendOk
|}.

Definition store_3 : servers :=
  add_server 3 (VInt 30) (VStr "GuildC") (VStr "general") "t3" empty.

Definition store_123 : servers :=
  add_server 3 (VInt 30) (VStr "GuildC") (VStr "general") "t3"
    (add_server 2 (VInt 20) (VStr "GuildB") (VStr "general") "t2"
       (add_server 1 (VInt 10) (VStr "GuildA") (VStr "general") "t1" empty)).

(** Guild 4 posts to the deleted channel, guild 5 to the forbidden
    one, and guild 6 has already been served up to action 42. *)
Definition store_456 : servers :=
  update_last_action_id 6 (VInt 42)
    (add_server 6 (VInt 60) (VStr "GuildF") (VStr "general") "t6"
       (add_server 5 (VInt 50) (VStr "GuildE") (VStr "general") "t5"
          (add_server 4 (VInt 40) (VStr "GuildD") (VStr "general") "t4"
             empty))).

(** Guilds 8 and 9 have been served up to action 40. *)
Definition store_89_at_40 : servers :=
  update_last_action_id 9 (VInt 40)
    (update_last_action_id 8 (VInt 40)
       (add_server 9 (VInt 90) (VStr "GuildI") (VStr "general") "t9"
          (add_server 8 (VInt 80) (VStr "GuildH") (VStr "general") "t8"
             empty))).

Definition server_of (g ch : Z) (name : string) : server_info :=
  {| guild_id := g; channel_id := VInt ch; last_action_id := VInt 0;
     guild_name := VStr name; channel_name := VStr "general" |}.

(** The embed built from [change_X]. *)
Definition embed_X : embed :=
  {| title := "CQC Activity Detected";
     description :=
       line_of change_X +:+ newline +:+ newline +:+ " " +:+ clock_marker
         +:+ " <t:1704110400:f>" |}.

(** Two sequences with the same operations guild by guild. *)
Definition ops_a : list store_op :=
  [Upsert 1 (VInt 10) (VStr "GuildA") (VStr "general") "t1";
   Upsert 2 (VInt 20) (VStr "GuildB") (VStr "general") "t2";
   SetEnabled 1 false;
   Upsert 3 (VInt 30) (VStr "GuildC") (VStr "general") "t3";
   Remove 3;
   SetEnabled 1 true].

Definition ops_b : list store_op :=
  [Upsert 3 (VInt 30) (VStr "GuildC") (VStr "general") "t3";
   Upsert 2 (VInt 20) (VStr "GuildB") (VStr "general") "t2";
   Upsert 1 (VInt 10) (VStr "GuildA") (VStr "general") "t1";
   Remove 3;
   SetEnabled 1 false;
   SetEnabled 1 true].

(** ** More readers and concrete stores *)

(** A listed server with another cursor. *)
Definition with_cursor (a : value) (si : server_info) : server_info :=
  {| guild_id := guild_id si;
     channel_id := channel_id si;
     last_action_id := a;
     guild_name := guild_name si;
     channel_name := channel_name si |}.

(** The entry of guild 2 is enabled but has lost its channel; the
    entry of guild 3 has none either but is disabled. *)
Definition corrupt_store : servers :=
  [("1", list_to_map [("channel_id", VInt 10); ("enabled", VBool true)]);
   ("3", {[ "enabled" := VBool false ]});
   ("2", {[ "enabled" := VBool true ]})].

(** ** Reading the thousands grouping *)

Definition is_comma (c : ascii) : Prop := c = ","%char.

(** The three digits of a number below 1000, leading zeros kept. *)
Definition three_digits (m : N) : string :=
  String (pretty_N_char (m `div` 100))
    (String (pretty_N_char ((m `div` 10) `mod` 10))
       (String (pretty_N_char (m `mod` 10)) EmptyString)).

(** ** Reading the log of a cycle *)

(** A dispatch of embed [e] to server [si] is warranted when the head
    is newer than the cursor the server was listed with and [e] is
    the embed built from the diff fetched for the guild. *)
Definition warranted (w : World) (latest : value) (si : server_info)
    (e : embed) : Prop :=
  py_gt latest (last_action_id si) = Ok true
  ∧ title e = "CQC Activity Detected"
  ∧ ∃ mt msg,
      format_diff (fetch_diff w (guild_id si) latest) = Ok mt
      ∧ nonempty_text mt.1 = Some msg
      ∧ describe w msg mt.2 = Ok (description e).

(** What serving one server can add to the log, with the effect on
    the store and the number of updates it counts. *)
Inductive served (w : World) (latest : value) (si : server_info)
  : list event → effect → nat → Prop :=
| served_nothing :
    served w latest si [] Keep 0
| served_fetched :
    served w latest si [EvFetchDiff (guild_id si) latest] Keep 0
| served_failed (e : embed) :
    warranted w latest si e →
    dispatch_effect w si e ≠ Advanced →
    served w latest si
      [EvFetchDiff (guild_id si) latest; EvDispatch si e]
      (dispatch_effect w si e) 0
| served_sent (e : embed) :
    warranted w latest si e →
    dispatch_effect w si e = Advanced →
    served w latest si
      [EvFetchDiff (guild_id si) latest; EvDispatch si e; EvSent si e]
      Advanced 1.

(** The change to the store an event of the log stands for. *)
Definition event_effect (w : World) (ev : event) : effect :=
  match ev with
  | EvFetchDiff _ _ => Keep
  | EvDispatch si e =>
      match dispatch_effect w si e with
      | Removed => Removed
      | _ => Keep
      end
  | EvSent _ _ => Advanced
  end.

Definition replay (w : World) (latest : value) (db : servers)
    (log : list event) : servers :=
  foldl (λ db ev, apply_effect (event_effect w ev) (event_guild ev) latest db)
    db log.

Definition is_sent (ev : event) : bool :=
  match ev with
  | EvSent _ _ => true
  | _ => false
  end.

Definition sent_count (log : list event) : nat :=
  length (filter (λ ev, is_sent ev = true) log).

(** The guilds a log records a dispatch for, in order. *)
Definition dispatched_guilds (log : list event) : list Z :=
  omap (λ ev, match ev with
              | EvDispatch si _ => Some (guild_id si)
              | _ => None
              end) log.

(** * The front end: guild events and slash commands *)

(** ** Strings *)

(** [s.lower()] on the letters A to Z; every other byte is kept.
    Channel names are UTF-8 here, and for the tests below, which look
    for ASCII keywords without the letter k, this agrees with Python
    on every name: lowering a character outside ASCII gives
    characters outside ASCII, except for the Kelvin sign (which gives
    k) and the dotted capital I (which gives i followed by a
    combining dot, and no keyword ends in i). *)
Definition lower_ascii (c : ascii) : ascii :=
  let n := nat_of_ascii c in
  if ((65 <=? n) && (n <=? 90))%nat then ascii_of_nat (n + 32) else c.

Fixpoint py_lower (s : string) : string :=
  match s with
  | EmptyString => EmptyString
  | String c s' => String (lower_ascii c) (py_lower s')
  end.

(** [needle in haystack] *)
Fixpoint contains (needle haystack : string) : bool :=
  String.prefix needle haystack
  || match haystack with
     | EmptyString => false
     | String _ rest => contains needle rest
     end.

(** [any(keyword in name for keyword in keywords)] *)
Definition any_keyword (keywords : list string) (name : string) : bool :=
  existsb (λ keyword, contains keyword name) keywords.

(** ** Guilds and channels *)

(** A text channel as the bot sees it: [tc_can_send] is
    [channel.permissions_for(guild.me).send_messages]. *)
Record text_channel : Type := {
  tc_id : Z;
  tc_name : string;
  tc_can_send : bool
}.

#[global] Instance text_channel_eq_dec : EqDecision text_channel.
Proof. solve_decision. Defined.

Record guild : Type := {
  g_id : Z;
  g_name : string;
  text_channels : list text_channel
}.

(** [channel.mention] *)
Definition mention (channel : text_channel) : string :=
  "<#" +:+ py_str (tc_id channel) +:+ ">".

(** ** [on_guild_join] and [on_guild_remove] *)

(** The body of the loop over [guild.text_channels]: [insert(0, _)]
    puts a channel in front, [append] at the end. *)
Definition suitable_step (suitable_channels : list text_channel)
    (channel : text_channel) : list text_channel :=
  if tc_can_send channel then
    let channel_name_lower := py_lower (tc_name channel) in
    if any_keyword ["elite"; "cqc"; "bot"; "gaming"] channel_name_lower
    then channel :: suitable_channels
    else if any_keyword ["general"; "main"; "chat"] channel_name_lower
    then suitable_channels ++ [channel]
    else if negb (contains "spam" channel_name_lower)
            && negb (contains "log" channel_name_lower)
    then suitable_channels ++ [channel]
    else suitable_channels
  else suitable_channels.

Definition suitable_channels (g : guild) : list text_channel :=
  foldl suitable_step [] (text_channels g).

(** The new store and the channel the welcome embed is sent to, if
    any; a failure of that [channel.send] is caught and only
    printed. *)
Definition on_guild_join (g : guild) (now : string) (db : servers)
  : servers * option text_channel :=
  match suitable_channels g with
  | channel :: _ =>
      (add_server (g_id g) (VInt (tc_id channel)) (VStr (g_name g))
         (VStr (tc_name channel)) now db,
       Some channel)
  | [] => (db, None)
  end.

Definition on_guild_remove (g : guild) (db : servers) : servers :=
  remove_server (g_id g) db.

(** ** Slash commands *)

(** What a command reads from [interaction]:
    [interaction.user.guild_permissions.administrator], the guild
    and the channel the command was typed in. *)
Record interaction : Type := {
  user_is_admin : bool;
  i_guild_id : Z;
  i_guild_name : string;
  i_channel : text_channel
}.

(** [interaction.response.send_message(content, ephemeral=...)] *)
Record reply : Type := {
  content : string;
  ephemeral : bool
}.

#[global] Instance reply_eq_dec : EqDecision reply.
Proof. solve_decision. Defined.

Definition admin_only : reply :=
  {| content := "Only an administrator can use this command. This incident will be reported.";
     ephemeral := true |}.

Definition cqc_channel (i : interaction) (channel : option text_channel)
    (now : string) (db : servers) : servers * reply :=
  if negb (user_is_admin i) then (db, admin_only)
  else
    let target_channel := default (i_channel i) channel in
    if negb (tc_can_send target_channel) then
      (db,
       {| content := "I don't have permission to send messages in "
                       +:+ mention target_channel;
          ephemeral := true |})
    else
      (add_server (i_guild_id i) (VInt (tc_id target_channel))
         (VStr (i_guild_name i)) (VStr (tc_name target_channel)) now db,
       {| content := "CQC notifications will now be sent to "
                       +:+ mention target_channel;
          ephemeral := false |}).

Definition cqc_this_channel (i : interaction) (now : string) (db : servers)
  : servers * reply :=
  if negb (user_is_admin i) then (db, admin_only)
  else
    let channel := i_channel i in
    if negb (tc_can_send channel) then
      (db,
       {| content := "I don't have permission to send messages in "
                       +:+ mention channel;
          ephemeral := true |})
    else
      (add_server (i_guild_id i) (VInt (tc_id channel))
         (VStr (i_guild_name i)) (VStr (tc_name channel)) now db,
       {| content := "CQC notifications will now be sent to "
                       +:+ mention channel;
          ephemeral := false |}).

Definition cqc_enable (i : interaction) (db : servers) : servers * reply :=
  if negb (user_is_admin i) then (db, admin_only)
  else
    (enable_server (i_guild_id i) db,
     {| content := "CQC notifications enabled!"; ephemeral := false |}).

Definition cqc_disable (i : interaction) (db : servers) : servers * reply :=
  if negb (user_is_admin i) then (db, admin_only)
  else
    (disable_server (i_guild_id i) db,
     {| content := "CQC notifications disabled."; ephemeral := false |}).

(** ** Reading the front end *)

(** The two classes of channels [on_guild_join] keeps. *)
Definition is_front (channel : text_channel) : Prop :=
  tc_can_send channel = true
  ∧ any_keyword ["elite"; "cqc"; "bot"; "gaming"]
      (py_lower (tc_name channel)) = true.

Definition is_back (channel : text_channel) : Prop :=
  tc_can_send channel = true
  ∧ any_keyword ["elite"; "cqc"; "bot"; "gaming"]
      (py_lower (tc_name channel)) = false
  ∧ (any_keyword ["general"; "main"; "chat"]
       (py_lower (tc_name channel)) = true
     ∨ any_keyword ["spam"; "log"] (py_lower (tc_name channel)) = false).

#[global] Instance is_front_dec channel : Decision (is_front channel).
Proof. unfold is_front. apply _. Defined.

#[global] Instance is_back_dec channel : Decision (is_back channel).
Proof. unfold is_back. apply _. Defined.

(** A guild with two keyword channels, a general one, one the bot
    cannot post in and a log channel. *)
Definition guild_A : guild :=
  {| g_id := 11; g_name := "GuildK";
     text_channels :=
       [ {| tc_id := 101; tc_name := "General"; tc_can_send := true |};
         {| tc_id := 102; tc_name := "Elite-News"; tc_can_send := true |};
         {| tc_id := 103; tc_name := "bot-commands"; tc_can_send := true |};
         {| tc_id := 104; tc_name := "cqc"; tc_can_send := false |};
         {| tc_id := 105; tc_name := "mod-log"; tc_can_send := true |} ] |}.

(** A guild where the bot can only post in a spam channel. *)
Definition guild_B : guild :=
  {| g_id := 12; g_name := "GuildL";
     text_channels :=
       [ {| tc_id := 201; tc_name := "general"; tc_can_send := false |};
         {| tc_id := 202; tc_name := "SPAM"; tc_can_send := true |} ] |}.

Definition admin_in_7 : interaction :=
  {| user_is_admin := true; i_guild_id := 7; i_guild_name := "GuildA";
     i_channel := {| tc_id := 72; tc_name := "news"; tc_can_send := true |} |}.

Definition member_in_7 : interaction :=
  {| user_is_admin := false; i_guild_id := 7; i_guild_name := "GuildA";
     i_channel := {| tc_id := 72; tc_name := "news"; tc_can_send := true |} |}.

(** ** [/cqc_status] *)

(** What the command reads from [bot]: [len(bot.guilds)] and
    [bot.get_channel]. *)
Record Bot : Type := {
  guild_count : nat;
  find_channel : value → option text_channel
}.

Record embed_field : Type := {
  f_name : string;
  f_value : string;
  f_inline : bool
}.

Record status_embed : Type := {
  s_title : string;
  s_fields : list embed_field;
  s_footer : string
}.

Inductive status_reply : Type :=
| StatusRefused (r : reply)
| StatusEmbed (e : status_embed) (ephemeral : bool).

(** The field about the guild of the command. *)
Definition this_server_field (bot : Bot) (current_server : option server_info)
  : embed_field :=
  match current_server with
  | Some server =>
      let channel := find_channel bot (channel_id server) in
      {| f_name := "This Server";
         f_value :=
           "Channel: "
             +:+ match channel with
                 | Some c => mention c
                 | None => "Unknown"
                 end
             +:+ newline +:+ "Status: Active" +:+ newline
             +:+ "Last Action: " +:+ py_format (last_action_id server);
         f_inline := false |}
  | None =>
      {| f_name := "This Server"; f_value := "Not configured";
         f_inline := false |}
  end.

Definition cqc_status (bot : Bot) (i : interaction) (db : servers)
  : result status_reply :=
  if negb (user_is_admin i) then Ok (StatusRefused admin_only)
  else
    active_servers ← get_active_servers db;
    let current_server :=
      find (λ server, bool_decide (guild_id server = i_guild_id i))
        active_servers in
    Ok (StatusEmbed
          {| s_title := "CQC Monitor Bot Status";
             s_fields :=
               [ {| f_name := "Global Stats";
                    f_value := "Connected to **"
                                 +:+ py_str (Z.of_nat (guild_count bot))
                                 +:+ "** total servers";
                    f_inline := false |};
                 this_server_field bot current_server;
                 {| f_name := "Update Frequency";
                    f_value := "Every 60 seconds";
                    f_inline := true |} ];
             s_footer := "CQC Monitor" |}
          true).

(** The server the status of a guild is about: the listed form of
    its entry, when the entry counts as enabled. *)
Definition listed_server (g : Z) (db : servers) : option server_info :=
  cfg ← dict_get (py_str g) db;
  active_of (py_str g, cfg).

Definition bot_3 : Bot :=
  {| guild_count := 3;
     find_channel := λ ch,
       if decide (ch = VInt 70)
       then Some {| tc_id := 70; tc_name := "general"; tc_can_send := true |}
       else None |}.

(** * Properties *)

(** Decidable facts about concrete stores and worlds. *)
Ltac by_computation := apply (bool_decide_unpack _); vm_compute; exact I.

(** ** [str] and [int] on guild identifiers *)

Lemma is_nat_pretty_N_char (d : N) :
  (d < 10)%N → Ascii.is_nat (pretty_N_char d) = Some (N.to_nat d).
Proof.
  intros Hd. unfold pretty_N_char.
  destruct d as [|p]; [done|].
  do 9 (destruct p as [p|p|]; try done; try lia).
Qed.

Lemma int_digits_pretty_N_go (x : N) :
  ∀ s acc, ∃ acc',
    int_digits (pretty_N_go x s) acc = int_digits s acc'
    ∧ (acc = 0%N → acc' = x).
Proof.
  induction (N.lt_wf_0 x) as [x _ IH]; intros s acc.
  destruct (decide (x = 0)%N) as [->|Hx].
  - rewrite pretty_N_go_0. exists acc. split; [done|]. by intros ->.
  - rewrite pretty_N_go_step by lia.
    destruct (IH (x `div` 10)%N) with
      (s := String (pretty_N_char (x `mod` 10)) s) (acc := acc)
      as (acc1 & Hgo & Hacc1).
    { apply N.div_lt; lia. }
    exists (acc1 * 10 + x `mod` 10)%N. split.
    + rewrite Hgo. simpl.
      rewrite is_nat_pretty_N_char by (apply N.mod_lt; lia).
      by rewrite N2Nat.id.
    + intros ->. rewrite Hacc1 by done.
      rewrite (N.div_mod x 10) at 3 by lia. lia.
Qed.

Lemma pretty_N_go_nonempty (x : N) :
  ∀ s, pretty_N_go x s = "" → s = "" ∧ x = 0%N.
Proof.
  induction (N.lt_wf_0 x) as [x _ IH]; intros s.
  destruct (decide (x = 0)%N) as [->|Hx].
  - by rewrite pretty_N_go_0.
  - rewrite pretty_N_go_step by lia. intros Hgo.
    apply IH in Hgo as [? _]; [done|]. apply N.div_lt; lia.
Qed.

Lemma int_unsigned_pretty_pos (p : positive) :
  int_unsigned (pretty_N_go (N.pos p) "") = Ok (N.pos p).
Proof.
  unfold int_unsigned.
  destruct (int_digits_pretty_N_go (N.pos p) "" 0%N) as (acc & Hgo & Hacc).
  rewrite Hgo, Hacc by done. simpl.
  destruct (pretty_N_go (N.pos p) "") eqn:Hs; [|done].
  by apply pretty_N_go_nonempty in Hs as [_ ?].
Qed.

Lemma py_int_unsigned (s : string) (n : N) :
  int_unsigned s = Ok n → py_int s = Ok (Z.of_N n).
Proof.
  intros Hs. unfold py_int.
  destruct s as [|c s]; [done|].
  assert (is_Some (Ascii.is_nat c)) as [d Hd].
  { unfold int_unsigned in Hs. simpl in Hs.
    destruct (Ascii.is_nat c); [eauto|done]. }
  destruct (decide (c = "-"%char)) as [->|Hminus]; [done|].
  destruct (decide (c = "+"%char)) as [->|Hplus]; [done|].
  rewrite Hs.
  destruct c as [[] [] [] [] [] [] [] []]; done.
Qed.

Lemma py_int_str (g : Z) : py_int (py_str g) = Ok g.
Proof.
  unfold py_str, pretty, pretty_Z. destruct g as [|p|p].
  - done.
  - unfold pretty, pretty_positive, pretty, pretty_N.
    rewrite decide_False by done.
    by rewrite (py_int_unsigned _ _ (int_unsigned_pretty_pos p)).
  - unfold pretty, pretty_positive, pretty, pretty_N.
    rewrite decide_False by done.
    change (py_int ("-" +:+ pretty_N_go (N.pos p) ""))
      with (match int_unsigned (pretty_N_go (N.pos p) "") with
            | Ok n => Ok (- Z.of_N n)
            | Raise e => Raise e
            end).
    by rewrite int_unsigned_pretty_pos.
Qed.

Lemma py_str_inj (g g' : Z) : py_str g = py_str g' → g = g'.
Proof.
  intros Heq. assert (Ok g = Ok g') as Hok; [|by inversion Hok].
  by rewrite <-(py_int_str g), <-(py_int_str g'), Heq.
Qed.

(** ** Dictionaries *)

Section PyDictFacts.
Context {V : Type}.
Implicit Types (d : list (string * V)) (k : string) (v : V).

Lemma dict_get_set_eq k v d : dict_get k (dict_set k v d) = Some v.
Proof.
  induction d as [|[k' v'] d IH]; csimpl.
  - by rewrite decide_True.
  - destruct (decide (k = k')); csimpl.
    + by rewrite decide_True.
    + by rewrite decide_False.
Qed.

Lemma dict_get_set_ne k k' v d :
  k ≠ k' → dict_get k' (dict_set k v d) = dict_get k' d.
Proof.
  intros Hne. induction d as [|[k0 v0] d IH]; csimpl.
  - by rewrite decide_False.
  - destruct (decide (k = k0)) as [->|]; csimpl.
    + by rewrite !decide_False.
    + by rewrite IH.
Qed.

Lemma dict_get_del_ne k k' d :
  k ≠ k' → dict_get k' (dict_del k d) = dict_get k' d.
Proof.
  intros Hne. induction d as [|[k0 v0] d IH]; csimpl; [done|].
  destruct (decide (k = k0)) as [->|]; csimpl.
  - by rewrite decide_False.
  - by rewrite IH.
Qed.

Lemma dict_get_None k d : dict_get k d = None ↔ k ∉ dict_keys d.
Proof.
  unfold dict_keys. induction d as [|[k0 v0] d IH]; csimpl.
  - split; [|done]. intros _. apply not_elem_of_nil.
  - rewrite not_elem_of_cons. destruct (decide (k = k0)) as [->|Hne].
    + split; [done|]. by intros [? _].
    + rewrite IH. split; [done|]. by intros [_ ?].
Qed.

Lemma dict_get_Some_elem k v d : dict_get k d = Some v → (k, v) ∈ d.
Proof.
  induction d as [|[k0 v0] d IH]; csimpl; [done|].
  destruct (decide (k = k0)) as [->|].
  - intros [= ->]. by left.
  - intros Hget. right. by apply IH.
Qed.

Lemma dict_get_elem k v d :
  NoDup (dict_keys d) → (k, v) ∈ d → dict_get k d = Some v.
Proof.
  unfold dict_keys. induction d as [|[k0 v0] d IH]; csimpl.
  - intros _ Hin. by apply elem_of_nil in Hin.
  - rewrite NoDup_cons. intros [Hk0 Hnd] Hin.
    apply elem_of_cons in Hin as [[= -> ->]|Hin].
    + by rewrite decide_True.
    + rewrite decide_False; [by apply IH|].
      intros ->. apply Hk0. apply list_elem_of_fmap. by exists (k0, v).
Qed.

Lemma dict_get_del_eq k d :
  NoDup (dict_keys d) → dict_get k (dict_del k d) = None.
Proof.
  unfold dict_keys. induction d as [|[k0 v0] d IH]; csimpl; [done|].
  rewrite NoDup_cons. intros [Hk0 Hnd].
  destruct (decide (k = k0)) as [->|]; csimpl.
  - by apply dict_get_None.
  - rewrite decide_False by done. by apply IH.
Qed.

Lemma dict_keys_set k v d :
  dict_keys (dict_set k v d)
  = match dict_get k d with
    | Some _ => dict_keys d
    | None => dict_keys d ++ [k]
    end.
Proof.
  unfold dict_keys. induction d as [|[k0 v0] d IH]; csimpl; [done|].
  destruct (decide (k = k0)) as [->|]; csimpl; [done|].
  rewrite IH. by destruct (dict_get k d).
Qed.

Lemma dict_keys_del_subseteq k d : dict_keys (dict_del k d) ⊆ dict_keys d.
Proof.
  unfold dict_keys. induction d as [|[k0 v0] d IH]; csimpl; [done|].
  destruct (decide (k = k0)); csimpl.
  - intros x Hx. by right.
  - intros x. rewrite !elem_of_cons. intros [->|Hx]; [by left|].
    right. by apply IH.
Qed.

Lemma dict_set_NoDup k v d :
  NoDup (dict_keys d) → NoDup (dict_keys (dict_set k v d)).
Proof.
  intros Hnd. rewrite dict_keys_set.
  destruct (dict_get k d) eqn:Hget; [done|].
  apply NoDup_app. split_and!; [done| |apply NoDup_singleton].
  intros x Hx ->%list_elem_of_singleton. by apply dict_get_None in Hget.
Qed.

Lemma dict_del_NoDup k d :
  NoDup (dict_keys d) → NoDup (dict_keys (dict_del k d)).
Proof.
  unfold dict_keys. induction d as [|[k0 v0] d IH]; csimpl; [done|].
  rewrite NoDup_cons. intros [Hk0 Hnd].
  destruct (decide (k = k0)); csimpl; [done|].
  apply NoDup_cons. split; [|by apply IH].
  intros Hin. apply Hk0. by apply (dict_keys_del_subseteq k d).
Qed.

Lemma dict_mem_true k d : dict_mem k d = true ↔ is_Some (dict_get k d).
Proof. unfold dict_mem. by rewrite bool_decide_eq_true. Qed.
End PyDictFacts.

(** ** The store *)

Lemma cursor_set (g : Z) (cfg : config) (db : servers) :
  cursor g (dict_set (py_str g) cfg db) = Some (cursor_of cfg).
Proof. unfold cursor. by rewrite dict_get_set_eq. Qed.

Lemma cursor_set_ne (g g' : Z) (cfg : config) (db : servers) :
  g' ≠ g → cursor g (dict_set (py_str g') cfg db) = cursor g db.
Proof.
  intros Hne. unfold cursor. rewrite dict_get_set_ne; [done|].
  intros Heq. by apply py_str_inj in Heq.
Qed.

Lemma cursor_of_insert_ne (field : string) (v : value) (cfg : config) :
  field ≠ "last_action_id" → cursor_of (<[field := v]> cfg) = cursor_of cfg.
Proof. intros Hne. unfold cursor_of. by rewrite lookup_insert_ne. Qed.

(** C1, as the code has it: [add_server] writes a fresh entry whether
    or not the guild was registered, so the cursor of the entry is 0
    afterwards, [enabled] is true, and the channel and the two names
    are the ones given. *)
Theorem add_server_overwrites (g : Z) (ch gn cn : value) (now : string)
    (db : servers) :
  ∃ cfg : config,
    dict_get (py_str g) (add_server g ch gn cn now db) = Some cfg
    ∧ cfg !! "last_action_id" = Some (VInt 0)
    ∧ cfg !! "enabled" = Some (VBool true)
    ∧ cfg !! "channel_id" = Some ch
    ∧ cfg !! "guild_name" = Some gn
    ∧ cfg !! "channel_name" = Some cn
    ∧ cfg !! "added_at" = Some (VStr now)
    ∧ cursor g (add_server g ch gn cn now db) = Some (VInt 0).
Proof.
  unfold add_server. eexists. split; [apply dict_get_set_eq|].
  rewrite cursor_set. by vm_compute.
Qed.

(** C1 fails as stated: a guild served up to action 5 that registers
    again is back at cursor 0. *)
Lemma add_server_resets_cursor :
  cursor 7 store_7_at_5 = Some (VInt 5)
  ∧ cursor 7 (add_server 7 (VInt 71) (VStr "GuildA") (VStr "news") "t1"
                store_7_at_5) = Some (VInt 0).
Proof. by vm_compute. Qed.

(** C3 fails as stated: [update_last_action_id] with a smaller value
    moves the cursor back. *)
Lemma update_last_action_id_can_decrease :
  cursor 7 store_7_at_5 = Some (VInt 5)
  ∧ cursor 7 (update_last_action_id 7 (VInt 3) store_7_at_5) = Some (VInt 3)
  ∧ 3 < 5.
Proof. by vm_compute. Qed.

(** C3, as the code has it: for a registered guild,
    [update_last_action_id] stores the value it is given as the new
    cursor, whatever the old one was; enabling, disabling, and every
    operation on another guild leave the cursor as it is. *)
Theorem cursor_after_store_operations (g : Z) (db : servers) (c : value) :
  cursor g db = Some c →
  (∀ v, cursor g (update_last_action_id g v db) = Some v)
  ∧ cursor g (enable_server g db) = Some c
  ∧ cursor g (disable_server g db) = Some c
  ∧ (∀ g', g' ≠ g →
       (∀ v, cursor g (update_last_action_id g' v db) = Some c)
       ∧ cursor g (enable_server g' db) = Some c
       ∧ cursor g (disable_server g' db) = Some c
       ∧ cursor g (remove_server g' db) = Some c
       ∧ (∀ ch gn cn now, cursor g (add_server g' ch gn cn now db) = Some c)).
Proof.
  intros Hc. assert (Hc' := Hc). unfold cursor in Hc'.
  destruct (dict_get (py_str g) db) as [cfg|] eqn:Hget; [|done].
  injection Hc' as Hcfg.
  split_and!.
  - intros v. unfold update_last_action_id. rewrite Hget, cursor_set.
    unfold cursor_of. by rewrite lookup_insert_eq.
  - unfold enable_server. rewrite Hget, cursor_set.
    by rewrite cursor_of_insert_ne, Hcfg.
  - unfold disable_server. rewrite Hget, cursor_set.
    by rewrite cursor_of_insert_ne, Hcfg.
  - intros g' Hne.
    assert (py_str g' ≠ py_str g) as Hkey by (by intros ?%py_str_inj).
    split_and!.
    + intros v. unfold update_last_action_id.
      destruct (dict_get (py_str g') db); [|done]. by rewrite cursor_set_ne.
    + unfold enable_server.
      destruct (dict_get (py_str g') db); [|done]. by rewrite cursor_set_ne.
    + unfold disable_server.
      destruct (dict_get (py_str g') db); [|done]. by rewrite cursor_set_ne.
    + unfold remove_server. destruct (dict_mem _ _); [|done].
      unfold cursor. by rewrite dict_get_del_ne.
    + intros ch gn cn now. unfold add_server. by rewrite cursor_set_ne.
Qed.

Lemma cursor_after_store_operations_witness :
  cursor 7 store_7_at_5 = Some (VInt 5)
  ∧ cursor 7 (update_last_action_id 7 (VInt 9) store_7_at_5) = Some (VInt 9)
  ∧ cursor 7 (disable_server 7 store_7_at_5) = Some (VInt 5).
Proof.
  assert (cursor 7 store_7_at_5 = Some (VInt 5)) as H by (by vm_compute).
  split; [exact H|].
  destruct (cursor_after_store_operations 7 store_7_at_5 (VInt 5) H)
    as (Hupd & _ & Hdis & _).
  split; [apply Hupd|exact Hdis].
Defined.

(** C9: [update_last_action_id] for a registered guild replaces the
    entry of that guild by the same entry with ['last_action_id'] set,
    so every other field of the entry is as before; the entries under
    all other keys and the order of the keys are as before; for a
    guild that is not registered the store is returned as it is. *)
Theorem update_last_action_id_frame (g : Z) (a : value) (db : servers) :
  match dict_get (py_str g) db with
  | Some cfg =>
      dict_get (py_str g) (update_last_action_id g a db)
      = Some (<["last_action_id" := a]> cfg)
      ∧ (∀ field : string, field ≠ "last_action_id" →
           (<["last_action_id" := a]> cfg) !! field = cfg !! field)
  | None => update_last_action_id g a db = db
  end
  ∧ (∀ k, k ≠ py_str g →
       dict_get k (update_last_action_id g a db) = dict_get k db)
  ∧ dict_keys (update_last_action_id g a db) = dict_keys db.
Proof.
  unfold update_last_action_id.
  destruct (dict_get (py_str g) db) as [cfg|] eqn:Hget; [|done].
  split_and!.
  - apply dict_get_set_eq.
  - intros field Hfield. by rewrite lookup_insert_ne.
  - intros k Hk. by rewrite dict_get_set_ne.
  - by rewrite dict_keys_set, Hget.
Qed.

Lemma update_last_action_id_frame_witness :
  (cursor 7 (update_last_action_id 7 (VInt 9) store_7_at_5) = Some (VInt 9)
   ∧ dict_get "8" (update_last_action_id 7 (VInt 9) store_7_at_5) = None)
  ∧ update_last_action_id 8 (VInt 9) store_7_at_5 = store_7_at_5.
Proof.
  split.
  - pose proof (update_last_action_id_frame 7 (VInt 9) store_7_at_5)
      as (_ & Hother & _).
    split; [by vm_compute|]. by rewrite Hother.
  - exact (proj1 (update_last_action_id_frame 8 (VInt 9) store_7_at_5)).
Defined.

(** ** Listing the active servers *)

Lemma get_active_servers_omap (db : servers) :
  listable db → get_active_servers db = Ok (omap active_of db).
Proof.
  induction 1 as [|[k cfg] db Hentry _ IH]; [done|].
  unfold listable_entry in Hentry. simpl in *.
  unfold active_of at 1. simpl.
  destruct (is_enabled cfg); [|done].
  destruct (active_entry k cfg) as [si|e]; [|by specialize (Hentry eq_refl)].
  simpl. by rewrite IH.
Qed.

Lemma get_active_servers_listable (db : servers) (l : list server_info) :
  get_active_servers db = Ok l → listable db.
Proof.
  revert l. induction db as [|[k cfg] db IH]; intros l; [by constructor|].
  simpl. intros Hget. constructor.
  - unfold listable_entry. simpl. intros Hen. rewrite Hen in Hget.
    by destruct (active_entry k cfg).
  - destruct (is_enabled cfg).
    + destruct (active_entry k cfg); [|done]. simpl in Hget.
      destruct (get_active_servers db) as [l'|]; [by eapply IH|done].
    + by eapply IH.
Qed.

Lemma get_server_count_del (key : string) (cfg : config) (db : servers) :
  dict_get key db = Some cfg → is_enabled cfg = true →
  get_server_count db = S (get_server_count (dict_del key db)).
Proof.
  intros Hget Hen. unfold get_server_count.
  induction db as [|[k0 c0] db IH]; [done|]. simpl in Hget. csimpl.
  destruct (decide (key = k0)) as [->|Hne].
  - injection Hget as ->. by rewrite filter_cons_True.
  - csimpl. specialize (IH Hget).
    destruct (decide (is_enabled c0 = true)).
    + rewrite !filter_cons_True by done. simpl. by rewrite IH.
    + by rewrite !filter_cons_False.
Qed.

(** C10: an entry without the ['enabled'] key counts as enabled.  In
    a store that can be listed, [get_active_servers] returns a list
    that contains the entry, and [get_server_count] counts it: without
    the entry the count is one less. *)
Theorem entry_without_enabled_is_active (db : servers) (key : string)
    (cfg : config) :
  listable db →
  dict_get key db = Some cfg →
  cfg !! "enabled" = None →
  is_enabled cfg = true
  ∧ (∃ l si, get_active_servers db = Ok l
             ∧ active_entry key cfg = Ok si ∧ si ∈ l)
  ∧ get_server_count db = S (get_server_count (dict_del key db)).
Proof.
  intros Hlist Hget Hnokey.
  assert (is_enabled cfg = true) as Hen.
  { unfold is_enabled. by rewrite Hnokey. }
  split_and!; [done| |by eapply get_server_count_del].
  apply dict_get_Some_elem in Hget as Hin.
  pose proof (proj1 (Forall_forall _ _) Hlist _ Hin) as Hentry.
  unfold listable_entry in Hentry. simpl in Hentry. specialize (Hentry Hen).
  destruct (active_entry key cfg) as [si|] eqn:Hsi; [|done].
  exists (omap active_of db), si. split_and!; [|done|].
  - by apply get_active_servers_omap.
  - apply list_elem_of_omap. exists (key, cfg). split; [done|].
    unfold active_of. simpl. by rewrite Hen, Hsi.
Qed.

Lemma entry_without_enabled_is_active_witness :
  (guild_id <$> default [] (match get_active_servers legacy_store with
                            | Ok l => Some l
                            | Raise _ => None
                            end)) = [5]
  ∧ get_server_count legacy_store = 1%nat
  ∧ is_enabled {[ "channel_id" := VInt 50 ]} = true.
Proof.
  split; [by vm_compute|]. split; [by vm_compute|].
  refine (proj1 (entry_without_enabled_is_active legacy_store "5"
                   {[ "channel_id" := VInt 50 ]} _ _ _)).
  - by_computation.
  - by vm_compute.
  - by vm_compute.
Defined.

(** ** The formatter *)

Lemma format_change_numeric (change : record) :
  numeric_delta change →
  format_change change = Ok (line_of change, timestamp_of change).
Proof.
  unfold numeric_delta, line_of, timestamp_of, format_change.
  destruct (change !! "total_experience_diff") as [v|]; simpl.
  - intros [n Hn]. by destruct v.
  - done.
Qed.

Lemma format_changes_numeric (data : list record)
    (squads : list string) (timestamps : list value) :
  Forall numeric_delta data →
  format_changes data squads timestamps
  = Ok (squads ++ (line_of <$> data), timestamps ++ (timestamp_of <$> data)).
Proof.
  intros Hdata. revert squads timestamps.
  induction Hdata as [|change data Hchange _ IH]; intros squads timestamps.
  - simpl. by rewrite !app_nil_r.
  - simpl. rewrite (format_change_numeric _ Hchange). simpl.
    rewrite IH. by rewrite <-!app_assoc.
Qed.

(** C5: [format_diff] of no answer and of the empty list is
    [(None, None)]; of a non-empty list of [N] changes whose
    experience difference is a number it is the text made of the [N]
    rendered lines, in the order of the input, joined by newlines,
    together with the time stamp field of the last change (the empty
    string when that change has no such field). *)
Theorem format_diff_summary :
  format_diff None = Ok (None, None)
  ∧ format_diff (Some []) = Ok (None, None)
  ∧ ∀ (data : list record) (last_change : record),
      Forall numeric_delta data →
      last data = Some last_change →
      format_diff (Some data)
      = Ok (Some (String.concat newline (line_of <$> data)),
            Some (timestamp_of last_change))
      ∧ length (line_of <$> data) = length data.
Proof.
  split_and!; [done..|].
  intros data last_change Hdata Hlast.
  split; [|by rewrite length_fmap].
  destruct data as [|change data]; [done|].
  unfold format_diff. rewrite (format_changes_numeric _ _ _ Hdata).
  rewrite !app_nil_l. unfold mbind, result_bind. cbv beta iota.
  unfold fst, snd. rewrite fmap_last, Hlast. by rewrite fmap_cons.
Qed.

Lemma format_diff_summary_witness :
  format_diff (Some [change_X; change_Y])
  = Ok (Some (String.concat newline [line_of change_X; line_of change_Y]),
        Some (VStr "2024-01-01 12:05:00")).
Proof.
  refine (proj1 (proj2 (proj2 format_diff_summary)
                   [change_X; change_Y] change_Y _ _)).
  - by_computation.
  - reflexivity.
Defined.

(** 1500 points read "1,500". *)
Example format_diff_scenario :
  format_diff (Some [change_X])
  = Ok (Some (default_marker +:+ " X (X1) gained 1,500 points"),
        Some (VStr "2024-01-01 12:00:00")).
Proof. by vm_compute. Qed.

(** ** Well-formed stores *)

Lemma canonical_key_str (g : Z) : canonical_key (py_str g).
Proof. unfold canonical_key. by rewrite py_int_str. Qed.

Lemma canonical_key_int (k : string) (g : Z) :
  canonical_key k → py_int k = Ok g → k = py_str g.
Proof. unfold canonical_key. intros Hk Hint. by rewrite Hint in Hk. Qed.

Section DictForall.
Context {V : Type} (P : string * V → Prop).
Implicit Types (d : list (string * V)).

Lemma dict_set_Forall k v d :
  Forall P d → P (k, v) → Forall P (dict_set k v d).
Proof.
  intros Hd Hkv. induction Hd as [|[k0 v0] d H0 Hd IH]; simpl.
  - by repeat constructor.
  - destruct (decide (k = k0)); by constructor.
Qed.

Lemma dict_del_Forall k d : Forall P d → Forall P (dict_del k d).
Proof.
  intros Hd. induction Hd as [|[k0 v0] d H0 Hd IH]; simpl; [done|].
  destruct (decide (k = k0)); [done|by constructor].
Qed.

Lemma dict_get_Forall k v d : Forall P d → dict_get k d = Some v → P (k, v).
Proof.
  intros Hd Hget. apply dict_get_Some_elem in Hget.
  by apply (proj1 (Forall_forall _ _) Hd).
Qed.
End DictForall.

Lemma dict_set_wf (g : Z) (cfg : config) (db : servers) :
  store_wf db → store_wf (dict_set (py_str g) cfg db).
Proof.
  intros [Hnd Hcan]. split; [by apply dict_set_NoDup|].
  rewrite dict_keys_set. destruct (dict_get (py_str g) db); [done|].
  apply Forall_app. split; [done|].
  repeat constructor. apply canonical_key_str.
Qed.

Lemma dict_del_wf (k : string) (db : servers) :
  store_wf db → store_wf (dict_del k db).
Proof.
  intros [Hnd Hcan]. split; [by apply dict_del_NoDup|].
  apply Forall_forall. intros x Hx%dict_keys_del_subseteq.
  by apply (proj1 (Forall_forall _ _) Hcan).
Qed.

Lemma remove_server_wf (g : Z) (db : servers) :
  store_wf db → store_wf (remove_server g db).
Proof.
  intros Hwf. unfold remove_server.
  destruct (dict_mem _ _); [by apply dict_del_wf|done].
Qed.

Lemma update_last_action_id_wf (g : Z) (a : value) (db : servers) :
  store_wf db → store_wf (update_last_action_id g a db).
Proof.
  intros Hwf. unfold update_last_action_id.
  destruct (dict_get _ _); [by apply dict_set_wf|done].
Qed.

Lemma apply_op_wf (op : store_op) (db : servers) :
  store_wf db → store_wf (apply_op db op).
Proof.
  intros Hwf. destruct op as [g ch gn cn now|g|g [|]]; simpl.
  - by apply dict_set_wf.
  - by apply remove_server_wf.
  - unfold enable_server. destruct (dict_get _ _); [by apply dict_set_wf|done].
  - unfold disable_server. destruct (dict_get _ _); [by apply dict_set_wf|done].
Qed.

Lemma written_entry_set_enabled (k : string) (cfg : config) (b : bool) :
  written_entry (k, cfg) → written_entry (k, <["enabled" := VBool b]> cfg).
Proof.
  intros [Hch _]. split; simpl in *.
  - by rewrite lookup_insert_ne.
  - exists b. by rewrite lookup_insert_eq.
Qed.

Lemma apply_op_written (op : store_op) (db : servers) :
  Forall written_entry db → Forall written_entry (apply_op db op).
Proof.
  intros Hdb. destruct op as [g ch gn cn now|g|g [|]]; simpl.
  - apply dict_set_Forall; [done|]. split; simpl; [by eexists|by exists true].
  - unfold remove_server. destruct (dict_mem _ _); [|done].
    by apply dict_del_Forall.
  - unfold enable_server.
    destruct (dict_get (py_str g) db) as [cfg|] eqn:Hget; [|done].
    apply dict_set_Forall; [done|]. apply written_entry_set_enabled.
    by eapply dict_get_Forall.
  - unfold disable_server.
    destruct (dict_get (py_str g) db) as [cfg|] eqn:Hget; [|done].
    apply dict_set_Forall; [done|]. apply written_entry_set_enabled.
    by eapply dict_get_Forall.
Qed.

Lemma run_ops_invariant (ops : list store_op) (db : servers) :
  store_wf db → Forall written_entry db →
  store_wf (run_ops ops db) ∧ Forall written_entry (run_ops ops db).
Proof.
  revert db. induction ops as [|op ops IH]; intros db Hwf Hwr; [done|].
  apply IH; [by apply apply_op_wf|by apply apply_op_written].
Qed.

Lemma dict_get_apply_op (g : Z) (op : store_op) (db : servers) :
  NoDup (dict_keys db) →
  dict_get (py_str g) (apply_op db op)
  = if decide (op_guild op = g)
    then op_entry op (dict_get (py_str g) db)
    else dict_get (py_str g) db.
Proof.
  intros Hnd.
  assert (∀ g', g' ≠ g → py_str g' ≠ py_str g) as Hkey.
  { intros g' Hne Heq. by apply py_str_inj in Heq. }
  destruct op as [g' ch gn cn now|g'|g' b]; simpl;
    destruct (decide (g' = g)) as [->|Hne].
  - apply dict_get_set_eq.
  - apply dict_get_set_ne. by apply Hkey.
  - unfold remove_server. destruct (dict_mem _ _) eqn:Hmem.
    + by apply dict_get_del_eq.
    + destruct (dict_get (py_str g) db) eqn:Hget; [|done].
      assert (dict_mem (py_str g) db = true); [|congruence].
      apply dict_mem_true. by rewrite Hget.
  - unfold remove_server. destruct (dict_mem _ _); [|done].
    apply dict_get_del_ne. by apply Hkey.
  - destruct b; unfold enable_server, disable_server;
      (destruct (dict_get (py_str g) db) as [cfg|] eqn:Hget;
       [by rewrite dict_get_set_eq|by rewrite Hget]).
  - destruct b; unfold enable_server, disable_server;
      (destruct (dict_get (py_str g') db);
       [rewrite dict_get_set_ne; [done|by apply Hkey]|done]).
Qed.

(** The entry of a guild after a sequence of operations depends only
    on the operations that address the guild. *)
Lemma dict_get_run_ops (g : Z) (ops : list store_op) (db : servers) :
  store_wf db →
  dict_get (py_str g) (run_ops ops db)
  = foldl (λ entry op, op_entry op entry) (dict_get (py_str g) db)
      (ops_on g ops).
Proof.
  revert db. induction ops as [|op ops IH]; intros db Hwf; [done|].
  simpl. rewrite IH by (by apply apply_op_wf).
  rewrite dict_get_apply_op by apply Hwf.
  unfold ops_on. rewrite filter_cons.
  by destruct (decide (op_guild op = g)).
Qed.

(** ** The list of active servers of a well-formed store *)

Lemma active_entry_Ok (k : string) (cfg : config) (si : server_info) :
  active_entry k cfg = Ok si →
  py_int k = Ok (guild_id si)
  ∧ cfg !! "channel_id" = Some (channel_id si)
  ∧ last_action_id si = cursor_of cfg.
Proof.
  unfold active_entry. destruct (py_int k) as [g|]; [|done]. simpl.
  destruct (cfg !! "channel_id") as [ch|]; [|done]. simpl.
  by intros [= <-].
Qed.

Lemma active_of_Some (kc : string * config) (si : server_info) :
  active_of kc = Some si →
  is_enabled kc.2 = true ∧ active_entry kc.1 kc.2 = Ok si.
Proof.
  unfold active_of. destruct (is_enabled kc.2); [|done].
  destruct (active_entry kc.1 kc.2); [|done]. by intros [= ->].
Qed.

Lemma active_elem (db : servers) (si : server_info) :
  store_wf db → si ∈ omap active_of db →
  ∃ cfg, dict_get (py_str (guild_id si)) db = Some cfg
         ∧ is_enabled cfg = true
         ∧ active_entry (py_str (guild_id si)) cfg = Ok si.
Proof.
  intros [Hnd Hcan] ([k cfg] & Hin & Hact)%list_elem_of_omap.
  apply active_of_Some in Hact as [Hen Hentry]. simpl in *.
  assert (k = py_str (guild_id si)) as ->.
  { apply canonical_key_int; [|by apply active_entry_Ok in Hentry as [? _]].
    apply (proj1 (Forall_forall _ _) Hcan). apply list_elem_of_fmap.
    by exists (k, cfg). }
  exists cfg. split_and!; [|done..]. by apply dict_get_elem.
Qed.

Lemma active_keys_sublist (db : servers) :
  Forall canonical_key (dict_keys db) →
  (py_str <$> (guild_id <$> omap active_of db)) `sublist_of` dict_keys db.
Proof.
  unfold dict_keys. induction db as [|[k cfg] db IH]; csimpl; [done|].
  intros [Hk Hdb]%Forall_cons. specialize (IH Hdb).
  destruct (active_of (k, cfg)) as [si|] eqn:Hact; csimpl.
  - apply active_of_Some in Hact as [_ [Hint _]%active_entry_Ok].
    simpl in Hint. rewrite <-(canonical_key_int k _ Hk Hint).
    by apply sublist_skip.
  - by apply sublist_cons.
Qed.

Lemma active_guilds_NoDup (db : servers) (l : list server_info) :
  store_wf db → get_active_servers db = Ok l → NoDup (guild_id <$> l).
Proof.
  intros [Hnd Hcan] Hget.
  pose proof (get_active_servers_listable _ _ Hget) as Hlist.
  rewrite (get_active_servers_omap _ Hlist) in Hget. injection Hget as <-.
  apply (NoDup_fmap_1 py_str). eapply sublist_NoDup; [done|].
  by apply active_keys_sublist.
Qed.

Lemma written_listable (db : servers) :
  store_wf db → Forall written_entry db → listable db.
Proof.
  intros [_ Hcan] Hwr. unfold listable. apply Forall_forall.
  intros [k cfg] Hin _. simpl.
  assert (canonical_key k) as Hk.
  { apply (proj1 (Forall_forall _ _) Hcan). apply list_elem_of_fmap.
    by exists (k, cfg). }
  destruct (proj1 (Forall_forall _ _) Hwr _ Hin) as [[ch Hch] _].
  simpl in Hch. unfold active_entry, canonical_key in *.
  destruct (py_int k); [|done]. simpl. by rewrite Hch.
Qed.

(** Two well-formed stores with the same entry for every guild hold
    the same items, possibly in a different order. *)
Lemma store_Permutation (db1 db2 : servers) :
  store_wf db1 → store_wf db2 →
  (∀ g, dict_get (py_str g) db1 = dict_get (py_str g) db2) →
  db1 ≡ₚ db2.
Proof.
  intros Hwf1 Hwf2 Heq.
  assert (∀ da db : servers, store_wf da → store_wf db →
            (∀ g, dict_get (py_str g) da = dict_get (py_str g) db) →
            ∀ kc, kc ∈ da → kc ∈ db) as Hincl.
  { intros da db [Hnda Hcana] [Hndb Hcanb] Hlook [k cfg] Hin.
    assert (canonical_key k) as Hk.
    { apply (proj1 (Forall_forall _ _) Hcana). apply list_elem_of_fmap.
      by exists (k, cfg). }
    unfold canonical_key in Hk. destruct (py_int k) as [g|]; [|done].
    subst k. apply dict_get_Some_elem. rewrite <-Hlook.
    by apply dict_get_elem. }
  apply NoDup_Permutation.
  - apply (NoDup_fmap_1 fst), Hwf1.
  - apply (NoDup_fmap_1 fst), Hwf2.
  - intros kc. split; by apply Hincl.
Qed.

Lemma empty_wf : store_wf empty.
Proof. split; [apply NoDup_nil_2|apply Forall_nil_2]. Qed.

(** ** The store against its contract *)

Lemma list_snoc_cases {A} (l : list A) : l = [] ∨ ∃ l' x, l = l' ++ [x].
Proof. induction l using rev_ind; eauto. Qed.

Lemma tenant_after_snoc (g : Z) (ops : list store_op) (op : store_op) :
  tenant_after g (ops ++ [op]) = tenant_step g (tenant_after g ops) op.
Proof. unfold tenant_after. by rewrite foldl_app. Qed.

Lemma ops_on_snoc (g : Z) (ops : list store_op) (op : store_op) :
  ops_on g (ops ++ [op])
  = if decide (op_guild op = g) then ops_on g ops ++ [op] else ops_on g ops.
Proof.
  unfold ops_on. rewrite filter_app, filter_cons, filter_nil.
  destruct (decide (op_guild op = g)); [done|by rewrite app_nil_r].
Qed.

(** The flag of the entry the code keeps for a guild is the flag of
    the tenant of the contract, and the entry is there exactly when
    the tenant is. *)
Lemma tenant_after_entry (g : Z) (ops : list store_op)
    (entry : option config) (tenant : option bool) :
  match entry with
  | Some cfg => ∃ b, cfg !! "enabled" = Some (VBool b) ∧ tenant = Some b
  | None => tenant = None
  end →
  match foldl (λ entry op, op_entry op entry) entry (ops_on g ops) with
  | Some cfg =>
      ∃ b, cfg !! "enabled" = Some (VBool b)
           ∧ foldl (tenant_step g) tenant ops = Some b
  | None => foldl (tenant_step g) tenant ops = None
  end.
Proof.
  revert entry tenant. induction ops as [|op ops IH]; intros entry tenant Hrel;
    [done|].
  unfold ops_on. rewrite filter_cons. fold (ops_on g ops).
  destruct (decide (op_guild op = g)) as [Hg|Hg]; cbn [foldl]; apply IH;
    unfold tenant_step;
    [rewrite decide_True by done|by rewrite decide_False by done].
  destruct op as [g' ch gn cn now|g'|g' b']; simpl.
  - exists true. split; [|done]. by_computation.
  - done.
  - destruct entry as [cfg|]; simpl.
    + destruct Hrel as (b & _ & ->). exists b'.
      split; [by rewrite lookup_insert_eq|done].
    + by subst tenant.
Qed.

(** The tenant of the contract, read off the sequence of calls: it
    is present exactly when the sequence has an upsert of the tenant
    after which the tenant is not removed (nor upserted again), and
    its flag is the one of the last [setEnabled] after that upsert,
    true when there is none. *)
Lemma tenant_after_history (g : Z) (ops : list store_op) (b : bool) :
  tenant_after g ops = Some b
  ↔ ∃ before ch gn cn now after,
      ops = before ++ Upsert g ch gn cn now :: after
      ∧ Forall (λ op, op_guild op = g → ∃ b', op = SetEnabled g b') after
      ∧ b = match last (ops_on g after) with
            | Some (SetEnabled _ b') => b'
            | _ => true
            end.
Proof.
  revert b. induction ops as [|op ops IH] using rev_ind; intros b.
  { split; [done|].
    intros (before & ch & gn & cn & now & after & Hops & _).
    by destruct before. }
  rewrite tenant_after_snoc. unfold tenant_step.
  destruct (decide (op_guild op = g)) as [Hg|Hg].
  - destruct op as [g' ch gn cn now|g'|g' b']; simpl in Hg; subst g'.
    + split.
      * intros [= <-]. by exists ops, ch, gn, cn, now, [].
      * intros (before & ch' & gn' & cn' & now' & after & Hops & Hall & ->).
        destruct (list_snoc_cases after) as [->|(after' & x & ->)]; [done|].
        rewrite app_comm_cons, app_assoc in Hops.
        apply app_inj_tail in Hops as [_ <-].
        apply Forall_app in Hall as [_ Hx].
        apply Forall_cons in Hx as [Hx _].
        by destruct (Hx eq_refl) as [? [=]].
    + split; [done|].
      intros (before & ch' & gn' & cn' & now' & after & Hops & Hall & _).
      destruct (list_snoc_cases after) as [->|(after' & x & ->)].
      * by apply app_inj_tail in Hops as [_ [=]].
      * rewrite app_comm_cons, app_assoc in Hops.
        apply app_inj_tail in Hops as [_ <-].
        apply Forall_app in Hall as [_ Hx].
        apply Forall_cons in Hx as [Hx _].
        by destruct (Hx eq_refl) as [? [=]].
    + split.
      * destruct (tenant_after g ops) as [b0|] eqn:Ht; [|done].
        simpl. intros [= <-].
        destruct (proj1 (IH b0) eq_refl)
          as (before & ch & gn & cn & now & after & -> & Hall & _).
        exists before, ch, gn, cn, now, (after ++ [SetEnabled g b']).
        split_and!.
        -- by rewrite app_comm_cons, app_assoc.
        -- apply Forall_app. split; [done|].
           apply Forall_cons. split; [eauto|done].
        -- rewrite ops_on_snoc. simpl. rewrite decide_True by done.
           by rewrite last_snoc.
      * intros (before & ch & gn & cn & now & after & Hops & Hall & ->).
        destruct (list_snoc_cases after) as [->|(after' & x & ->)].
        { by apply app_inj_tail in Hops as [_ [=]]. }
        rewrite app_comm_cons, app_assoc in Hops.
        apply app_inj_tail in Hops as [-> <-].
        apply Forall_app in Hall as [Hall _].
        rewrite ops_on_snoc. simpl. rewrite decide_True by done.
        rewrite last_snoc.
        assert (is_Some (tenant_after g
                           (before ++ Upsert g ch gn cn now :: after')))
          as [b0 ->]; [|done].
        eexists. apply IH.
        by exists before, ch, gn, cn, now, after'.
  - split.
    + intros (before & ch & gn & cn & now & after & -> & Hall & ->)%IH.
      exists before, ch, gn, cn, now, (after ++ [op]). split_and!.
      * by rewrite app_comm_cons, app_assoc.
      * apply Forall_app. split; [done|].
        apply Forall_cons. split; [done|done].
      * rewrite ops_on_snoc. by rewrite decide_False by done.
    + intros (before & ch & gn & cn & now & after & Hops & Hall & ->).
      destruct (list_snoc_cases after) as [->|(after' & x & ->)].
      { apply app_inj_tail in Hops as [_ ->]. by simpl in Hg. }
      rewrite app_comm_cons, app_assoc in Hops.
      apply app_inj_tail in Hops as [-> <-].
      apply Forall_app in Hall as [Hall _].
      rewrite ops_on_snoc. rewrite decide_False by done.
      apply IH. by exists before, ch, gn, cn, now, after'.
Qed.

(** C8: after any sequence of [add_server], [remove_server],
    [enable_server] and [disable_server] calls on the empty store,
    [get_active_servers] returns, without repetition, exactly the
    guilds that are present and enabled.  Present and enabled is
    read off the calls, not off the store: by the contract of the
    three calls ([tenant_after]), and directly, as the guilds for
    which the sequence has an [add_server] that is followed by no
    [remove_server] of the guild and whose last [enable_server] or
    [disable_server] after it, if any, is an [enable_server].  The
    guilds listed are also the ones whose entry in the store has
    ['enabled'] set to [True].  Two sequences that apply the same
    operations to every guild, in the same order guild by guild, list
    the same servers up to the order of the list. *)
Theorem get_active_servers_after_ops (ops : list store_op) :
  ∃ l,
    get_active_servers (run_ops ops empty) = Ok l
    ∧ NoDup (guild_id <$> l)
    ∧ (∀ g, g ∈ guild_id <$> l ↔ tenant_after g ops = Some true)
    ∧ (∀ g, g ∈ guild_id <$> l ↔
            ∃ before ch gn cn now after,
              ops = before ++ Upsert g ch gn cn now :: after
              ∧ Forall (λ op, op_guild op = g → ∃ b, op = SetEnabled g b)
                  after
              ∧ last (ops_on g after) ≠ Some (SetEnabled g false))
    ∧ (∀ g, g ∈ guild_id <$> l ↔
            ∃ cfg, dict_get (py_str g) (run_ops ops empty) = Some cfg
                   ∧ cfg !! "enabled" = Some (VBool true))
    ∧ (∀ ops',
         (∀ g, ops_on g ops' = ops_on g ops) →
         ∃ l', get_active_servers (run_ops ops' empty) = Ok l' ∧ l' ≡ₚ l).
Proof.
  destruct (run_ops_invariant ops empty empty_wf (Forall_nil_2 _))
    as [Hwf Hwr].
  pose proof (written_listable _ Hwf Hwr) as Hlist.
  pose proof (get_active_servers_omap _ Hlist) as Hget.
  assert (∀ g, g ∈ guild_id <$> omap active_of (run_ops ops empty) ↔
            ∃ cfg, dict_get (py_str g) (run_ops ops empty) = Some cfg
                   ∧ cfg !! "enabled" = Some (VBool true)) as Hstore.
  { intros g. split.
    - intros (si & -> & Hsi)%list_elem_of_fmap.
      apply (active_elem _ _ Hwf) in Hsi as (cfg & Hcfg & Hen & _).
      exists cfg. split; [done|].
      destruct (dict_get_Forall _ _ _ _ Hwr Hcfg) as [_ [b Hb]].
      simpl in Hb. unfold is_enabled in Hen. rewrite Hb in Hen.
      simpl in Hen. by subst b.
    - intros (cfg & Hcfg & Hen).
      destruct (dict_get_Forall _ _ _ _ Hwr Hcfg) as [[ch Hch] _].
      simpl in Hch. apply list_elem_of_fmap.
      eexists {| guild_id := g |}. split; [done|].
      apply list_elem_of_omap. exists (py_str g, cfg).
      split; [by apply dict_get_Some_elem|].
      unfold active_of, is_enabled, active_entry. simpl.
      by rewrite Hen, py_int_str, Hch. }
  assert (∀ g, g ∈ guild_id <$> omap active_of (run_ops ops empty) ↔
            tenant_after g ops = Some true) as Htenant.
  { intros g. rewrite Hstore.
    rewrite dict_get_run_ops by apply empty_wf.
    pose proof (tenant_after_entry g ops None None eq_refl) as Hrel.
    fold (tenant_after g ops) in Hrel. simpl dict_get.
    destruct (foldl _ None (ops_on g ops)) as [cfg|].
    - destruct Hrel as (b & Hb & ->). split.
      + intros (cfg' & [= <-] & Hen). congruence.
      + intros [= ->]. eauto.
    - rewrite Hrel. split; [by intros (cfg' & [=] & _)|done]. }
  exists (omap active_of (run_ops ops empty)).
  split_and!; [done| |done| |done|].
  - by eapply active_guilds_NoDup.
  - intros g. rewrite Htenant, tenant_after_history.
    split.
    + intros (before & ch & gn & cn & now & after & Hops & Hall & Hflag).
      exists before, ch, gn, cn, now, after. split_and!; [done..|].
      intros Hlast. by rewrite Hlast in Hflag.
    + intros (before & ch & gn & cn & now & after & Hops & Hall & Hflag).
      exists before, ch, gn, cn, now, after. split_and!; [done..|].
      destruct (last (ops_on g after)) as [op|] eqn:Hlast; [|done].
      assert (op ∈ ops_on g after) as [Hop Hin]%list_elem_of_filter.
      { apply last_Some_elem_of. by rewrite Hlast. }
      destruct (proj1 (Forall_forall _ _) Hall _ Hin Hop) as [b' ->].
      by destruct b'.
  - intros ops' Hops.
    destruct (run_ops_invariant ops' empty empty_wf (Forall_nil_2 _))
      as [Hwf' Hwr'].
    exists (omap active_of (run_ops ops' empty)). split.
    + by apply get_active_servers_omap, written_listable.
    + apply omap_Permutation. apply store_Permutation; [done..|].
      intros g. rewrite !dict_get_run_ops by apply empty_wf.
      by rewrite Hops.
Qed.

(** ** One server in the loop *)

Lemma elem_of_1 {A} (x y : A) : x ∈ [y] → x = y.
Proof. by intros ?%list_elem_of_singleton. Qed.

(** [process_server] appends events of its own guild to the log and
    changes the store in one of three ways. *)
Lemma process_server_effect (w : World) (latest : value) (si : server_info)
    (n : nat) (st : cstate) :
  ∃ r evs eff,
    process_server w latest si n st
    = (r, {| st_db := apply_effect eff (guild_id si) latest (st_db st);
             st_log := st_log st ++ evs |})
    ∧ Forall (λ ev, event_guild ev = guild_id si) evs
    ∧ (py_gt latest (last_action_id si) = Ok false → evs = [] ∧ eff = Keep)
    ∧ (∀ si' e, EvDispatch si' e ∈ evs →
         si' = si ∧ eff = dispatch_effect w si e ∧ raises r = false)
    ∧ (raises r = true → eff = Keep)
    ∧ (eff = Advanced → py_gt latest (last_action_id si) = Ok true).
Proof.
  destruct st as [db log]. unfold process_server.
  unfold mbind at 1, M_bind, lift. cbv beta iota.
  destruct (py_gt latest (last_action_id si)) as [[|]|e0] eqn:Hgt;
    cbv beta iota.
  2:{ exists (Ok n), [], Keep. simpl. rewrite app_nil_r.
      split_and!; try done. intros ?? Hin. by apply elem_of_nil in Hin. }
  2:{ exists (Raise e0), [], Keep. simpl. rewrite app_nil_r.
      split_and!; try done. intros ?? Hin. by apply elem_of_nil in Hin. }
  set (fetch := EvFetchDiff (guild_id si) latest).
  assert (∀ si' e', EvDispatch si' e' ∈ [fetch] → False) as Hfetch.
  { intros ?? Hin. by apply elem_of_1 in Hin. }
  unfold mbind, M_bind, emit, lift. cbv beta iota. simpl st_db. simpl st_log.
  destruct (format_diff (fetch_diff w (guild_id si) latest)) as [mt|e1].
  2:{ exists (Raise e1), [fetch], Keep.
      split_and!; try done; [by repeat constructor|].
      intros ?? Hin. by destruct (Hfetch _ _ Hin). }
  cbv beta iota. destruct (nonempty_text mt.1) as [msg|].
  2:{ exists (Ok n), [fetch], Keep.
      split_and!; try done; [by repeat constructor|].
      intros ?? Hin. by destruct (Hfetch _ _ Hin). }
  destruct (describe w msg mt.2) as [text|e2].
  2:{ exists (Raise e2), [fetch], Keep.
      split_and!; try done; [by repeat constructor|].
      intros ?? Hin. by destruct (Hfetch _ _ Hin). }
  cbv beta iota.
  set (e := {| title := "CQC Activity Detected"; description := text |}).
  unfold send_update_to_server, mbind, M_bind, emit, modify_db, mret, M_ret.
  cbv beta iota. simpl st_db. simpl st_log.
  assert (∀ r eff,
            eff = dispatch_effect w si e → raises r = false →
            (eff = Advanced → True) →
            Forall (λ ev, event_guild ev = guild_id si)
              [fetch; EvDispatch si e]
            ∧ (Ok true = Ok false → [fetch; EvDispatch si e] = [] ∧ eff = Keep)
            ∧ (∀ si' e', EvDispatch si' e' ∈ [fetch; EvDispatch si e] →
                 si' = si ∧ eff = dispatch_effect w si e' ∧ raises r = false)
            ∧ (raises (r : result nat) = true → eff = Keep)
            ∧ (eff = Advanced → Ok true = Ok true)) as Hleaf.
  { intros r eff Heff Hr _. split_and!; try done.
    - by repeat constructor.
    - intros si' e' [Hin|Hin%elem_of_1]%elem_of_cons; [done|].
      by injection Hin as -> ->.
    - by rewrite Hr. }
  destruct (get_channel w (channel_id si)) eqn:Hch; simpl negb; cbv iota.
  2:{ exists (Ok n), [fetch; EvDispatch si e], Removed. split.
      - simpl. by rewrite <-app_assoc.
      - apply Hleaf; [|done..]. unfold dispatch_effect. by rewrite Hch. }
  destruct (channel_send w (channel_id si) e) eqn:Hsend; cbv iota beta;
    simpl st_db; simpl st_log.
  - exists (Ok (S n)), [fetch; EvDispatch si e; EvSent si e], Advanced.
    split; [simpl; by rewrite <-!app_assoc|].
    split_and!; try done.
    + by repeat constructor.
    + intros si' e' [Hin|[Hin|Hin%elem_of_1]%elem_of_cons]%elem_of_cons;
        try done.
      injection Hin as -> ->. unfold dispatch_effect. by rewrite Hch, Hsend.
  - exists (Ok n), [fetch; EvDispatch si e], Keep. split.
    + simpl. by rewrite <-app_assoc.
    + apply Hleaf; [|done..]. unfold dispatch_effect. by rewrite Hch, Hsend.
  - exists (Ok n), [fetch; EvDispatch si e], Removed. split.
    + simpl. by rewrite <-app_assoc.
    + apply Hleaf; [|done..]. unfold dispatch_effect. by rewrite Hch, Hsend.
  - exists (Ok n), [fetch; EvDispatch si e], Keep. split.
    + simpl. by rewrite <-app_assoc.
    + apply Hleaf; [|done..]. unfold dispatch_effect. by rewrite Hch, Hsend.
Qed.

(** ** The loop over the active servers *)

Lemma for_servers_cons (w : World) (latest : value) (si : server_info)
    (l : list server_info) (n : nat) (st : cstate) :
  for_servers w latest (si :: l) n st
  = match process_server w latest si n st with
    | (Ok n', st') => for_servers w latest l n' st'
    | (Raise e, st') => (Raise e, st')
    end.
Proof. done. Qed.

Lemma for_servers_app (w : World) (latest : value)
    (l1 l2 : list server_info) (n : nat) (st : cstate) :
  for_servers w latest (l1 ++ l2) n st
  = match for_servers w latest l1 n st with
    | (Ok n', st') => for_servers w latest l2 n' st'
    | (Raise e, st') => (Raise e, st')
    end.
Proof.
  revert n st. induction l1 as [|si l1 IH]; intros n st; [done|].
  rewrite <-app_comm_cons, !for_servers_cons.
  destruct (process_server w latest si n st) as [[n'|e] st']; [apply IH|done].
Qed.

Lemma apply_effect_frame (eff : effect) (g g' : Z) (latest : value)
    (db : servers) :
  g' ≠ g →
  dict_get (py_str g) (apply_effect eff g' latest db) = dict_get (py_str g) db.
Proof.
  intros Hne.
  assert (py_str g' ≠ py_str g) as Hkey by (by intros ?%py_str_inj).
  destruct eff; simpl; [done| |].
  - unfold remove_server. destruct (dict_mem _ _); [|done].
    by apply dict_get_del_ne.
  - unfold update_last_action_id. destruct (dict_get (py_str g') db); [|done].
    by apply dict_get_set_ne.
Qed.

Lemma apply_effect_wf (eff : effect) (g : Z) (latest : value) (db : servers) :
  store_wf db → store_wf (apply_effect eff g latest db).
Proof.
  destruct eff; simpl; [done|apply remove_server_wf|].
  apply update_last_action_id_wf.
Qed.

Lemma listable_entry_set_cursor (k : string) (cfg : config) (a : value) :
  listable_entry (k, cfg) →
  listable_entry (k, <["last_action_id" := a]> cfg).
Proof.
  unfold listable_entry, is_enabled, active_entry. simpl.
  rewrite (lookup_insert_ne cfg "last_action_id" "enabled") by done.
  rewrite (lookup_insert_ne cfg "last_action_id" "channel_id") by done.
  intros Hentry Hen. specialize (Hentry Hen).
  destruct (py_int k); [|done]. simpl in *.
  by destruct (cfg !! "channel_id").
Qed.

Lemma apply_effect_listable (eff : effect) (g : Z) (latest : value)
    (db : servers) :
  listable db → listable (apply_effect eff g latest db).
Proof.
  intros Hdb. destruct eff; simpl; [done| |].
  - unfold remove_server. destruct (dict_mem _ _); [|done].
    by apply dict_del_Forall.
  - unfold update_last_action_id.
    destruct (dict_get (py_str g) db) as [cfg|] eqn:Hget; [|done].
    apply dict_set_Forall; [done|]. apply listable_entry_set_cursor.
    by eapply dict_get_Forall.
Qed.

(** A property of the store that every effect preserves holds after
    the loop. *)
Lemma for_servers_invariant (P : servers → Prop) (w : World) (latest : value)
    (l : list server_info) :
  (∀ eff g db, P db → P (apply_effect eff g latest db)) →
  ∀ n st r st',
    P (st_db st) → for_servers w latest l n st = (r, st') → P (st_db st').
Proof.
  intros HP. induction l as [|si l IH]; intros n st r st' Hst.
  - by intros [= _ <-].
  - rewrite for_servers_cons.
    destruct (process_server_effect w latest si n st)
      as (r0 & evs & eff & -> & _).
    destruct r0 as [n'|e].
    + apply IH. simpl. by apply HP.
    + intros [= _ <-]. simpl. by apply HP.
Qed.

(** A guild whose entries in the list are all up to date is not
    touched by the loop: no event is made for it and its entry in the
    store stays as it is.  This covers the guilds that are not in the
    list. *)
Lemma for_servers_skipped (w : World) (latest : value) (g : Z)
    (l : list server_info) :
  (∀ si, si ∈ l → guild_id si = g →
         py_gt latest (last_action_id si) = Ok false) →
  ∀ n st r st',
    for_servers w latest l n st = (r, st') →
    dict_get (py_str g) (st_db st') = dict_get (py_str g) (st_db st)
    ∧ ∃ evs, st_log st' = st_log st ++ evs
             ∧ Forall (λ ev, event_guild ev ≠ g) evs.
Proof.
  induction l as [|si l IH]; intros Hl n st r st'.
  - intros [= _ <-]. split; [done|]. exists []. by rewrite app_nil_r.
  - rewrite for_servers_cons.
    destruct (process_server_effect w latest si n st)
      as (r0 & evs & eff & -> & Htag & Hskip & _).
    assert (dict_get (py_str g)
              (apply_effect eff (guild_id si) latest (st_db st))
            = dict_get (py_str g) (st_db st)
            ∧ Forall (λ ev, event_guild ev ≠ g) evs) as [Hdb Hevs].
    { destruct (decide (guild_id si = g)) as [Hg|Hg].
      - destruct Hskip as [-> ->]; [|done]. apply Hl; [by left|done].
      - split; [by apply apply_effect_frame|].
        eapply Forall_impl; [done|]. simpl. by intros ev ->. }
    destruct r0 as [n'|e].
    + intros Hrest. eapply IH in Hrest as (Hdb' & evs' & Hlog & Hevs').
      2:{ intros si' Hin. apply Hl. by right. }
      simpl in *. split; [by rewrite Hdb'|].
      exists (evs ++ evs'). rewrite Hlog, <-app_assoc. split; [done|].
      by apply Forall_app.
    + intros [= _ <-]. simpl. eauto.
Qed.

(** In a list without repeated guilds, a dispatch recorded by the loop
    was made when the server was reached; the entry of the guild was
    then as at the start, and after the loop it is what the effect of
    that dispatch made of it. *)
Lemma for_servers_dispatched (w : World) (latest : value)
    (si : server_info) (e : embed) (l : list server_info) :
  NoDup (guild_id <$> l) →
  ∀ n st r st',
    for_servers w latest l n st = (r, st') →
    Forall (λ ev, event_guild ev ≠ guild_id si) (st_log st) →
    EvDispatch si e ∈ st_log st' →
    store_wf (st_db st) →
    si ∈ l
    ∧ ∃ db1, store_wf db1
        ∧ dict_get (py_str (guild_id si)) db1
          = dict_get (py_str (guild_id si)) (st_db st)
        ∧ dict_get (py_str (guild_id si)) (st_db st')
          = dict_get (py_str (guild_id si))
              (apply_effect (dispatch_effect w si e) (guild_id si) latest db1).
Proof.
  assert (∀ log, Forall (λ ev, event_guild ev ≠ guild_id si) log →
                 EvDispatch si e ∉ log) as Hnotin.
  { intros log Hlog Hin.
    by apply (proj1 (Forall_forall _ _) Hlog) in Hin. }
  induction l as [|si0 l IH]; intros Hnd n st r st'.
  - intros [= _ <-] Hlog Hin. by destruct (Hnotin _ Hlog).
  - rewrite for_servers_cons. csimpl in Hnd.
    apply NoDup_cons in Hnd as [Hsi0 Hnd].
    destruct (process_server_effect w latest si0 n st)
      as (r0 & evs & eff & -> & Htag & _ & Hdisp & Hraise & _).
    intros Hrun Hlog Hin Hwf.
    destruct (decide (guild_id si0 = guild_id si)) as [Hg|Hg].
    + assert (∀ n' st'', for_servers w latest l n' {|
                  st_db := apply_effect eff (guild_id si0) latest (st_db st);
                  st_log := st_log st ++ evs |} = (r, st'') →
                dict_get (py_str (guild_id si)) (st_db st'')
                = dict_get (py_str (guild_id si))
                    (apply_effect eff (guild_id si0) latest (st_db st))
                ∧ (EvDispatch si e ∈ st_log st'' → EvDispatch si e ∈ evs))
        as Hrest.
      { intros n' st'' Hrest.
        eapply for_servers_skipped in Hrest as (Hdb & evs' & Hlog' & Hevs').
        - split; [done|]. rewrite Hlog'. simpl.
          rewrite !elem_of_app. intros [[Hin'|Hin']|Hin']; [|done|].
          + by destruct (Hnotin _ Hlog).
          + by destruct (Hnotin _ Hevs').
        - intros si' Hsi' Hg'. destruct Hsi0. rewrite Hg, <-Hg'.
          apply list_elem_of_fmap. by exists si'. }
      assert (EvDispatch si e ∈ evs) as Hev.
      { destruct r0 as [n'|e0].
        - by apply (Hrest _ _ Hrun).
        - injection Hrun as _ <-. simpl in Hin.
          apply elem_of_app in Hin as [Hin|Hin]; [|done].
          by destruct (Hnotin _ Hlog). }
      apply Hdisp in Hev as (-> & -> & Hr0).
      split; [by left|]. exists (st_db st). split_and!; [done..|].
      destruct r0 as [n'|e0]; [|done]. by apply (Hrest _ _ Hrun).
    + assert (Forall (λ ev, event_guild ev ≠ guild_id si) (st_log st ++ evs))
        as Hlog'.
      { apply Forall_app. split; [done|].
        eapply Forall_impl; [done|]. simpl. by intros ev ->. }
      destruct r0 as [n'|e0].
      * eapply IH in Hrun as (Hsi & db1 & Hwf1 & Hdb1 & Hfin); try done.
        2:{ simpl. by apply apply_effect_wf. }
        split; [by right|]. exists db1. split_and!; [done| |done].
        rewrite Hdb1. simpl. by apply apply_effect_frame.
      * injection Hrun as _ <-. simpl in Hin. by destruct (Hnotin _ Hlog').
Qed.

(** ** One poll cycle *)

(** A cycle either leaves everything as it was, or it ran the loop
    over the active servers for the head of the leaderboard. *)
Lemma monitoring_cycle_cases (w : World) (db : servers) (st : cstate)
    (o : cycle_outcome) :
  monitoring_cycle w db = (st, o) →
  st = initial_state db
  ∨ ∃ head rest latest l r,
      fetch_leaderboard w = Some (head :: rest)
      ∧ head !! "action_id" = Some latest
      ∧ get_active_servers db = Ok l
      ∧ for_servers w latest l 0 (initial_state db) = (r, st)
      ∧ o = outcome_of r.
Proof.
  unfold monitoring_cycle, cycle_body.
  destruct (fetch_leaderboard w) as [[|head rest]|] eqn:Hlb;
    try (intros [= <- _]; by left).
  unfold mbind at 1, M_bind, lift. cbv beta iota.
  destruct (head !! "action_id") as [latest|] eqn:Hhead;
    [|intros [= <- _]; by left].
  unfold mbind at 1, M_bind, read_db. cbv beta iota. simpl st_db.
  destruct (get_active_servers db) as [[|si l]|e] eqn:Hact;
    try (intros [= <- _]; by left).
  unfold mbind, M_bind, mret, M_ret.
  destruct (for_servers w latest (si :: l) 0 (initial_state db))
    as [r st0] eqn:Hloop.
  intros Hcycle. right. exists head, rest, latest, (si :: l), r.
  split_and!; try done; destruct r; by injection Hcycle as <- <-.
Qed.

Lemma monitoring_cycle_loop (w : World) (db : servers) (head : record)
    (rest : list record) (latest : value)
    (l : list server_info) (r : result nat) (st : cstate) :
  fetch_leaderboard w = Some (head :: rest) →
  head !! "action_id" = Some latest →
  get_active_servers db = Ok l →
  l ≠ [] →
  for_servers w latest l 0 (initial_state db) = (r, st) →
  monitoring_cycle w db = (st, outcome_of r).
Proof.
  intros Hlb Hhead Hact Hl Hloop. unfold monitoring_cycle, cycle_body.
  rewrite Hlb. unfold mbind at 1, M_bind, lift. cbv beta iota.
  rewrite Hhead. unfold mbind at 1, M_bind, read_db. cbv beta iota.
  simpl st_db. rewrite Hact. destruct l as [|si l]; [done|].
  unfold mbind, M_bind, mret, M_ret. rewrite Hloop. by destruct r.
Qed.

Lemma get_active_servers_elem (db : servers) (l : list server_info)
    (si : server_info) :
  store_wf db → get_active_servers db = Ok l → si ∈ l →
  ∃ cfg, dict_get (py_str (guild_id si)) db = Some cfg
         ∧ is_enabled cfg = true
         ∧ active_entry (py_str (guild_id si)) cfg = Ok si.
Proof.
  intros Hwf Hget Hin.
  pose proof (get_active_servers_listable _ _ Hget) as Hlist.
  rewrite (get_active_servers_omap _ Hlist) in Hget. injection Hget as <-.
  by apply active_elem.
Qed.

Lemma dict_get_remove_server (g : Z) (db : servers) :
  store_wf db → dict_get (py_str g) (remove_server g db) = None.
Proof.
  intros [Hnd _]. change (remove_server g db) with (apply_op db (Remove g)).
  rewrite dict_get_apply_op by done. simpl. by rewrite decide_True.
Qed.


(** C4: in a cycle whose head is action [h], a server whose cursor
    [c] is at least [h] is skipped: the cycle makes no request and no
    dispatch for it, and its entry in the store, cursor included, is
    afterwards what it was. *)
Theorem up_to_date_server_is_skipped (w : World) (db : servers)
    (head : record) (rest : list record) (h c : Z) (g : Z) (cfg : config)
    (st : cstate) (o : cycle_outcome) :
  store_wf db →
  fetch_leaderboard w = Some (head :: rest) →
  head !! "action_id" = Some (VInt h) →
  dict_get (py_str g) db = Some cfg →
  cursor_of cfg = VInt c →
  h ≤ c →
  monitoring_cycle w db = (st, o) →
  Forall (λ ev, event_guild ev ≠ g) (st_log st)
  ∧ (∀ si e, guild_id si = g → EvDispatch si e ∉ st_log st)
  ∧ dict_get (py_str g) (st_db st) = Some cfg.
Proof.
  intros Hwf Hlb Hhead Hcfg Hcur Hle Hcycle.
  assert (Forall (λ ev, event_guild ev ≠ g) (st_log st)
          ∧ dict_get (py_str g) (st_db st) = Some cfg) as [Hlog Hdb].
  { apply monitoring_cycle_cases in Hcycle
      as [->|(head' & rest' & latest & l & r & Hlb' & Hhead' & Hact & Hloop & _)].
    { split; [by constructor|done]. }
    rewrite Hlb in Hlb'. injection Hlb' as <- <-.
    rewrite Hhead in Hhead'. injection Hhead' as <-.
    eapply (for_servers_skipped _ _ g) in Hloop as (Hdb & evs & Hlog & Hevs).
    - simpl in *. by rewrite Hlog, Hdb.
    - intros si Hsi Hg.
      destruct (get_active_servers_elem _ _ _ Hwf Hact Hsi)
        as (cfg' & Hcfg' & _ & Hentry).
      rewrite Hg, Hcfg in Hcfg'. injection Hcfg' as <-.
      apply active_entry_Ok in Hentry as (_ & _ & ->). rewrite Hcur.
      unfold py_gt. simpl. f_equal. lia. }
  split_and!; [done| |done].
  intros si e Hg Hin.
  by apply (proj1 (Forall_forall _ _) Hlog) in Hin.
Qed.

(** C6: when a cycle dispatches to a server whose channel is gone
    ([get_channel] finds nothing, or [channel.send] raises
    [NotFound]), the guild has no entry in the store after the cycle,
    hence no cursor that could have been advanced, and the next
    [get_active_servers] returns a list without the guild. *)
Theorem permanent_failure_removes_server (w : World) (db : servers)
    (st : cstate) (o : cycle_outcome) (si : server_info) (e : embed) :
  store_wf db →
  monitoring_cycle w db = (st, o) →
  EvDispatch si e ∈ st_log st →
  get_channel w (channel_id si) = false
  ∨ channel_send w (channel_id si) e = SendNotFound →
  dict_get (py_str (guild_id si)) (st_db st) = None
  ∧ cursor (guild_id si) (st_db st) = None
  ∧ ∃ l, get_active_servers (st_db st) = Ok l
         ∧ guild_id si ∉ guild_id <$> l.
Proof.
  intros Hwf Hcycle Hin Hgone.
  apply monitoring_cycle_cases in Hcycle
    as [->|(head & rest & latest & l & r & _ & _ & Hact & Hloop & _)].
  { by apply elem_of_nil in Hin. }
  pose proof (active_guilds_NoDup _ _ Hwf Hact) as Hnd.
  assert (store_wf (st_db st)) as Hwf'.
  { apply (for_servers_invariant store_wf w latest l
             (λ eff g db, apply_effect_wf eff g latest db)
             0%nat (initial_state db) r st Hwf Hloop). }
  assert (listable (st_db st)) as Hlist'.
  { apply (for_servers_invariant listable w latest l
             (λ eff g db, apply_effect_listable eff g latest db)
             0%nat (initial_state db) r st); [|done].
    by eapply get_active_servers_listable. }
  eapply for_servers_dispatched in Hloop
    as (_ & db1 & Hwf1 & _ & Hfin); [|done|by constructor|done|done].
  assert (dispatch_effect w si e = Removed) as Heff.
  { unfold dispatch_effect. destruct Hgone as [->| ->]; [done|].
    by destruct (get_channel w (channel_id si)). }
  rewrite Heff in Hfin. simpl in Hfin.
  rewrite dict_get_remove_server in Hfin by done.
  split_and!; [done|by unfold cursor; rewrite Hfin|].
  exists (omap active_of (st_db st)).
  split; [by apply get_active_servers_omap|].
  intros (si' & Hg & Hsi')%list_elem_of_fmap.
  apply (active_elem _ _ Hwf') in Hsi' as (cfg & Hcfg & _).
  rewrite <-Hg, Hfin in Hcfg. done.
Qed.

(** C7: when a cycle dispatches to a server and [channel.send] raises
    [Forbidden], the entry of the guild in the store after the cycle
    is the entry it had before the cycle, with the same ['enabled']
    flag and the same cursor, which is the cursor the server was
    listed with. *)
Theorem forbidden_keeps_server (w : World) (db : servers)
    (st : cstate) (o : cycle_outcome) (si : server_info) (e : embed) :
  store_wf db →
  monitoring_cycle w db = (st, o) →
  EvDispatch si e ∈ st_log st →
  get_channel w (channel_id si) = true →
  channel_send w (channel_id si) e = SendForbidden →
  ∃ cfg, dict_get (py_str (guild_id si)) db = Some cfg
         ∧ dict_get (py_str (guild_id si)) (st_db st) = Some cfg
         ∧ cursor (guild_id si) (st_db st) = Some (last_action_id si).
Proof.
  intros Hwf Hcycle Hin Hch Hsend.
  apply monitoring_cycle_cases in Hcycle
    as [->|(head & rest & latest & l & r & _ & _ & Hact & Hloop & _)].
  { by apply elem_of_nil in Hin. }
  pose proof (active_guilds_NoDup _ _ Hwf Hact) as Hnd.
  pose proof Hloop as Hloop'.
  eapply for_servers_dispatched in Hloop
    as (Hsi & db1 & Hwf1 & Hdb1 & Hfin); [|done|by constructor|done|done].
  assert (dispatch_effect w si e = Keep) as Heff.
  { unfold dispatch_effect. by rewrite Hch, Hsend. }
  rewrite Heff in Hfin. simpl in Hfin, Hdb1.
  destruct (get_active_servers_elem _ _ _ Hwf Hact Hsi)
    as (cfg & Hcfg & _ & Hentry).
  exists cfg. rewrite Hfin, Hdb1.
  apply active_entry_Ok in Hentry as (_ & _ & Hcur).
  split_and!; [done..|].
  unfold cursor. by rewrite Hfin, Hdb1, Hcfg, Hcur.
Qed.

(** C2, as the code has it: the only handler around the loop over the
    servers is the one of the whole cycle.  When serving one server
    raises, the cycle ends there with the store as it was when that
    server was reached; the servers that come later in the list are
    not served in this cycle (no request, no dispatch, entry
    untouched), and the loop of [monitoring_task] goes on with the
    next cycle. *)
Theorem exception_ends_cycle (w : World) (db : servers) (head : record)
    (rest : list record) (latest : value) (l1 l2 : list server_info)
    (si : server_info) (n : nat) (st1 st2 : cstate) (e : exn) :
  store_wf db →
  fetch_leaderboard w = Some (head :: rest) →
  head !! "action_id" = Some latest →
  get_active_servers db = Ok (l1 ++ si :: l2) →
  for_servers w latest l1 0 (initial_state db) = (Ok n, st1) →
  process_server w latest si n st1 = (Raise e, st2) →
  monitoring_cycle w db = (st2, Aborted e)
  ∧ st_db st2 = st_db st1
  ∧ (∀ si', si' ∈ l2 →
       Forall (λ ev, event_guild ev ≠ guild_id si') (st_log st2)
       ∧ dict_get (py_str (guild_id si')) (st_db st2)
         = dict_get (py_str (guild_id si')) db)
  ∧ (∀ ws, monitoring_task (w :: ws) db
           = let '(db', tr) := monitoring_task ws (st_db st2) in
             (db', (st_log st2, Aborted e) :: tr)).
Proof.
  intros Hwf Hlb Hhead Hact Hl1 Hsi.
  assert (for_servers w latest (l1 ++ [si]) 0 (initial_state db)
          = (Raise e, st2)) as Hprefix.
  { by rewrite for_servers_app, Hl1, for_servers_cons, Hsi. }
  assert (monitoring_cycle w db = (st2, Aborted e)) as Hcycle.
  { apply (monitoring_cycle_loop w db head rest latest (l1 ++ si :: l2)
             (Raise e) st2); [done..|by destruct l1|].
    by rewrite for_servers_app, Hl1, for_servers_cons, Hsi. }
  split_and!; [done| | |].
  - destruct (process_server_effect w latest si n st1)
      as (r & evs & eff & Hstep & _ & _ & _ & Hraise & _).
    rewrite Hsi in Hstep. injection Hstep as <- ->.
    by rewrite Hraise.
  - intros si' Hsi'.
    pose proof (active_guilds_NoDup _ _ Hwf Hact) as Hnd.
    eapply (for_servers_skipped _ _ (guild_id si')) in Hprefix
      as (Hdb & evs & Hlog & Hevs).
    + simpl in *. by rewrite Hlog, Hdb.
    + intros si0 Hsi0 Hg. exfalso.
      rewrite fmap_app, fmap_cons in Hnd.
      apply NoDup_app in Hnd as (_ & Hdisj & Hnd2).
      apply NoDup_cons in Hnd2 as [Hsi2 _].
      apply elem_of_app in Hsi0 as [Hsi0|Hsi0%elem_of_1].
      * apply (Hdisj (guild_id si0)); [apply list_elem_of_fmap; eauto|].
        right. rewrite Hg. apply list_elem_of_fmap; eauto.
      * subst si0. apply Hsi2. rewrite Hg. apply list_elem_of_fmap; eauto.
  - intros ws. simpl. by rewrite Hcycle.
Qed.

(** ** The theorems at concrete stores and worlds *)

(** C2 fails as stated.  Guilds 1, 2 and 3 all lag behind action 42.
    Guild 1 is served; formatting the diff fetched for guild 2 raises
    [ValueError]; the cycle ends there, and guild 3, which would have
    been served had it been alone in the store, gets no request, no
    dispatch, and keeps cursor 0. *)
Lemma exception_skips_remaining_servers :
  (monitoring_cycle world_42 store_123).2 = Aborted ValueError
  ∧ event_guild <$> st_log (monitoring_cycle world_42 store_123).1
    = [1; 1; 1; 2]
  ∧ cursor 1 (st_db (monitoring_cycle world_42 store_123).1)
    = Some (VInt 42)
  ∧ cursor 3 (st_db (monitoring_cycle world_42 store_123).1)
    = Some (VInt 0)
  ∧ (monitoring_cycle world_42 store_3).2 = Completed 1
  ∧ cursor 3 (st_db (monitoring_cycle world_42 store_3).1)
    = Some (VInt 42).
Proof. by vm_compute. Qed.

Lemma exception_ends_cycle_witness :
  (monitoring_cycle world_42 store_123).2 = Aborted ValueError
  ∧ Forall (λ ev, event_guild ev ≠ 3)
      (st_log (monitoring_cycle world_42 store_123).1).
Proof.
  set (l1 := [server_of 1 10 "GuildA"]).
  set (st1 := (for_servers world_42 (VInt 42) l1 0
                 (initial_state store_123)).2).
  set (st2 := (process_server world_42 (VInt 42) (server_of 2 20 "GuildB")
                 1 st1).2).
  destruct (exception_ends_cycle world_42 store_123
              {[ "action_id" := VInt 42 ]} [] (VInt 42)
              l1 [server_of 3 30 "GuildC"] (server_of 2 20 "GuildB")
              1 st1 st2 ValueError)
    as (Hcycle & _ & Hrest & _).
  - by_computation.
  - reflexivity.
  - reflexivity.
  - vm_compute. reflexivity.
  - vm_compute. reflexivity.
  - vm_compute. reflexivity.
  - rewrite Hcycle. split; [reflexivity|].
    apply (Hrest (server_of 3 30 "GuildC")). by left.
Defined.

Lemma up_to_date_server_is_skipped_witness :
  Forall (λ ev, event_guild ev ≠ 6)
    (st_log (monitoring_cycle world_42 store_456).1)
  ∧ cursor 6 (st_db (monitoring_cycle world_42 store_456).1) = Some (VInt 42).
Proof.
  set (cfg := default ∅ (dict_get "6" store_456)).
  destruct (up_to_date_server_is_skipped world_42 store_456
              {[ "action_id" := VInt 42 ]} [] 42 42 6 cfg
              (monitoring_cycle world_42 store_456).1
              (monitoring_cycle world_42 store_456).2)
    as (Hlog & _ & Hdb).
  - by_computation.
  - reflexivity.
  - reflexivity.
  - vm_compute. reflexivity.
  - vm_compute. reflexivity.
  - lia.
  - apply surjective_pairing.
  - split; [exact Hlog|]. unfold cursor. rewrite Hdb. vm_compute. reflexivity.
Defined.

Lemma permanent_failure_removes_server_witness :
  dict_get "4" (st_db (monitoring_cycle world_42 store_456).1) = None.
Proof.
  refine (proj1 (permanent_failure_removes_server world_42 store_456
                   (monitoring_cycle world_42 store_456).1
                   (monitoring_cycle world_42 store_456).2
                   (server_of 4 40 "GuildD") embed_X _ _ _ _)).
  - by_computation.
  - apply surjective_pairing.
  - by_computation.
  - left. reflexivity.
Defined.

Lemma forbidden_keeps_server_witness :
  cursor 5 (st_db (monitoring_cycle world_42 store_456).1) = Some (VInt 0).
Proof.
  destruct (forbidden_keeps_server world_42 store_456
              (monitoring_cycle world_42 store_456).1
              (monitoring_cycle world_42 store_456).2
              (server_of 5 50 "GuildE") embed_X)
    as (cfg & _ & _ & Hcur).
  - by_computation.
  - apply surjective_pairing.
  - by_computation.
  - reflexivity.
  - reflexivity.
  - exact Hcur.
Defined.

Lemma get_active_servers_after_ops_witness :
  ∃ l l', get_active_servers (run_ops ops_a empty) = Ok l
          ∧ get_active_servers (run_ops ops_b empty) = Ok l'
          ∧ l' ≡ₚ l
          ∧ 1 ∈ guild_id <$> l
          ∧ 2 ∈ guild_id <$> l
          ∧ (3 ∉ guild_id <$> l).
Proof.
  destruct (get_active_servers_after_ops ops_a)
    as (l & Hl & _ & Htenant & _ & _ & Hperm).
  destruct (Hperm ops_b) as (l' & Hl' & Hp).
  - intros g. unfold ops_on, ops_a, ops_b.
    rewrite !filter_cons, filter_nil. simpl.
    repeat case_decide; (reflexivity || lia).
  - exists l, l'. split; [exact Hl|]. split; [exact Hl'|].
    split; [exact Hp|]. split; [|split].
    + apply Htenant. vm_compute. reflexivity.
    + apply Htenant. vm_compute. reflexivity.
    + intros Hin. apply Htenant in Hin. vm_compute in Hin.
      discriminate Hin.
Defined.

(** A server at cursor 40 with head 42 is sent the summary and moves
    to 42; with an empty diff nothing is dispatched and the cursor
    stays at 40. *)
Example cycle_scenario :
  (monitoring_cycle world_42 store_89_at_40).2 = Completed 1
  ∧ st_log (monitoring_cycle world_42 store_89_at_40).1
    = [EvFetchDiff 8 (VInt 42);
       EvFetchDiff 9 (VInt 42);
       EvDispatch
         {| guild_id := 9; channel_id := VInt 90;
            last_action_id := VInt 40; guild_name := VStr "GuildI";
            channel_name := VStr "general" |} embed_X;
       EvSent
         {| guild_id := 9; channel_id := VInt 90;
            last_action_id := VInt 40; guild_name := VStr "GuildI";
            channel_name := VStr "general" |} embed_X]
  ∧ cursor 8 (st_db (monitoring_cycle world_42 store_89_at_40).1)
    = Some (VInt 40)
  ∧ cursor 9 (st_db (monitoring_cycle world_42 store_89_at_40).1)
    = Some (VInt 42).
Proof. by vm_compute. Qed.

(** * Further properties of the store *)

Section PyDictSplit.
Context {V : Type}.
Implicit Types (d : list (string * V)) (k : string) (v : V).

(** The item a lookup finds is the first one with the key; writing
    replaces it in place and deleting takes it out. *)
Lemma dict_get_split k v d :
  dict_get k d = Some v →
  ∃ d1 d2, d = d1 ++ (k, v) :: d2
           ∧ (k ∉ dict_keys d1)
           ∧ (∀ v', dict_set k v' d = d1 ++ (k, v') :: d2)
           ∧ dict_del k d = d1 ++ d2.
Proof.
  induction d as [|[k0 v0] d IH]; simpl; [done|].
  destruct (decide (k = k0)) as [->|Hne].
  - intros [= ->]. exists [], d. split_and!; try done.
    apply not_elem_of_nil.
  - intros Hget. destruct (IH Hget) as (d1 & d2 & -> & Hk & Hset & Hdel).
    exists ((k0, v0) :: d1), d2. split_and!.
    + done.
    + unfold dict_keys in *. csimpl. apply not_elem_of_cons. by split.
    + intros v'. by rewrite Hset.
    + by rewrite Hdel.
Qed.

Lemma dict_set_set k v v' d :
  dict_set k v' (dict_set k v d) = dict_set k v' d.
Proof.
  induction d as [|[k0 v0] d IH]; simpl.
  - by rewrite decide_True.
  - destruct (decide (k = k0)) as [->|Hne]; simpl.
    + by rewrite decide_True.
    + by rewrite decide_False, IH.
Qed.

Lemma dict_set_id k v d : dict_get k d = Some v → dict_set k v d = d.
Proof.
  induction d as [|[k0 v0] d IH]; simpl; [done|].
  destruct (decide (k = k0)) as [->|Hne].
  - by intros [= ->].
  - intros Hget. by rewrite IH.
Qed.
End PyDictSplit.

Lemma omap_active_of_app (d1 d2 : servers) :
  omap active_of (d1 ++ d2) = omap active_of d1 ++ omap active_of d2.
Proof. apply omap_app. Qed.

Lemma listable_active_of (db : servers) (k : string) (cfg : config) :
  listable db → (k, cfg) ∈ db → is_enabled cfg = true →
  ∃ si, active_entry k cfg = Ok si ∧ active_of (k, cfg) = Some si.
Proof.
  intros Hlist Hin Hen.
  pose proof (proj1 (Forall_forall _ _) Hlist _ Hin) as Hentry.
  unfold listable_entry in Hentry. simpl in Hentry. specialize (Hentry Hen).
  destruct (active_entry k cfg) as [si|] eqn:Hsi; [|done].
  exists si. split; [done|]. unfold active_of. simpl. by rewrite Hen, Hsi.
Qed.

(** X1: in a store with distinct keys, [remove_server] leaves no
    entry for the guild and every other entry as it was; removing a
    guild that has no entry returns the store as it is, so removing
    twice is removing once. *)
Theorem remove_server_removes (g : Z) (db : servers) :
  NoDup (dict_keys db) →
  dict_get (py_str g) (remove_server g db) = None
  ∧ (∀ k, k ≠ py_str g → dict_get k (remove_server g db) = dict_get k db)
  ∧ (dict_get (py_str g) db = None → remove_server g db = db)
  ∧ remove_server g (remove_server g db) = remove_server g db.
Proof.
  intros Hnd.
  assert (∀ d : servers, dict_get (py_str g) d = None → remove_server g d = d)
    as Habsent.
  { intros d Hnone. unfold remove_server.
    destruct (dict_mem (py_str g) d) eqn:Hmem; [|done].
    apply dict_mem_true in Hmem as [? Hsome]. congruence. }
  assert (dict_get (py_str g) (remove_server g db) = None) as Hgone.
  { unfold remove_server. destruct (dict_mem (py_str g) db) eqn:Hmem.
    - by apply dict_get_del_eq.
    - destruct (dict_get (py_str g) db) eqn:Hget; [|done].
      assert (dict_mem (py_str g) db = true); [|congruence].
      apply dict_mem_true. by rewrite Hget. }
  split_and!; [done| |apply Habsent|by apply Habsent].
  intros k Hk. unfold remove_server.
  destruct (dict_mem (py_str g) db); [|done]. by apply dict_get_del_ne.
Qed.

Lemma remove_server_removes_witness :
  dict_get "7" (remove_server 7 store_7_at_5) = None
  ∧ remove_server 8 store_7_at_5 = store_7_at_5.
Proof.
  destruct (remove_server_removes 7 store_7_at_5) as (Hgone & _).
  { by_computation. }
  destruct (remove_server_removes 8 store_7_at_5) as (_ & _ & Habsent & _).
  { by_computation. }
  split; [exact Hgone|]. apply Habsent. vm_compute. reflexivity.
Defined.

(** X2: disabling a guild whose entry has ['enabled'] set to [True]
    and enabling it again gives back the store exactly as it was:
    same entries, same cursors, same order. *)
Theorem disable_then_enable (g : Z) (db : servers) (cfg : config) :
  dict_get (py_str g) db = Some cfg →
  cfg !! "enabled" = Some (VBool true) →
  enable_server g (disable_server g db) = db.
Proof.
  intros Hget Hen. unfold disable_server. rewrite Hget.
  unfold enable_server. rewrite dict_get_set_eq, dict_set_set.
  rewrite insert_insert_eq, insert_id by done. by apply dict_set_id.
Qed.

Lemma disable_then_enable_witness :
  enable_server 7 (disable_server 7 store_7_at_5) = store_7_at_5.
Proof.
  apply (disable_then_enable 7 store_7_at_5
           (default ∅ (dict_get "7" store_7_at_5))).
  - vm_compute. reflexivity.
  - vm_compute. reflexivity.
Defined.

Lemma listable_omap_split (db d1 d2 : servers) (k : string) (cfg : config) :
  listable db → db = d1 ++ (k, cfg) :: d2 →
  listable d1 ∧ listable d2
  ∧ omap active_of db
    = omap active_of d1 ++ omap active_of [(k, cfg)] ++ omap active_of d2.
Proof.
  intros Hlist ->. unfold listable in *.
  apply Forall_app in Hlist as [H1 [_ H2]%Forall_cons].
  split_and!; [done..|].
  change ((k, cfg) :: d2) with ([(k, cfg)] ++ d2).
  by rewrite !omap_active_of_app.
Qed.

Lemma active_entry_with_cursor (k : string) (cfg : config) (a : value)
    (si : server_info) :
  active_entry k cfg = Ok si →
  active_entry k (<["last_action_id" := a]> cfg) = Ok (with_cursor a si).
Proof.
  unfold active_entry. destruct (py_int k) as [g|]; [|done]. simpl.
  rewrite (lookup_insert_ne cfg "last_action_id" "channel_id") by done.
  rewrite (lookup_insert_ne cfg "last_action_id" "guild_name") by done.
  rewrite (lookup_insert_ne cfg "last_action_id" "channel_name") by done.
  rewrite lookup_insert_eq.
  destruct (cfg !! "channel_id") as [ch|]; [|done]. simpl.
  by intros [= <-].
Qed.

(** X3: [update_last_action_id] is seen by the next
    [get_active_servers]: the server of the guild is listed at the
    same place with the new cursor and its other fields as before,
    and the servers listed before and after it are the same. *)
Theorem update_last_action_id_listed (g : Z) (a : value) (db : servers)
    (cfg : config) :
  listable db →
  dict_get (py_str g) db = Some cfg →
  is_enabled cfg = true →
  ∃ l1 si l2,
    get_active_servers db = Ok (l1 ++ si :: l2)
    ∧ guild_id si = g
    ∧ last_action_id si = cursor_of cfg
    ∧ get_active_servers (update_last_action_id g a db)
      = Ok (l1 ++ with_cursor a si :: l2).
Proof.
  intros Hlist Hget Hen.
  destruct (dict_get_split _ _ _ Hget) as (d1 & d2 & Hdb & _ & Hset & _).
  destruct (listable_omap_split _ _ _ _ _ Hlist Hdb) as (H1 & H2 & Homap).
  destruct (listable_active_of db (py_str g) cfg) as (si & Hsi & Hact);
    [done|by apply dict_get_Some_elem|done|].
  exists (omap active_of d1), si, (omap active_of d2).
  pose proof (active_entry_Ok _ _ _ Hsi) as (Hint & _ & Hcur).
  rewrite py_int_str in Hint. injection Hint as Hg.
  split_and!; [|done..|].
  - rewrite (get_active_servers_omap _ Hlist), Homap. csimpl.
    by rewrite Hact.
  - unfold update_last_action_id. rewrite Hget, Hset.
    assert (active_of (py_str g, <["last_action_id" := a]> cfg)
            = Some (with_cursor a si)) as Hact'.
    { unfold active_of, is_enabled in *. simpl in *.
      rewrite (lookup_insert_ne cfg "last_action_id" "enabled") by done.
      rewrite Hen. by rewrite (active_entry_with_cursor _ _ _ _ Hsi). }
    rewrite get_active_servers_omap.
    + rewrite omap_active_of_app. csimpl. by rewrite Hact'.
    + apply Forall_app. split; [done|]. constructor; [|done].
      unfold listable_entry. simpl. intros _.
      by rewrite (active_entry_with_cursor _ _ _ _ Hsi).
Qed.

Lemma update_last_action_id_listed_witness :
  ∃ l1 si l2,
    get_active_servers store_7_at_5 = Ok (l1 ++ si :: l2)
    ∧ guild_id si = 7
    ∧ last_action_id si = VInt 5
    ∧ get_active_servers (update_last_action_id 7 (VInt 9) store_7_at_5)
      = Ok (l1 ++ with_cursor (VInt 9) si :: l2).
Proof.
  apply (update_last_action_id_listed 7 (VInt 9) store_7_at_5
           (default ∅ (dict_get "7" store_7_at_5))).
  - by_computation.
  - vm_compute. reflexivity.
  - vm_compute. reflexivity.
Defined.

(** X4: disabling a guild that is listed takes exactly its server out
    of the list of active servers, leaves the other servers and their
    order as they were, and lowers [get_server_count] by one; the
    guild is not listed any more when the keys of the store are
    distinct and canonical. *)
Theorem disable_server_unlists (g : Z) (db : servers) (cfg : config) :
  store_wf db →
  listable db →
  dict_get (py_str g) db = Some cfg →
  is_enabled cfg = true →
  ∃ l1 si l2,
    get_active_servers db = Ok (l1 ++ si :: l2)
    ∧ guild_id si = g
    ∧ get_active_servers (disable_server g db) = Ok (l1 ++ l2)
    ∧ (g ∉ guild_id <$> (l1 ++ l2))
    ∧ get_server_count db = S (get_server_count (disable_server g db)).
Proof.
  intros Hwf Hlist Hget Hen.
  destruct (dict_get_split _ _ _ Hget) as (d1 & d2 & Hdb & _ & Hset & _).
  destruct (listable_omap_split _ _ _ _ _ Hlist Hdb) as (H1 & H2 & Homap).
  destruct (listable_active_of db (py_str g) cfg) as (si & Hsi & Hact);
    [done|by apply dict_get_Some_elem|done|].
  exists (omap active_of d1), si, (omap active_of d2).
  pose proof (active_entry_Ok _ _ _ Hsi) as (Hint & _ & Hcur).
  rewrite py_int_str in Hint. injection Hint as Hg.
  assert (get_active_servers db
          = Ok (omap active_of d1 ++ si :: omap active_of d2)) as Hbefore.
  { rewrite (get_active_servers_omap _ Hlist), Homap. csimpl.
    by rewrite Hact. }
  assert (is_enabled (<["enabled" := VBool false]> cfg) = false) as Hoff.
  { unfold is_enabled. by rewrite lookup_insert_eq. }
  split_and!; [done..| | |].
  - unfold disable_server. rewrite Hget, Hset.
    rewrite get_active_servers_omap.
    + rewrite omap_active_of_app. csimpl.
      unfold active_of at 2. simpl. by rewrite Hoff.
    + apply Forall_app. split; [done|]. constructor; [|done].
      unfold listable_entry. simpl. by rewrite Hoff.
  - pose proof (active_guilds_NoDup _ _ Hwf Hbefore) as Hnd.
    rewrite fmap_app, fmap_cons, <-Hg in Hnd.
    apply NoDup_app in Hnd as (_ & Hdisj & [Hg2 _]%NoDup_cons).
    rewrite fmap_app. intros [Hin|Hin]%elem_of_app; [|done].
    apply (Hdisj _ Hin). by left.
  - unfold disable_server, get_server_count. rewrite Hget, Hset, Hdb.
    rewrite !fmap_app, !fmap_cons, !filter_app. simpl.
    rewrite filter_cons_True by done.
    rewrite filter_cons_False by (by rewrite Hoff).
    rewrite !length_app. simpl. lia.
Qed.

Lemma disable_server_unlists_witness :
  ∃ l1 si l2,
    get_active_servers store_123 = Ok (l1 ++ si :: l2)
    ∧ guild_id si = 2
    ∧ get_active_servers (disable_server 2 store_123) = Ok (l1 ++ l2)
    ∧ (2 ∉ guild_id <$> (l1 ++ l2))
    ∧ get_server_count store_123
      = S (get_server_count (disable_server 2 store_123)).
Proof.
  apply (disable_server_unlists 2 store_123
           (default ∅ (dict_get "2" store_123))).
  - by_computation.
  - by_computation.
  - vm_compute. reflexivity.
  - vm_compute. reflexivity.
Defined.

(** X5: [get_server_count] is the number of servers
    [get_active_servers] returns, whenever the latter returns. *)
Theorem get_server_count_is_length (db : servers) (l : list server_info) :
  get_active_servers db = Ok l → get_server_count db = length l.
Proof.
  intros Hget.
  pose proof (get_active_servers_listable _ _ Hget) as Hlist.
  rewrite (get_active_servers_omap _ Hlist) in Hget. injection Hget as <-.
  unfold get_server_count.
  induction Hlist as [|[k cfg] db Hentry _ IH]; [done|]. csimpl.
  unfold listable_entry in Hentry. simpl in Hentry.
  unfold active_of at 1. simpl.
  destruct (is_enabled cfg) eqn:Hen.
  - rewrite filter_cons_True by done.
    specialize (Hentry eq_refl).
    destruct (active_entry k cfg); [|done]. simpl. by rewrite IH.
  - rewrite filter_cons_False by (by rewrite Hen). done.
Qed.

Lemma get_server_count_is_length_witness :
  get_server_count store_456 = 3%nat.
Proof.
  set (l := omap active_of store_456).
  change 3%nat with (length l).
  apply get_server_count_is_length. vm_compute. reflexivity.
Defined.

(** X6: after [add_server] the guild is active with a fresh cursor,
    also when its entry was disabled before: [get_active_servers]
    returns a list that contains the server with the channel and the
    names given and [last_action_id] 0. *)
Theorem add_server_listed (g : Z) (ch gn cn : value) (now : string)
    (db : servers) :
  listable db →
  ∃ l, get_active_servers (add_server g ch gn cn now db) = Ok l
       ∧ {| guild_id := g; channel_id := ch; last_action_id := VInt 0;
            guild_name := gn; channel_name := cn |} ∈ l.
Proof.
  intros Hlist. unfold add_server.
  set (cfg := list_to_map _).
  assert (active_entry (py_str g) cfg
          = Ok {| guild_id := g; channel_id := ch; last_action_id := VInt 0;
                  guild_name := gn; channel_name := cn |}) as Hentry.
  { unfold active_entry. rewrite py_int_str. by vm_compute. }
  assert (is_enabled cfg = true) as Hen by (by vm_compute).
  assert (listable (dict_set (py_str g) cfg db)) as Hlist'.
  { apply dict_set_Forall; [done|]. unfold listable_entry. simpl.
    intros _. by rewrite Hentry. }
  exists (omap active_of (dict_set (py_str g) cfg db)).
  split; [by apply get_active_servers_omap|].
  apply list_elem_of_omap. exists (py_str g, cfg). split.
  - apply dict_get_Some_elem, dict_get_set_eq.
  - unfold active_of. simpl. by rewrite Hen, Hentry.
Qed.

Lemma add_server_listed_witness :
  ∃ l, get_active_servers
         (add_server 7 (VInt 71) (VStr "GuildA") (VStr "news") "t1"
            (disable_server 7 store_7_at_5)) = Ok l
       ∧ {| guild_id := 7; channel_id := VInt 71; last_action_id := VInt 0;
            guild_name := VStr "GuildA"; channel_name := VStr "news" |} ∈ l.
Proof.
  apply (add_server_listed 7 (VInt 71) (VStr "GuildA") (VStr "news") "t1"
           (disable_server 7 store_7_at_5)).
  by_computation.
Defined.

(** X7: with canonical keys, [get_active_servers] raises exactly
    when some entry that counts as enabled has no ['channel_id'], and
    what it raises is [KeyError('channel_id')]; entries that are
    disabled are not looked at. *)
Theorem get_active_servers_raises (db : servers) :
  Forall canonical_key (dict_keys db) →
  (∃ k cfg, (k, cfg) ∈ db ∧ is_enabled cfg = true
            ∧ cfg !! "channel_id" = None)
  ↔ get_active_servers db = Raise (KeyError "channel_id").
Proof.
  unfold dict_keys. induction db as [|[k cfg] db IH]; csimpl.
  - intros _. split; [|done].
    intros (k & cfg & Hin & _). by apply elem_of_nil in Hin.
  - intros [Hk Hdb]%Forall_cons. specialize (IH Hdb).
    assert ((∃ k' cfg', (k', cfg') ∈ (k, cfg) :: db ∧ is_enabled cfg' = true
                        ∧ cfg' !! "channel_id" = None)
            ↔ (is_enabled cfg = true ∧ cfg !! "channel_id" = None)
              ∨ get_active_servers db = Raise (KeyError "channel_id"))
      as ->.
    { rewrite <-IH. split.
      - intros (k' & cfg' & [[= -> ->]|Hin]%elem_of_cons & Hen' & Hch').
        + by left.
        + right. eauto.
      - intros [[Hen Hch]|(k' & cfg' & Hin & Hrest)].
        + exists k, cfg. split; [by left|done].
        + exists k', cfg'. split; [by right|done]. }
    unfold canonical_key in Hk. unfold active_entry.
    destruct (py_int k) as [g|]; [|done].
    destruct (is_enabled cfg) eqn:Hen.
    + simpl. destruct (cfg !! "channel_id") as [ch|] eqn:Hch; simpl.
      * destruct (get_active_servers db) as [l|e] eqn:Hget; simpl.
        -- split; [|done]. by intros [[_ ?]|?].
        -- split; [|by right]. by intros [[_ ?]|?].
      * split; [done|]. intros _. by left.
    + split; [|by right]. by intros [[? _]|?].
Qed.

Lemma get_active_servers_raises_witness :
  get_active_servers corrupt_store = Raise (KeyError "channel_id").
Proof.
  assert (Forall canonical_key (dict_keys corrupt_store)) as Hkeys.
  { by_computation. }
  apply (proj1 (get_active_servers_raises corrupt_store Hkeys)).
  exists "2", {[ "enabled" := VBool true ]}. split; [|by vm_compute].
  right. right. left.
Defined.

(** * Further properties of the formatter *)

(** ** Thousands grouping *)

Lemma group3_short (l : list ascii) : (length l ≤ 3)%nat → group3 l = l.
Proof. destruct l as [|a [|b [|c [|d l]]]]; simpl; (done || lia). Qed.

Lemma group3_long (a b c d : ascii) (l : list ascii) :
  group3 (a :: b :: c :: d :: l) = a :: b :: c :: ","%char :: group3 (d :: l).
Proof. done. Qed.

(** Induction in steps of three characters. *)
Lemma group3_ind (P : list ascii → Prop) :
  (∀ l, (length l ≤ 3)%nat → P l) →
  (∀ a b c d l, P (d :: l) → P (a :: b :: c :: d :: l)) →
  ∀ l, P l.
Proof.
  intros Hshort Hlong l.
  induction (Nat.lt_wf_0_projected length l) as [l _ IH].
  destruct l as [|a [|b [|c [|d l]]]]; try (apply Hshort; simpl; lia).
  apply Hlong, IH. simpl. lia.
Qed.

Lemma filter_rev {A} (P : A → Prop) `{!∀ x, Decision (P x)} (l : list A) :
  filter P (rev l) = rev (filter P l).
Proof.
  induction l as [|x l IH]; [done|]. simpl.
  rewrite filter_app, IH, filter_cons.
  destruct (decide (P x)); simpl.
  - by rewrite filter_cons_True, filter_nil.
  - by rewrite filter_cons_False, filter_nil, app_nil_r.
Qed.

Lemma group3_filter (l : list ascii) :
  filter (λ c, ¬ is_comma c) (group3 l) = filter (λ c, ¬ is_comma c) l.
Proof.
  induction l as [l Hl|a b c d l IH] using group3_ind.
  - by rewrite group3_short.
  - rewrite group3_long.
    rewrite (filter_cons _ a), (filter_cons _ b), (filter_cons _ c).
    rewrite (filter_cons _ a (b :: _)), (filter_cons _ b (c :: _)),
      (filter_cons _ c (d :: _)).
    rewrite (filter_cons_False _ ","%char) by (by intros []).
    by rewrite IH.
Qed.

Lemma list_ascii_of_string_app (s t : string) :
  list_ascii_of_string (s +:+ t)
  = list_ascii_of_string s ++ list_ascii_of_string t.
Proof. induction s as [|c s IH]; [done|]. simpl. by rewrite IH. Qed.

Lemma string_of_list_ascii_app (l k : list ascii) :
  string_of_list_ascii (l ++ k)
  = string_of_list_ascii l +:+ string_of_list_ascii k.
Proof. induction l as [|c l IH]; [done|]. simpl. by rewrite IH. Qed.

Lemma pretty_N_char_not_comma (d : N) : ¬ is_comma (pretty_N_char d).
Proof.
  unfold is_comma, pretty_N_char.
  destruct d as [|p]; [done|].
  do 4 (destruct p as [p|p|]; try done).
Qed.

Lemma string_app_assoc (s t u : string) : (s +:+ t) +:+ u = s +:+ (t +:+ u).
Proof.
  induction s as [|c s IH]; [done|].
  change (String c ((s +:+ t) +:+ u) = String c (s +:+ (t +:+ u))).
  by rewrite IH.
Qed.

Lemma pretty_N_go_app (x : N) :
  ∀ s, pretty_N_go x s = pretty_N_go x "" +:+ s.
Proof.
  induction (N.lt_wf_0 x) as [x _ IH]; intros s.
  destruct (decide (x = 0)%N) as [->|Hx].
  - by rewrite !pretty_N_go_0.
  - rewrite !(pretty_N_go_step x) by lia.
    assert (x `div` 10 < x)%N as Hlt by (apply N.div_lt; lia).
    rewrite (IH _ Hlt (String _ s)), (IH _ Hlt (String _ "")).
    by rewrite string_app_assoc.
Qed.

Lemma pretty_N_no_comma (x : N) :
  Forall (λ c, ¬ is_comma c) (list_ascii_of_string (pretty x)).
Proof.
  unfold pretty, pretty_N. case_decide; [by repeat constructor|].
  induction (N.lt_wf_0 x) as [x _ IH].
  rewrite pretty_N_go_step by lia.
  rewrite pretty_N_go_app, list_ascii_of_string_app.
  apply Forall_app. split.
  - destruct (decide (x `div` 10 = 0)%N) as [->|Hx].
    + rewrite pretty_N_go_0. constructor.
    + apply IH; [apply N.div_lt; lia|done].
  - repeat constructor. apply pretty_N_char_not_comma.
Qed.

Lemma group_thousands_digits (digits : string) :
  Forall (λ c, ¬ is_comma c) (list_ascii_of_string digits) →
  filter (λ c, ¬ is_comma c) (list_ascii_of_string (group_thousands digits))
  = list_ascii_of_string digits.
Proof.
  intros Hdigits. unfold group_thousands.
  rewrite list_ascii_of_string_of_list_ascii.
  rewrite filter_rev, group3_filter, <-filter_rev, rev_involutive.
  induction Hdigits as [|c l Hc _ IH]; [done|].
  by rewrite filter_cons_True, IH.
Qed.

(** X8: the grouping only adds commas: taking the commas out of
    [f"{n:,}"] gives [str(n)] back, for every integer [n]. *)
Theorem format_int_comma_digits (n : Z) :
  filter (λ c, ¬ is_comma c) (list_ascii_of_string (format_int_comma n))
  = list_ascii_of_string (py_str n).
Proof.
  unfold format_int_comma, py_str.
  rewrite list_ascii_of_string_app, filter_app.
  rewrite group_thousands_digits by apply pretty_N_no_comma.
  destruct n as [|p|p]; [reflexivity..|].
  change (Z.neg p <? 0) with true. cbv iota.
  unfold pretty at 2, pretty_Z. rewrite list_ascii_of_string_app.
  by f_equal.
Qed.

Lemma pretty_N_nonzero (x : N) : x ≠ 0%N → pretty x = pretty_N_go x "".
Proof. intros Hx. unfold pretty, pretty_N. by rewrite decide_False. Qed.

Lemma group_thousands_small (x : N) :
  (x < 1000)%N → group_thousands (pretty x) = pretty x.
Proof.
  intros Hx. unfold group_thousands.
  rewrite group3_short, rev_involutive, string_of_list_ascii_of_string;
    [done|].
  rewrite length_rev.
  destruct (decide (x = 0)%N) as [->|H0]; [simpl; lia|].
  rewrite pretty_N_nonzero by done.
  rewrite pretty_N_go_step by (by apply N.neq_0_lt_0).
  destruct (decide ((x / 10) = 0)%N) as [->|H1].
  { rewrite pretty_N_go_0. simpl. lia. }
  rewrite pretty_N_go_step by (by apply N.neq_0_lt_0).
  destruct (decide ((x / 10 / 10) = 0)%N) as [->|H2].
  { rewrite pretty_N_go_0. simpl. lia. }
  rewrite pretty_N_go_step by (by apply N.neq_0_lt_0).
  assert ((x / 10 / 10 / 10) = 0)%N as ->.
  { rewrite !N.Div0.div_div. by apply N.div_small. }
  rewrite pretty_N_go_0. simpl. lia.
Qed.

Lemma group_thousands_big (x : N) :
  (1000 ≤ x)%N →
  group_thousands (pretty x)
  = group_thousands (pretty (x / 1000)%N) +:+ ","
      +:+ three_digits (x mod 1000)%N.
Proof.
  intros Hx.
  assert ((x / 10 / 10 / 10) = (x / 1000))%N as Hdiv.
  { by rewrite !N.Div0.div_div. }
  assert (0 < (x / 1000))%N as Hy.
  { apply N.div_str_pos. lia. }
  assert (0 < (x / 10 / 10))%N as H2.
  { rewrite N.Div0.div_div. apply N.div_str_pos. lia. }
  assert (0 < (x / 10))%N as H1 by (apply N.div_str_pos; lia).
  rewrite (pretty_N_nonzero x) by lia.
  rewrite (pretty_N_go_step x) by lia.
  rewrite (pretty_N_go_step (x / 10)%N) by done.
  rewrite (pretty_N_go_step (x / 10 / 10)%N) by done.
  rewrite Hdiv, pretty_N_go_app.
  rewrite <-pretty_N_nonzero by (by apply N.neq_0_lt_0).
  assert (three_digits (x mod 1000)%N
          = String (pretty_N_char ((x / 10 / 10) mod 10)%N)
              (String (pretty_N_char ((x / 10) mod 10)%N)
                 (String (pretty_N_char (x mod 10)%N) ""))) as ->.
  { unfold three_digits.
    f_equal; [|f_equal; [|f_equal]]; f_equal;
      zify; Z.to_euclidean_division_equations; lia. }
  set (c2 := pretty_N_char _). set (c1 := pretty_N_char _).
  set (c0 := pretty_N_char _).
  unfold group_thousands. rewrite list_ascii_of_string_app, rev_app_distr.
  simpl rev at 2. simpl.
  destruct (rev (list_ascii_of_string (pretty (x / 1000)%N)))
    as [|d l] eqn:Hrev.
  { apply (f_equal (@length _)) in Hrev. rewrite length_rev in Hrev.
    rewrite pretty_N_nonzero in Hrev by (by apply N.neq_0_lt_0).
    rewrite pretty_N_go_step in Hrev by done.
    rewrite pretty_N_go_app, list_ascii_of_string_app, length_app in Hrev.
    simpl in Hrev. lia. }
  change (c0 :: c1 :: c2 :: ","%char :: group3 (d :: l))
    with ([c0; c1; c2; ","%char] ++ group3 (d :: l)).
  by rewrite rev_app_distr, string_of_list_ascii_app.
Qed.

(** X9: [f"{n:,}"] groups the digits by three from the right.  A
    number from 0 to 999 is printed as [str] prints it; from 1000 on
    the text is that of [n // 1000], a comma, and the three digits of
    [n % 1000] with their leading zeros; a negative number is printed
    as a minus sign before the text of its absolute value. *)
Theorem format_int_comma_groups (n : Z) :
  (0 ≤ n < 1000 → format_int_comma n = py_str n)
  ∧ (1000 ≤ n →
     format_int_comma n
     = format_int_comma (n / 1000) +:+ ","
         +:+ three_digits (Z.to_N (n mod 1000)))
  ∧ (n < 0 → format_int_comma n = "-" +:+ format_int_comma (- n)).
Proof.
  unfold format_int_comma. split_and!.
  - intros [H0 H1]. rewrite (proj2 (Z.ltb_ge n 0)) by done.
    rewrite group_thousands_small by lia.
    destruct n as [|p|p]; [done..|lia].
  - intros Hn. rewrite !(proj2 (Z.ltb_ge _ 0)) by (try apply Z.div_pos; lia).
    rewrite group_thousands_big by lia.
    replace (Z.abs_N n / 1000)%N with (Z.abs_N (n / 1000))
      by (zify; Z.to_euclidean_division_equations; lia).
    replace (Z.abs_N n mod 1000)%N with (Z.to_N (n mod 1000))
      by (zify; Z.to_euclidean_division_equations; lia).
    done.
  - intros Hn. rewrite (proj2 (Z.ltb_lt n 0)) by done.
    rewrite (proj2 (Z.ltb_ge (- n) 0)) by lia.
    replace (Z.abs_N (- n)) with (Z.abs_N n); [done|].
    apply N2Z.inj. rewrite !N2Z.inj_abs_N. lia.
Qed.

Lemma format_int_comma_groups_witness :
  format_int_comma 999 = "999"
  ∧ format_int_comma 1234567 = format_int_comma 1234 +:+ ",567"
  ∧ format_int_comma (-1005) = "-" +:+ format_int_comma 1005.
Proof.
  split; [|split].
  - apply (proj1 (format_int_comma_groups 999)). lia.
  - apply (proj1 (proj2 (format_int_comma_groups 1234567))). lia.
  - apply (proj2 (proj2 (format_int_comma_groups (-1005)))). lia.
Defined.

(** ** Failure and emptiness of the summary *)

Lemma format_change_malformed (change : record) :
  ¬ numeric_delta change →
  format_change change
  = Raise (match change !! "total_experience_diff" with
           | Some VNone => TypeError
           | _ => ValueError
           end).
Proof.
  unfold numeric_delta, format_change.
  destruct (change !! "total_experience_diff") as [[| | |]|]; simpl;
    try done; intros []; eauto.
Qed.

(** X10: one change whose experience difference is not a number
    makes [format_diff] fail as a whole, whatever the other changes
    are: it raises [TypeError] when the first such difference is
    [None] and [ValueError] when it is a string, and no summary of
    the changes before it is returned. *)
Theorem format_diff_malformed (good rest : list record) (bad : record) :
  Forall numeric_delta good →
  ¬ numeric_delta bad →
  format_diff (Some (good ++ bad :: rest))
  = Raise (match bad !! "total_experience_diff" with
           | Some VNone => TypeError
           | _ => ValueError
           end).
Proof.
  intros Hgood Hbad.
  assert (∀ squads timestamps,
            format_changes (good ++ bad :: rest) squads timestamps
            = Raise (match bad !! "total_experience_diff" with
                     | Some VNone => TypeError
                     | _ => ValueError
                     end)) as Hloop.
  { induction Hgood as [|change good Hchange _ IH]; intros squads timestamps.
    - simpl. by rewrite (format_change_malformed _ Hbad).
    - simpl. rewrite (format_change_numeric _ Hchange). simpl. apply IH. }
  unfold format_diff.
  destruct (good ++ bad :: rest) as [|c l] eqn:Hdata.
  { by destruct good. }
  by rewrite Hloop.
Qed.

Lemma format_diff_malformed_witness :
  format_diff (Some [change_X; change_malformed; change_Y])
  = Raise ValueError.
Proof.
  apply (format_diff_malformed [change_X] [change_Y] change_malformed).
  - by_computation.
  - apply (bool_decide_unpack _). vm_compute. exact I.
Defined.

Lemma format_change_line (change : record) (lt : string * value) :
  format_change change = Ok lt → ∃ c s, lt.1 = String c s.
Proof.
  unfold format_change.
  destruct (py_format_comma _) as [points|]; [|done]. simpl.
  intros [= <-]. simpl.
  unfold marker_of. destruct (default _ (change !! "squadron_name")); eauto.
  unfold highlighted_squadrons. simpl. case_decide; simpl; eauto.
Qed.

Lemma format_changes_first (data : list record) :
  ∀ squads timestamps st,
    format_changes data squads timestamps = Ok st →
    (∃ line rest, squads = line :: rest) →
    ∃ rest, st.1 = default "" (head squads) :: rest.
Proof.
  induction data as [|change data IH]; intros squads timestamps st.
  - simpl. intros [= <-] (line & rest & ->). simpl. eauto.
  - simpl. destruct (format_change change) as [lt|]; [|done]. simpl.
    intros Hrest (line & rest & ->).
    apply IH in Hrest as [rest' Hrest]; [|by eexists _, _].
    simpl in *. eauto.
Qed.

Lemma concat_first_nonempty (sep : string) (c : ascii) (s : string)
    (l : list string) :
  String.concat sep (String c s :: l) ≠ "".
Proof. simpl. by destruct l. Qed.

(** X11: a summary that [format_diff] returns is never the empty
    string, so the test [if msg:] of the polling loop fails only for
    an answer that is missing or has no change in it. *)
Theorem format_diff_summary_nonempty (data : option (list record))
    (mt : option string * option value) :
  format_diff data = Ok mt →
  (nonempty_text mt.1 = None ↔ data = None ∨ data = Some [])
  ∧ nonempty_text mt.1 = mt.1.
Proof.
  destruct data as [[|change data]|]; simpl.
  - intros [= <-]. simpl. split; [|done]. split; eauto.
  - destruct (format_change change) as [lt|] eqn:Hchange; [|done]. simpl.
    destruct (format_changes data _ _) as [st|] eqn:Hrest; [|done]. simpl.
    intros [= <-]. simpl.
    apply format_changes_first in Hrest as [rest Hrest]; [|by eexists _, _].
    simpl in Hrest. rewrite Hrest.
    destruct (format_change_line _ _ Hchange) as (c & s & ->).
    assert (String.concat newline (String c s :: rest) ≠ "") as Hne
      by apply concat_first_nonempty.
    destruct (String.concat newline (String c s :: rest)) eqn:Hcat; [done|].
    simpl. split; [|done]. split; [done|]. by intros [|].
  - intros [= <-]. simpl. split; [|done]. split; eauto.
Qed.

Lemma format_diff_summary_nonempty_witness :
  ∃ msg, (default (None, None)
            (match format_diff (Some [change_X]) with
             | Ok mt => Some mt
             | Raise _ => None
             end)).1 = Some msg
         ∧ nonempty_text (Some msg) = Some msg.
Proof.
  set (mt := (Some (line_of change_X), Some (VStr "2024-01-01 12:00:00"))).
  destruct (format_diff_summary_nonempty (Some [change_X]) mt) as [_ Hmsg].
  - vm_compute. reflexivity.
  - exists (line_of change_X). split; [vm_compute; reflexivity|exact Hmsg].
Defined.

(** * Further properties of the polling engine *)

(** [process_server] adds one of four traces to the log. *)
Lemma process_server_served (w : World) (latest : value) (si : server_info)
    (n : nat) (st : cstate) :
  ∃ r evs eff k,
    process_server w latest si n st
    = (r, {| st_db := apply_effect eff (guild_id si) latest (st_db st);
             st_log := st_log st ++ evs |})
    ∧ served w latest si evs eff k
    ∧ (r = Ok (n + k)%nat ∨ (∃ e, r = Raise e) ∧ eff = Keep ∧ k = 0%nat).
Proof.
  destruct st as [db log]. unfold process_server.
  unfold mbind at 1, M_bind, lift. cbv beta iota.
  destruct (py_gt latest (last_action_id si)) as [[|]|e0] eqn:Hgt;
    cbv beta iota.
  2:{ exists (Ok n), [], Keep, 0%nat. simpl. rewrite app_nil_r, Nat.add_0_r.
      split_and!; [done|constructor|by left]. }
  2:{ exists (Raise e0), [], Keep, 0%nat. simpl. rewrite app_nil_r.
      split_and!; [done|constructor|right; eauto]. }
  set (fetch := EvFetchDiff (guild_id si) latest).
  unfold mbind, M_bind, emit, lift. cbv beta iota. simpl st_db. simpl st_log.
  destruct (format_diff (fetch_diff w (guild_id si) latest)) as [mt|e1]
    eqn:Hfmt.
  2:{ exists (Raise e1), [fetch], Keep, 0%nat.
      split_and!; [done|constructor|right; eauto]. }
  cbv beta iota. destruct (nonempty_text mt.1) as [msg|] eqn:Hmsg.
  2:{ exists (Ok n), [fetch], Keep, 0%nat. rewrite Nat.add_0_r.
      split_and!; [done|constructor|by left]. }
  destruct (describe w msg mt.2) as [text|e2] eqn:Htext.
  2:{ exists (Raise e2), [fetch], Keep, 0%nat.
      split_and!; [done|constructor|right; eauto]. }
  cbv beta iota.
  set (e := {| title := "CQC Activity Detected"; description := text |}).
  assert (warranted w latest si e) as Hwar.
  { split_and!; [done..|]. by exists mt, msg. }
  unfold send_update_to_server, mbind, M_bind, emit, modify_db, mret, M_ret.
  cbv beta iota. simpl st_db. simpl st_log.
  assert (∀ eff, eff = dispatch_effect w si e → eff ≠ Advanced →
            served w latest si [fetch; EvDispatch si e] eff 0) as Hfailed.
  { intros eff -> Heff. by constructor. }
  destruct (get_channel w (channel_id si)) eqn:Hch; simpl negb; cbv iota.
  2:{ exists (Ok n), [fetch; EvDispatch si e], Removed, 0%nat.
      rewrite Nat.add_0_r. split_and!; [simpl; by rewrite <-app_assoc| |by left].
      apply Hfailed; [|done]. unfold dispatch_effect. by rewrite Hch. }
  destruct (channel_send w (channel_id si) e) eqn:Hsend; cbv iota beta;
    simpl st_db; simpl st_log.
  - exists (Ok (S n)), [fetch; EvDispatch si e; EvSent si e], Advanced, 1%nat.
    split_and!; [simpl; by rewrite <-!app_assoc| |left; f_equal; lia].
    constructor; [done|]. unfold dispatch_effect. by rewrite Hch, Hsend.
  - exists (Ok n), [fetch; EvDispatch si e], Keep, 0%nat.
    rewrite Nat.add_0_r. split_and!; [simpl; by rewrite <-app_assoc| |by left].
    apply Hfailed; [|done]. unfold dispatch_effect. by rewrite Hch, Hsend.
  - exists (Ok n), [fetch; EvDispatch si e], Removed, 0%nat.
    rewrite Nat.add_0_r. split_and!; [simpl; by rewrite <-app_assoc| |by left].
    apply Hfailed; [|done]. unfold dispatch_effect. by rewrite Hch, Hsend.
  - exists (Ok n), [fetch; EvDispatch si e], Keep, 0%nat.
    rewrite Nat.add_0_r. split_and!; [simpl; by rewrite <-app_assoc| |by left].
    apply Hfailed; [|done]. unfold dispatch_effect. by rewrite Hch, Hsend.
Qed.

(** A relation between the state and the counter that every trace of
    a server in the list preserves holds when the loop ends. *)
Lemma for_servers_preserves (I : cstate → nat → Prop) (w : World)
    (latest : value) (l : list server_info) :
  (∀ si st n evs eff k,
     si ∈ l → I st n → served w latest si evs eff k →
     I {| st_db := apply_effect eff (guild_id si) latest (st_db st);
          st_log := st_log st ++ evs |} (n + k)%nat) →
  ∀ n st r st',
    I st n → for_servers w latest l n st = (r, st') →
    ∃ n', I st' n' ∧ (r = Ok n' ∨ ∃ e, r = Raise e).
Proof.
  induction l as [|si l IH]; intros Hstep n st r st' Hst.
  - intros [= <- <-]. eauto.
  - rewrite for_servers_cons.
    destruct (process_server_served w latest si n st)
      as (r0 & evs & eff & k & -> & Hserved & Hr0).
    pose proof (Hstep si st n evs eff k (list_elem_of_here _ _) Hst Hserved)
      as Hnext.
    destruct Hr0 as [->|[[e ->] [_ ->]]].
    + apply IH; [|done]. intros si' ??????. apply Hstep. by right.
    + intros [= <- <-]. rewrite Nat.add_0_r in Hnext. eauto.
Qed.

Lemma replay_app (w : World) (latest : value) (db : servers)
    (log evs : list event) :
  replay w latest db (log ++ evs) = replay w latest (replay w latest db log) evs.
Proof. unfold replay. by rewrite foldl_app. Qed.

Lemma replay_served (w : World) (latest : value) (si : server_info)
    (evs : list event) (eff : effect) (k : nat) (db : servers) :
  served w latest si evs eff k →
  replay w latest db evs = apply_effect eff (guild_id si) latest db.
Proof.
  intros [| |e _ Heff|e _ Heff]; unfold replay; simpl; try done.
  - by destruct (dispatch_effect w si e).
  - by rewrite Heff.
Qed.

Lemma sent_count_app (log evs : list event) :
  sent_count (log ++ evs) = (sent_count log + sent_count evs)%nat.
Proof. unfold sent_count. by rewrite filter_app, length_app. Qed.

Lemma sent_count_served (w : World) (latest : value) (si : server_info)
    (evs : list event) (eff : effect) (k : nat) :
  served w latest si evs eff k → sent_count evs = k.
Proof. by intros []. Qed.

(** A cycle that did not run the loop over the servers did nothing
    and does not end as completed. *)
Lemma monitoring_cycle_outcomes (w : World) (db : servers) (st : cstate)
    (o : cycle_outcome) :
  monitoring_cycle w db = (st, o) →
  (st = initial_state db ∧ ∀ m, o ≠ Completed m)
  ∨ ∃ head rest latest l r,
      fetch_leaderboard w = Some (head :: rest)
      ∧ head !! "action_id" = Some latest
      ∧ get_active_servers db = Ok l
      ∧ for_servers w latest l 0 (initial_state db) = (r, st)
      ∧ o = outcome_of r.
Proof.
  unfold monitoring_cycle, cycle_body.
  destruct (fetch_leaderboard w) as [[|head rest]|] eqn:Hlb;
    try (intros [= <- <-]; by left).
  unfold mbind at 1, M_bind, lift. cbv beta iota.
  destruct (head !! "action_id") as [latest|] eqn:Hhead;
    [|intros [= <- <-]; by left].
  unfold mbind at 1, M_bind, read_db. cbv beta iota. simpl st_db.
  destruct (get_active_servers db) as [[|si l]|e] eqn:Hact;
    try (intros [= <- <-]; by left).
  unfold mbind, M_bind, mret, M_ret.
  destruct (for_servers w latest (si :: l) 0 (initial_state db))
    as [r st0] eqn:Hloop.
  intros Hcycle. right. exists head, rest, latest, (si :: l), r.
  split_and!; try done; destruct r; by injection Hcycle as <- <-.
Qed.

(** The loop of a cycle, with an invariant: the form in which the
    theorems below use [for_servers_preserves]. *)
Lemma monitoring_cycle_preserves (I : cstate → nat → Prop) (w : World)
    (db : servers) (st : cstate) (o : cycle_outcome) :
  monitoring_cycle w db = (st, o) →
  I (initial_state db) 0%nat →
  (∀ head rest latest l,
     fetch_leaderboard w = Some (head :: rest) →
     head !! "action_id" = Some latest →
     get_active_servers db = Ok l →
     ∀ si st n evs eff k,
       si ∈ l → I st n → served w latest si evs eff k →
       I {| st_db := apply_effect eff (guild_id si) latest (st_db st);
            st_log := st_log st ++ evs |} (n + k)%nat) →
  ∃ n, I st n ∧ ∀ m, o = Completed m → m = n.
Proof.
  intros Hcycle Hinit Hstep.
  apply monitoring_cycle_outcomes in Hcycle
    as [[-> Ho]|(head & rest & latest & l & r & Hlb & Hhead & Hact & Hloop & ->)].
  - exists 0%nat. split; [done|]. intros m Hm. by destruct (Ho m).
  - apply (for_servers_preserves I w latest l
             (Hstep head rest latest l Hlb Hhead Hact)
             0%nat (initial_state db) r st Hinit) in Hloop
      as (n & Hn & Hr).
    exists n. split; [done|]. intros m.
    destruct Hr as [->|[e ->]]; simpl; [by intros [= ->]|done].
Qed.

Lemma served_dispatch (w : World) (latest : value) (si si' : server_info)
    (evs : list event) (eff : effect) (k : nat) (e : embed) :
  served w latest si evs eff k → EvDispatch si' e ∈ evs →
  si' = si ∧ warranted w latest si e.
Proof.
  intros [| |e0 Hwar _|e0 Hwar _] Hin.
  - by apply elem_of_nil in Hin.
  - by apply elem_of_1 in Hin.
  - apply elem_of_cons in Hin as [Hin|Hin%elem_of_1]; [done|].
    by injection Hin as -> ->.
  - apply elem_of_cons in Hin as [Hin|[Hin|Hin%elem_of_1]%elem_of_cons];
      try done.
    by injection Hin as -> ->.
Qed.

Lemma served_sent_event (w : World) (latest : value) (si si' : server_info)
    (evs : list event) (eff : effect) (k : nat) (e : embed) :
  served w latest si evs eff k → EvSent si' e ∈ evs →
  EvDispatch si' e ∈ evs ∧ dispatch_effect w si' e = Advanced.
Proof.
  intros [| |e0 _ _|e0 _ Heff] Hin.
  - by apply elem_of_nil in Hin.
  - by apply elem_of_1 in Hin.
  - apply elem_of_cons in Hin as [Hin|Hin%elem_of_1]; done.
  - apply elem_of_cons in Hin as [Hin|[Hin|Hin%elem_of_1]%elem_of_cons];
      try done.
    injection Hin as -> ->. split; [|done]. right. by left.
Qed.

(** What the log of the loop tells, when the loop starts with an
    empty log. *)
Lemma for_servers_log (w : World) (latest : value) (l : list server_info)
    (db : servers) (r : result nat) (st : cstate) :
  for_servers w latest l 0 (initial_state db) = (r, st) →
  (∀ si e, EvDispatch si e ∈ st_log st → si ∈ l ∧ warranted w latest si e)
  ∧ (∀ si e, EvSent si e ∈ st_log st →
       EvDispatch si e ∈ st_log st ∧ dispatch_effect w si e = Advanced)
  ∧ st_db st = replay w latest db (st_log st)
  ∧ (∀ m, r = Ok m → m = sent_count (st_log st)).
Proof.
  intros Hloop.
  apply (for_servers_preserves
           (λ st n,
              (∀ si e, EvDispatch si e ∈ st_log st →
                       si ∈ l ∧ warranted w latest si e)
              ∧ (∀ si e, EvSent si e ∈ st_log st →
                   EvDispatch si e ∈ st_log st
                   ∧ dispatch_effect w si e = Advanced)
              ∧ st_db st = replay w latest db (st_log st)
              ∧ n = sent_count (st_log st))) in Hloop
    as (n & (H1 & H2 & H3 & H4) & Hr).
  - split_and!; [done..|]. intros m ->.
    destruct Hr as [[= ->]|[e [=]]]. done.
  - intros si st0 n evs eff k Hsi (H1 & H2 & H3 & H4) Hserved. simpl.
    split_and!.
    + intros si' e [Hin|Hin]%elem_of_app; [by apply H1|].
      destruct (served_dispatch _ _ _ _ _ _ _ _ Hserved Hin) as [-> Hwar].
      done.
    + intros si' e [Hin|Hin]%elem_of_app.
      * destruct (H2 _ _ Hin) as [Hd Heff]. split; [|done].
        apply elem_of_app. by left.
      * destruct (served_sent_event _ _ _ _ _ _ _ _ Hserved Hin)
          as [Hd Heff].
        split; [|done]. apply elem_of_app. by right.
    + rewrite replay_app, <-H3. symmetry. by eapply replay_served.
    + rewrite sent_count_app, (sent_count_served _ _ _ _ _ _ Hserved). lia.
  - simpl. split_and!; try done; intros ?? Hin; by apply elem_of_nil in Hin.
Qed.

(** X12: the store after a cycle is the store before it with the
    changes the log stands for applied in order: [remove_server] for
    each dispatch that found the channel gone,
    [update_last_action_id] to the head for each message sent, and
    nothing else. *)
Theorem cycle_replays_log (w : World) (db : servers) (st : cstate)
    (o : cycle_outcome) :
  monitoring_cycle w db = (st, o) →
  (st_log st = [] ∧ st_db st = db)
  ∨ ∃ head rest latest,
      fetch_leaderboard w = Some (head :: rest)
      ∧ head !! "action_id" = Some latest
      ∧ st_db st = replay w latest db (st_log st).
Proof.
  intros Hcycle.
  apply monitoring_cycle_outcomes in Hcycle
    as [[-> _]|(head & rest & latest & l & r & Hlb & Hhead & _ & Hloop & _)].
  - by left.
  - right. exists head, rest, latest. split_and!; [done..|].
    by apply for_servers_log in Hloop as (_ & _ & ? & _).
Qed.

Lemma cycle_replays_log_witness :
  st_db (monitoring_cycle world_42 store_456).1
  = replay world_42 (VInt 42) store_456
      (st_log (monitoring_cycle world_42 store_456).1).
Proof.
  destruct (cycle_replays_log world_42 store_456
              (monitoring_cycle world_42 store_456).1
              (monitoring_cycle world_42 store_456).2)
    as [[Hlog _]|(head & rest & latest & Hlb & Hhead & Hdb)].
  - apply surjective_pairing.
  - vm_compute in Hlog. discriminate Hlog.
  - injection Hlb as <- <-. injection Hhead as <-. exact Hdb.
Defined.

(** X13: the number of updates a completed cycle reports is the
    number of messages [channel.send] posted during the cycle. *)
Theorem updates_sent_counts_messages (w : World) (db : servers)
    (st : cstate) (n : nat) :
  monitoring_cycle w db = (st, Completed n) →
  n = sent_count (st_log st).
Proof.
  intros Hcycle.
  apply monitoring_cycle_outcomes in Hcycle
    as [[_ Ho]|(head & rest & latest & l & r & _ & _ & _ & Hloop & Ho)].
  - by destruct (Ho n).
  - apply for_servers_log in Hloop as (_ & _ & _ & Hn).
    apply Hn. destruct r as [m|e]; [by injection Ho as ->|done].
Qed.

Lemma updates_sent_counts_messages_witness :
  sent_count (st_log (monitoring_cycle world_42 store_89_at_40).1) = 1%nat.
Proof.
  symmetry.
  apply (updates_sent_counts_messages world_42 store_89_at_40).
  vm_compute. reflexivity.
Defined.

Lemma dispatch_effect_Advanced (w : World) (si : server_info) (e : embed) :
  dispatch_effect w si e = Advanced ↔
  get_channel w (channel_id si) = true
  ∧ channel_send w (channel_id si) e = SendOk.
Proof.
  unfold dispatch_effect.
  destruct (get_channel w (channel_id si)); simpl.
  - destruct (channel_send w (channel_id si) e);
      (split; [by intros ?|by intros [_ ?]]).
  - split; [done|by intros [? _]].
Qed.

(** The facts about a cycle that ran the loop, gathered. *)
Lemma monitoring_cycle_log (w : World) (db : servers) (st : cstate)
    (o : cycle_outcome) (ev : event) :
  monitoring_cycle w db = (st, o) → ev ∈ st_log st →
  ∃ head rest latest l r,
    fetch_leaderboard w = Some (head :: rest)
    ∧ head !! "action_id" = Some latest
    ∧ get_active_servers db = Ok l
    ∧ for_servers w latest l 0 (initial_state db) = (r, st)
    ∧ (∀ si e, EvDispatch si e ∈ st_log st → si ∈ l ∧ warranted w latest si e)
    ∧ (∀ si e, EvSent si e ∈ st_log st →
         EvDispatch si e ∈ st_log st ∧ dispatch_effect w si e = Advanced).
Proof.
  intros Hcycle Hev.
  apply monitoring_cycle_outcomes in Hcycle
    as [[-> _]|(head & rest & latest & l & r & Hlb & Hhead & Hact & Hloop & _)].
  { by apply elem_of_nil in Hev. }
  exists head, rest, latest, l, r.
  pose proof (for_servers_log _ _ _ _ _ _ Hloop) as (H1 & H2 & _).
  by split_and!.
Qed.

(** X14: a cycle dispatches only to a guild that had an entry
    counting as enabled when the cycle started, only when the head of
    the leaderboard is newer than the cursor of that entry, and what
    it dispatches is the embed built from the diff fetched for that
    guild.  A guild that is disabled or has no entry is never sent
    anything. *)
Theorem dispatch_is_warranted (w : World) (db : servers) (st : cstate)
    (o : cycle_outcome) (si : server_info) (e : embed) :
  store_wf db →
  monitoring_cycle w db = (st, o) →
  EvDispatch si e ∈ st_log st →
  ∃ head rest latest cfg,
    fetch_leaderboard w = Some (head :: rest)
    ∧ head !! "action_id" = Some latest
    ∧ dict_get (py_str (guild_id si)) db = Some cfg
    ∧ is_enabled cfg = true
    ∧ active_entry (py_str (guild_id si)) cfg = Ok si
    ∧ py_gt latest (cursor_of cfg) = Ok true
    ∧ warranted w latest si e.
Proof.
  intros Hwf Hcycle Hin.
  destruct (monitoring_cycle_log _ _ _ _ _ Hcycle Hin)
    as (head & rest & latest & l & r & Hlb & Hhead & Hact & _ & Hdisp & _).
  destruct (Hdisp _ _ Hin) as [Hsi Hwar].
  destruct (get_active_servers_elem _ _ _ Hwf Hact Hsi)
    as (cfg & Hcfg & Hen & Hentry).
  exists head, rest, latest, cfg. split_and!; try done.
  apply active_entry_Ok in Hentry as (_ & _ & <-). apply Hwar.
Qed.

Lemma dispatch_is_warranted_witness :
  ∃ head rest latest cfg,
    fetch_leaderboard world_42 = Some (head :: rest)
    ∧ head !! "action_id" = Some latest
    ∧ dict_get (py_str 5) store_456 = Some cfg
    ∧ is_enabled cfg = true
    ∧ active_entry (py_str 5) cfg = Ok (server_of 5 50 "GuildE")
    ∧ py_gt latest (cursor_of cfg) = Ok true
    ∧ warranted world_42 latest (server_of 5 50 "GuildE") embed_X.
Proof.
  apply (dispatch_is_warranted world_42 store_456
           (monitoring_cycle world_42 store_456).1
           (monitoring_cycle world_42 store_456).2
           (server_of 5 50 "GuildE") embed_X).
  - by_computation.
  - apply surjective_pairing.
  - by_computation.
Defined.

(** The entry of a guild a message was sent to. *)
Lemma cycle_sent_entry (w : World) (db : servers) (st : cstate)
    (o : cycle_outcome) (si : server_info) (e : embed) :
  store_wf db →
  monitoring_cycle w db = (st, o) →
  EvSent si e ∈ st_log st →
  ∃ head rest latest cfg,
    fetch_leaderboard w = Some (head :: rest)
    ∧ head !! "action_id" = Some latest
    ∧ dict_get (py_str (guild_id si)) db = Some cfg
    ∧ dict_get (py_str (guild_id si)) (st_db st)
      = Some (<["last_action_id" := latest]> cfg)
    ∧ dispatch_effect w si e = Advanced.
Proof.
  intros Hwf Hcycle Hin.
  destruct (monitoring_cycle_log _ _ _ _ _ Hcycle Hin)
    as (head & rest & latest & l & r & Hlb & Hhead & Hact & Hloop
        & Hdisp & Hsent).
  destruct (Hsent _ _ Hin) as [Hd Heff].
  destruct (Hdisp _ _ Hd) as [Hsi _].
  destruct (get_active_servers_elem _ _ _ Hwf Hact Hsi)
    as (cfg & Hcfg & _ & _).
  pose proof (active_guilds_NoDup _ _ Hwf Hact) as Hnd.
  eapply for_servers_dispatched in Hloop
    as (_ & db1 & _ & Hdb1 & Hfin); [|done|by constructor|done|done].
  exists head, rest, latest, cfg. split_and!; try done.
  rewrite Hfin, Heff. simpl. simpl in Hdb1. rewrite Hcfg in Hdb1.
  unfold update_last_action_id. rewrite Hdb1. apply dict_get_set_eq.
Qed.

(** X15: when a cycle has sent a message to a server, the channel
    was found and [channel.send] returned, and after the cycle the
    entry of the guild is the entry it had before with
    ['last_action_id'] set to the head of the leaderboard. *)
Theorem sent_advances_cursor (w : World) (db : servers) (st : cstate)
    (o : cycle_outcome) (si : server_info) (e : embed) :
  store_wf db →
  monitoring_cycle w db = (st, o) →
  EvSent si e ∈ st_log st →
  ∃ head rest latest cfg,
    fetch_leaderboard w = Some (head :: rest)
    ∧ head !! "action_id" = Some latest
    ∧ dict_get (py_str (guild_id si)) db = Some cfg
    ∧ dict_get (py_str (guild_id si)) (st_db st)
      = Some (<["last_action_id" := latest]> cfg)
    ∧ cursor (guild_id si) (st_db st) = Some latest
    ∧ get_channel w (channel_id si) = true
    ∧ channel_send w (channel_id si) e = SendOk.
Proof.
  intros Hwf Hcycle Hin.
  destruct (cycle_sent_entry _ _ _ _ _ _ Hwf Hcycle Hin)
    as (head & rest & latest & cfg & Hlb & Hhead & Hcfg & Hfin & Heff).
  apply dispatch_effect_Advanced in Heff as [Hch Hsend].
  exists head, rest, latest, cfg. split_and!; try done.
  unfold cursor, cursor_of. rewrite Hfin. simpl. by rewrite lookup_insert_eq.
Qed.

Lemma sent_advances_cursor_witness :
  ∃ head rest latest cfg,
    fetch_leaderboard world_42 = Some (head :: rest)
    ∧ head !! "action_id" = Some latest
    ∧ dict_get (py_str 9) store_89_at_40 = Some cfg
    ∧ dict_get (py_str 9) (st_db (monitoring_cycle world_42 store_89_at_40).1)
      = Some (<["last_action_id" := latest]> cfg)
    ∧ cursor 9 (st_db (monitoring_cycle world_42 store_89_at_40).1)
      = Some latest
    ∧ get_channel world_42 (VInt 90) = true
    ∧ channel_send world_42 (VInt 90) embed_X = SendOk.
Proof.
  apply (sent_advances_cursor world_42 store_89_at_40
           (monitoring_cycle world_42 store_89_at_40).1
           (monitoring_cycle world_42 store_89_at_40).2
           (with_cursor (VInt 40) (server_of 9 90 "GuildI")) embed_X).
  - by_computation.
  - apply surjective_pairing.
  - by_computation.
Defined.

Lemma dispatched_guilds_served (w : World) (latest : value)
    (si : server_info) (evs : list event) (eff : effect) (k : nat) :
  served w latest si evs eff k →
  dispatched_guilds evs `sublist_of` [guild_id si].
Proof.
  intros []; unfold dispatched_guilds; simpl;
    try done; by apply sublist_cons.
Qed.

Lemma for_servers_dispatch_order (w : World) (latest : value)
    (l : list server_info) :
  ∀ n st r st',
    for_servers w latest l n st = (r, st') →
    ∃ evs, st_log st' = st_log st ++ evs
           ∧ dispatched_guilds evs `sublist_of` (guild_id <$> l).
Proof.
  induction l as [|si l IH]; intros n st r st'.
  - intros [= _ <-]. exists []. by rewrite app_nil_r.
  - rewrite for_servers_cons.
    destruct (process_server_served w latest si n st)
      as (r0 & evs & eff & k & -> & Hserved & Hr0).
    apply dispatched_guilds_served in Hserved.
    destruct Hr0 as [->|[[e ->] _]].
    + intros (evs' & Hlog & Hsub)%IH. simpl in Hlog.
      exists (evs ++ evs'). rewrite Hlog, <-app_assoc. split; [done|].
      unfold dispatched_guilds in *. rewrite omap_app.
      by apply (sublist_app _ [guild_id si]).
    + intros [= _ <-]. exists evs. split; [done|].
      csimpl. etrans; [done|]. apply sublist_skip, sublist_nil_l.
Qed.

(** X16: in one cycle the servers are dispatched to in the order in
    which [get_active_servers] lists them, and no guild is dispatched
    to twice. *)
Theorem one_dispatch_per_guild (w : World) (db : servers) (st : cstate)
    (o : cycle_outcome) :
  store_wf db →
  monitoring_cycle w db = (st, o) →
  NoDup (dispatched_guilds (st_log st))
  ∧ ∀ l, get_active_servers db = Ok l →
         dispatched_guilds (st_log st) `sublist_of` (guild_id <$> l).
Proof.
  intros Hwf Hcycle.
  apply monitoring_cycle_outcomes in Hcycle
    as [[-> _]|(head & rest & latest & l & r & _ & _ & Hact & Hloop & _)].
  { split; [constructor|]. intros l _. apply sublist_nil_l. }
  apply for_servers_dispatch_order in Hloop as (evs & Hlog & Hsub).
  simpl in Hlog. rewrite Hlog.
  split.
  - eapply sublist_NoDup; [|done]. by eapply active_guilds_NoDup.
  - intros l' Hl'. rewrite Hact in Hl'. by injection Hl' as <-.
Qed.

Lemma one_dispatch_per_guild_witness :
  NoDup (dispatched_guilds (st_log (monitoring_cycle world_42 store_456).1)).
Proof.
  refine (proj1 (one_dispatch_per_guild world_42 store_456
                   (monitoring_cycle world_42 store_456).1
                   (monitoring_cycle world_42 store_456).2 _ _)).
  - by_computation.
  - apply surjective_pairing.
Defined.

Lemma replay_cons (w : World) (latest : value) (db : servers) (ev : event)
    (log : list event) :
  replay w latest db (ev :: log)
  = replay w latest
      (apply_effect (event_effect w ev) (event_guild ev) latest db) log.
Proof. done. Qed.

Lemma replay_frame (w : World) (latest : value) (g : Z) (log : list event) :
  ∀ db,
    (∀ ev, ev ∈ log → event_guild ev = g → event_effect w ev = Keep) →
    dict_get (py_str g) (replay w latest db log) = dict_get (py_str g) db.
Proof.
  induction log as [|ev log IH]; intros db Hlog; [done|].
  rewrite replay_cons.
  rewrite IH by (intros ev' Hin; apply Hlog; by right).
  destruct (decide (event_guild ev = g)) as [Hg|Hg].
  - by rewrite (Hlog ev (list_elem_of_here _ _) Hg).
  - by apply apply_effect_frame.
Qed.

(** X17: when the diff request made for a guild fails or comes back
    empty, nothing is dispatched to the guild in that cycle and its
    entry in the store stays as it is, cursor included, so that the
    guild is tried again in the next cycle. *)
Theorem empty_diff_leaves_server (w : World) (db : servers) (st : cstate)
    (o : cycle_outcome) (head : record) (rest : list record)
    (latest : value) (g : Z) :
  monitoring_cycle w db = (st, o) →
  fetch_leaderboard w = Some (head :: rest) →
  head !! "action_id" = Some latest →
  fetch_diff w g latest = None ∨ fetch_diff w g latest = Some [] →
  (∀ si e, guild_id si = g → EvDispatch si e ∉ st_log st)
  ∧ dict_get (py_str g) (st_db st) = dict_get (py_str g) db.
Proof.
  intros Hcycle Hlb Hhead Hdiff.
  apply monitoring_cycle_outcomes in Hcycle
    as [[-> _]|(head' & rest' & latest' & l & r & Hlb' & Hhead' & _ & Hloop & _)].
  { split; [|done]. intros ??? Hin. by apply elem_of_nil in Hin. }
  rewrite Hlb in Hlb'. injection Hlb' as <- <-.
  rewrite Hhead in Hhead'. injection Hhead' as <-.
  apply for_servers_log in Hloop as (Hdisp & Hsent & Hdb & _).
  assert (∀ si e, guild_id si = g → EvDispatch si e ∉ st_log st) as Hnone.
  { intros si e Hg Hin.
    destruct (Hdisp _ _ Hin) as [_ (_ & _ & mt & msg & Hfmt & Hmsg & _)].
    rewrite Hg in Hfmt.
    destruct Hdiff as [Hd|Hd]; rewrite Hd in Hfmt; simpl in Hfmt;
      injection Hfmt as <-; done. }
  split; [done|]. rewrite Hdb. apply replay_frame.
  intros [g' a|si e|si e] Hin Hg; simpl in *; [done| |].
  - by destruct (Hnone _ _ Hg Hin).
  - destruct (Hsent _ _ Hin) as [Hd _]. by destruct (Hnone _ _ Hg Hd).
Qed.

Lemma empty_diff_leaves_server_witness :
  cursor 8 (st_db (monitoring_cycle world_42 store_89_at_40).1)
  = Some (VInt 40).
Proof.
  destruct (empty_diff_leaves_server world_42 store_89_at_40
              (monitoring_cycle world_42 store_89_at_40).1
              (monitoring_cycle world_42 store_89_at_40).2
              {[ "action_id" := VInt 42 ]} [] (VInt 42) 8)
    as [_ Hdb].
  - apply surjective_pairing.
  - reflexivity.
  - reflexivity.
  - right. reflexivity.
  - unfold cursor. rewrite Hdb. vm_compute. reflexivity.
Defined.



Lemma served_Advanced (w : World) (latest : value) (si : server_info)
    (evs : list event) (k : nat) :
  served w latest si evs Advanced k →
  py_gt latest (last_action_id si) = Ok true.
Proof.
  inversion 1 as [| |e Hwar Heff Hevs Heq|e Hwar Heff]; subst.
  - by destruct Heff.
  - apply Hwar.
Qed.

(** X19: with integers for the head [h] and for the cursor [c] of a
    guild, a cycle never moves the cursor back: after the cycle the
    guild has no entry, or its cursor is still [c], or its cursor is
    [h] and [h] is greater than [c]. *)
Theorem cycle_cursor_monotone (w : World) (db : servers) (st : cstate)
    (o : cycle_outcome) (head : record) (rest : list record) (h c : Z)
    (g : Z) :
  store_wf db →
  monitoring_cycle w db = (st, o) →
  fetch_leaderboard w = Some (head :: rest) →
  head !! "action_id" = Some (VInt h) →
  cursor g db = Some (VInt c) →
  cursor g (st_db st) = None
  ∨ cursor g (st_db st) = Some (VInt c)
  ∨ cursor g (st_db st) = Some (VInt h) ∧ c < h.
Proof.
  intros Hwf Hcycle Hlb Hhead Hcur.
  apply monitoring_cycle_outcomes in Hcycle
    as [[-> _]|(head' & rest' & latest & l & r & Hlb' & Hhead' & Hact & Hloop & _)].
  { right. by left. }
  rewrite Hlb in Hlb'. injection Hlb' as <- <-.
  rewrite Hhead in Hhead'. injection Hhead' as <-.
  apply (for_servers_preserves
           (λ st _,
              store_wf (st_db st)
              ∧ (cursor g (st_db st) = None
                 ∨ cursor g (st_db st) = Some (VInt c)
                 ∨ cursor g (st_db st) = Some (VInt h) ∧ c < h))) in Hloop
    as (_ & [_ Hfin] & _); [done| |].
  - intros si st0 n evs eff k Hsi [Hwf0 Hcur0] Hserved. simpl.
    split; [by apply apply_effect_wf|].
    destruct (decide (guild_id si = g)) as [Hg|Hg].
    2:{ unfold cursor in *. by rewrite apply_effect_frame. }
    destruct eff; simpl; [done| |].
    + left. unfold cursor. by rewrite Hg, dict_get_remove_server.
    + apply served_Advanced in Hserved as Hgt.
      destruct (get_active_servers_elem _ _ _ Hwf Hact Hsi)
        as (cfg & Hcfg & _ & Hentry).
      apply active_entry_Ok in Hentry as (_ & _ & Hlast).
      unfold cursor in Hcur. rewrite <-Hg, Hcfg in Hcur.
      injection Hcur as Hc. rewrite Hlast, Hc in Hgt. simpl in Hgt.
      injection Hgt as Hgt. apply Z.ltb_lt in Hgt.
      unfold update_last_action_id, cursor in *. rewrite Hg in *.
      destruct (dict_get (py_str g) (st_db st0)) as [cfg0|] eqn:Hcfg0.
      * right. right. rewrite dict_get_set_eq. simpl. split; [|done].
        unfold cursor_of. by rewrite lookup_insert_eq.
      * rewrite Hcfg0. by left.
  - simpl. split; [done|]. right. by left.
Qed.

Lemma cycle_cursor_monotone_witness :
  cursor 9 (st_db (monitoring_cycle world_42 store_89_at_40).1) = None
  ∨ cursor 9 (st_db (monitoring_cycle world_42 store_89_at_40).1)
    = Some (VInt 40)
  ∨ cursor 9 (st_db (monitoring_cycle world_42 store_89_at_40).1)
    = Some (VInt 42) ∧ 40 < 42.
Proof.
  apply (cycle_cursor_monotone world_42 store_89_at_40
           (monitoring_cycle world_42 store_89_at_40).1
           (monitoring_cycle world_42 store_89_at_40).2
           {[ "action_id" := VInt 42 ]} [] 42 40 9).
  - by_computation.
  - apply surjective_pairing.
  - reflexivity.
  - reflexivity.
  - vm_compute. reflexivity.
Defined.

Lemma get_active_servers_missing_channel (db : servers) :
  Forall canonical_key (dict_keys db) →
  (∃ k cfg, (k, cfg) ∈ db ∧ is_enabled cfg = true
            ∧ cfg !! "channel_id" = None) →
  get_active_servers db = Raise (KeyError "channel_id").
Proof.
  unfold dict_keys. induction db as [|[k cfg] db IH]; csimpl.
  - intros _ (k & cfg & Hin & _). by apply elem_of_nil in Hin.
  - intros [Hk Hdb]%Forall_cons (k' & cfg' & Hin & Hen' & Hch').
    unfold canonical_key in Hk. unfold active_entry.
    destruct (py_int k) as [g|]; [|done].
    destruct (is_enabled cfg) eqn:Hen.
    + simpl. destruct (cfg !! "channel_id") as [ch|] eqn:Hch; [|done].
      simpl. apply elem_of_cons in Hin as [[= -> ->]|Hin]; [congruence|].
      rewrite IH; [done..|]. eauto.
    + apply elem_of_cons in Hin as [[= -> ->]|Hin]; [congruence|].
      apply IH; [done|]. eauto.
Qed.

(** X20: one entry that counts as enabled and has no ['channel_id']
    stops every cycle that gets a head from the leaderboard: listing
    the servers raises [KeyError], the handler of the cycle catches
    it, and no server at all is served. *)
Theorem unlistable_store_aborts_cycle (w : World) (db : servers)
    (head : record) (rest : list record) (latest : value)
    (k : string) (cfg : config) :
  Forall canonical_key (dict_keys db) →
  (k, cfg) ∈ db →
  is_enabled cfg = true →
  cfg !! "channel_id" = None →
  fetch_leaderboard w = Some (head :: rest) →
  head !! "action_id" = Some latest →
  monitoring_cycle w db = (initial_state db, Aborted (KeyError "channel_id")).
Proof.
  intros Hkeys Hin Hen Hch Hlb Hhead.
  unfold monitoring_cycle, cycle_body. rewrite Hlb.
  unfold mbind at 1, M_bind, lift. cbv beta iota. rewrite Hhead.
  unfold mbind at 1, M_bind, read_db. cbv beta iota. simpl st_db.
  rewrite get_active_servers_missing_channel; [done..|]. eauto.
Qed.

Lemma unlistable_store_aborts_cycle_witness :
  monitoring_cycle world_42 corrupt_store
  = (initial_state corrupt_store, Aborted (KeyError "channel_id")).
Proof.
  apply (unlistable_store_aborts_cycle world_42 corrupt_store
           {[ "action_id" := VInt 42 ]} [] (VInt 42)
           "2" {[ "enabled" := VBool true ]}).
  - by_computation.
  - right. right. left.
  - vm_compute. reflexivity.
  - vm_compute. reflexivity.
  - reflexivity.
  - reflexivity.
Defined.

(** * Properties of the front end *)

(** ** Joining and leaving a guild *)

Lemma suitable_step_cases (acc : list text_channel) (channel : text_channel) :
  (is_front channel ∧ ¬ is_back channel
   ∧ suitable_step acc channel = channel :: acc)
  ∨ (is_back channel ∧ ¬ is_front channel
     ∧ suitable_step acc channel = acc ++ [channel])
  ∨ (¬ is_front channel ∧ ¬ is_back channel
     ∧ suitable_step acc channel = acc).
Proof.
  assert (any_keyword ["spam"; "log"] (py_lower (tc_name channel))
          = contains "spam" (py_lower (tc_name channel))
            || contains "log" (py_lower (tc_name channel))) as Hspam.
  { unfold any_keyword. simpl. by rewrite orb_false_r. }
  unfold suitable_step, is_front, is_back. cbv zeta. rewrite !Hspam.
  destruct (tc_can_send channel).
  2:{ right. right. split_and!; [by intros [? _]|by intros [? _]|done]. }
  destruct (any_keyword ["elite"; "cqc"; "bot"; "gaming"] _) eqn:Hfront.
  { left. split_and!; [done..| |done]. by intros (_ & ? & _). }
  destruct (any_keyword ["general"; "main"; "chat"] _) eqn:Hgeneral.
  { right. left. split_and!; [done|done|by left|by intros [_ ?]|done]. }
  destruct (contains "spam" _), (contains "log" _); simpl.
  - right. right. split_and!; [by intros [_ ?]| |done].
    by intros (_ & _ & [?|?]).
  - right. right. split_and!; [by intros [_ ?]| |done].
    by intros (_ & _ & [?|?]).
  - right. right. split_and!; [by intros [_ ?]| |done].
    by intros (_ & _ & [?|?]).
  - right. left. split_and!; [done|done|by right|by intros [_ ?]|done].
Qed.

Lemma suitable_fold (channels acc : list text_channel) :
  foldl suitable_step acc channels
  = reverse (filter is_front channels) ++ acc ++ filter is_back channels.
Proof.
  revert acc. induction channels as [|channel channels IH]; intros acc.
  - simpl. by rewrite app_nil_r.
  - simpl. rewrite IH, !filter_cons.
    destruct (suitable_step_cases acc channel)
      as [(Hf & Hb & ->)|[(Hb & Hf & ->)|(Hf & Hb & ->)]].
    + rewrite decide_True, decide_False by done.
      by rewrite reverse_cons, <-app_assoc.
    + rewrite decide_False, decide_True by done.
      by rewrite <-!app_assoc.
    + by rewrite !decide_False by done.
Qed.

(** X21: the channels [on_guild_join] considers are, first, the
    channels the bot may post in whose name has one of the keywords
    elite, cqc, bot, gaming, in the reverse of the order of the
    guild, and then the other channels it may post in whose name has
    one of general, main, chat or has neither spam nor log, in the
    order of the guild.  So the channel chosen is the last keyword
    channel of the guild when there is one, and otherwise the first
    of the others. *)
Theorem suitable_channels_order (g : guild) :
  suitable_channels g
  = reverse (filter is_front (text_channels g))
      ++ filter is_back (text_channels g)
  ∧ head (suitable_channels g)
    = match last (filter is_front (text_channels g)) with
      | Some channel => Some channel
      | None => head (filter is_back (text_channels g))
      end.
Proof.
  assert (suitable_channels g
          = reverse (filter is_front (text_channels g))
              ++ filter is_back (text_channels g)) as Heq.
  { unfold suitable_channels. by rewrite suitable_fold. }
  split; [done|]. rewrite Heq.
  destruct (filter is_front (text_channels g)) as [|c l] using rev_ind.
  - done.
  - rewrite reverse_app, last_snoc. done.
Qed.

Lemma suitable_channels_elem (g : guild) (channel : text_channel) :
  channel ∈ suitable_channels g ↔
  channel ∈ text_channels g ∧ (is_front channel ∨ is_back channel).
Proof.
  unfold suitable_channels. rewrite suitable_fold. simpl.
  rewrite elem_of_app, elem_of_reverse, !list_elem_of_filter. tauto.
Qed.

(** X22: [on_guild_join] registers the guild only to one of its own
    text channels in which the bot may send messages; the guild is
    then active with cursor 0.  When it picks no channel it leaves
    the store as it is, and this happens only when every channel
    the bot may post in is a spam or log channel without any of the
    keywords. *)
Theorem on_guild_join_registers (g : guild) (now : string) (db : servers) :
  match (on_guild_join g now db).2 with
  | Some channel =>
      channel ∈ text_channels g
      ∧ tc_can_send channel = true
      ∧ (on_guild_join g now db).1
        = add_server (g_id g) (VInt (tc_id channel)) (VStr (g_name g))
            (VStr (tc_name channel)) now db
      ∧ cursor (g_id g) (on_guild_join g now db).1 = Some (VInt 0)
  | None =>
      (on_guild_join g now db).1 = db
      ∧ ∀ channel, channel ∈ text_channels g →
          tc_can_send channel = true →
          any_keyword ["spam"; "log"] (py_lower (tc_name channel)) = true
          ∧ any_keyword ["elite"; "cqc"; "bot"; "gaming"; "general"; "main";
                         "chat"] (py_lower (tc_name channel)) = false
  end.
Proof.
  unfold on_guild_join.
  destruct (suitable_channels g) as [|channel l] eqn:Hsuit; cbn [fst snd].
  - split; [done|]. intros channel Hin Hsend.
    assert (¬ (is_front channel ∨ is_back channel)) as Hnone.
    { intros Hclass.
      assert (channel ∈ suitable_channels g) as Hin'
        by (by apply suitable_channels_elem).
      rewrite Hsuit in Hin'. by apply elem_of_nil in Hin'. }
    unfold is_front, is_back in Hnone. rewrite Hsend in Hnone.
    change ["elite"; "cqc"; "bot"; "gaming"; "general"; "main"; "chat"]
      with (["elite"; "cqc"; "bot"; "gaming"] ++ ["general"; "main"; "chat"]).
    unfold any_keyword at 2. rewrite existsb_app.
    fold (any_keyword ["elite"; "cqc"; "bot"; "gaming"]
            (py_lower (tc_name channel))).
    fold (any_keyword ["general"; "main"; "chat"]
            (py_lower (tc_name channel))).
    destruct (any_keyword ["elite"; "cqc"; "bot"; "gaming"] _);
      [destruct Hnone; by left|].
    destruct (any_keyword ["general"; "main"; "chat"] _);
      [destruct Hnone; right; split_and!; by try left|].
    destruct (any_keyword ["spam"; "log"] _); [done|].
    destruct Hnone. right. split_and!; by try right.
  - assert (channel ∈ suitable_channels g) as Hin
      by (rewrite Hsuit; by left).
    apply suitable_channels_elem in Hin as [Hin Hclass].
    split_and!; [done| |done|].
    + by destruct Hclass as [[? _]|[? _]].
    + unfold add_server. rewrite cursor_set. by vm_compute.
Qed.

Lemma on_guild_join_registers_witness :
  (on_guild_join guild_A "t" store_7_at_5).2
  = Some {| tc_id := 103; tc_name := "bot-commands"; tc_can_send := true |}
  ∧ cursor 11 (on_guild_join guild_A "t" store_7_at_5).1 = Some (VInt 0)
  ∧ (on_guild_join guild_B "t" store_7_at_5).1 = store_7_at_5.
Proof.
  pose proof (on_guild_join_registers guild_A "t" store_7_at_5) as HA.
  pose proof (on_guild_join_registers guild_B "t" store_7_at_5) as HB.
  assert ((on_guild_join guild_A "t" store_7_at_5).2
          = Some {| tc_id := 103; tc_name := "bot-commands";
                    tc_can_send := true |}) as HtA
    by (vm_compute; reflexivity).
  assert ((on_guild_join guild_B "t" store_7_at_5).2 = None) as HtB
    by (vm_compute; reflexivity).
  rewrite HtA in HA. rewrite HtB in HB.
  split; [exact HtA|]. split; [apply HA|apply HB].
Defined.

Lemma dict_del_set_absent {V} (k : string) (v : V) (d : list (string * V)) :
  dict_get k d = None → dict_del k (dict_set k v d) = d.
Proof.
  induction d as [|[k0 v0] d IH]; simpl.
  - by rewrite decide_True.
  - destruct (decide (k = k0)) as [->|Hne]; [done|]. simpl.
    rewrite decide_False by done. intros Hget. by rewrite IH.
Qed.

(** X23: when the bot joins a guild that has no entry and is then
    removed from it, the store is again what it was before the
    join, whether or not a channel was found. *)
Theorem join_then_remove (g : guild) (now : string) (db : servers) :
  dict_get (py_str (g_id g)) db = None →
  on_guild_remove g (on_guild_join g now db).1 = db.
Proof.
  intros Habsent. unfold on_guild_remove, on_guild_join, remove_server.
  destruct (suitable_channels g) as [|channel l]; simpl.
  - destruct (dict_mem _ _) eqn:Hmem; [|done].
    apply dict_mem_true in Hmem as [? Hsome]. congruence.
  - unfold add_server.
    destruct (dict_mem _ _) eqn:Hmem.
    + by apply dict_del_set_absent.
    + assert (dict_mem (py_str (g_id g))
                (dict_set (py_str (g_id g))
                   (list_to_map
                      [("channel_id", VInt (tc_id channel));
                       ("enabled", VBool true);
                       ("last_action_id", VInt 0);
                       ("guild_name", VStr (g_name g));
                       ("channel_name", VStr (tc_name channel));
                       ("added_at", VStr now)]) db) = true); [|congruence].
      apply dict_mem_true. rewrite dict_get_set_eq. eauto.
Qed.

Lemma join_then_remove_witness :
  on_guild_remove guild_A (on_guild_join guild_A "t" store_7_at_5).1
  = store_7_at_5.
Proof.
  apply (join_then_remove guild_A "t" store_7_at_5).
  vm_compute. reflexivity.
Defined.

(** ** Slash commands *)

Lemma set_enabled_frame (g : Z) (flag : bool) (db : servers) :
  let db' := if flag then enable_server g db else disable_server g db in
  dict_keys db' = dict_keys db
  ∧ (∀ g', cursor g' db' = cursor g' db)
  ∧ (∀ k, k ≠ py_str g → dict_get k db' = dict_get k db)
  ∧ (dict_get (py_str g) db = None → db' = db)
  ∧ (∀ cfg, dict_get (py_str g) db = Some cfg →
            dict_get (py_str g) db' = Some (<["enabled" := VBool flag]> cfg)).
Proof.
  assert ((if flag then enable_server g db else disable_server g db)
          = match dict_get (py_str g) db with
            | Some cfg =>
                dict_set (py_str g) (<["enabled" := VBool flag]> cfg) db
            | None => db
            end) as ->.
  { by destruct flag. }
  destruct (dict_get (py_str g) db) as [cfg|] eqn:Hget; [|done].
  split_and!.
  - by rewrite dict_keys_set, Hget.
  - intros g'. destruct (decide (g' = g)) as [->|Hne].
    + rewrite cursor_set. unfold cursor. rewrite Hget. simpl.
      by rewrite cursor_of_insert_ne.
    + by rewrite cursor_set_ne.
  - intros k Hk. by rewrite dict_get_set_ne.
  - done.
  - intros cfg' [= <-]. apply dict_get_set_eq.
Qed.

(** X24: [/cqc_enable] and [/cqc_disable] never add or remove an
    entry, never change a cursor and never touch another guild.  For
    a user who is not an administrator they leave the store as it is
    and answer with the refusal; for an administrator they set
    ['enabled'] of the entry of the guild, and they answer that
    notifications are enabled (or disabled) also when the guild has
    no entry and nothing was changed. *)
Theorem enable_disable_commands (i : interaction) (flag : bool)
    (db : servers) :
  let out := if flag then cqc_enable i db else cqc_disable i db in
  dict_keys out.1 = dict_keys db
  ∧ (∀ g, cursor g out.1 = cursor g db)
  ∧ (∀ k, k ≠ py_str (i_guild_id i) → dict_get k out.1 = dict_get k db)
  ∧ (user_is_admin i = false → out = (db, admin_only))
  ∧ (user_is_admin i = true →
       (dict_get (py_str (i_guild_id i)) db = None → out.1 = db)
       ∧ (∀ cfg, dict_get (py_str (i_guild_id i)) db = Some cfg →
                 dict_get (py_str (i_guild_id i)) out.1
                 = Some (<["enabled" := VBool flag]> cfg))
       ∧ out.2 = {| content := if flag then "CQC notifications enabled!"
                               else "CQC notifications disabled.";
                    ephemeral := false |}).
Proof.
  pose proof (set_enabled_frame (i_guild_id i) flag db)
    as (Hkeys & Hcur & Hother & Habsent & Hset).
  unfold cqc_enable, cqc_disable.
  destruct (user_is_admin i); simpl negb; cbv iota.
  - destruct flag; simpl in *; by split_and!.
  - destruct flag; simpl; by split_and!.
Qed.

Lemma enable_disable_commands_witness :
  cqc_disable member_in_7 store_7_at_5 = (store_7_at_5, admin_only)
  ∧ cursor 7 (cqc_disable admin_in_7 store_7_at_5).1 = Some (VInt 5)
  ∧ (cqc_enable admin_in_7 store_3).1 = store_3.
Proof.
  pose proof (enable_disable_commands member_in_7 false store_7_at_5)
    as (_ & _ & _ & Hmember & _).
  pose proof (enable_disable_commands admin_in_7 false store_7_at_5)
    as (_ & Hcur & _).
  pose proof (enable_disable_commands admin_in_7 true store_3)
    as (_ & _ & _ & _ & Hadmin).
  split; [by apply Hmember|]. split.
  - simpl in Hcur. rewrite Hcur. vm_compute. reflexivity.
  - apply Hadmin; [reflexivity|]. vm_compute. reflexivity.
Defined.

(** X25: [/cqc_this_channel] does what [/cqc_channel] does without a
    channel argument.  The store is changed only for an
    administrator and only when the bot may send messages in the
    target channel (the channel given, else the channel of the
    command); the guild is then registered to the target channel,
    enabled, with its cursor back at 0.  No other guild is
    touched. *)
Theorem channel_commands (i : interaction) (channel : option text_channel)
    (now : string) (db : servers) :
  let target := default (i_channel i) channel in
  let out := cqc_channel i channel now db in
  cqc_this_channel i now db = cqc_channel i None now db
  ∧ (user_is_admin i = false → out = (db, admin_only))
  ∧ (tc_can_send target = false → out.1 = db ∧ ephemeral out.2 = true)
  ∧ (user_is_admin i = true → tc_can_send target = true →
       out.1 = add_server (i_guild_id i) (VInt (tc_id target))
                 (VStr (i_guild_name i)) (VStr (tc_name target)) now db
       ∧ cursor (i_guild_id i) out.1 = Some (VInt 0)
       ∧ ephemeral out.2 = false)
  ∧ (∀ k, k ≠ py_str (i_guild_id i) → dict_get k out.1 = dict_get k db).
Proof.
  unfold cqc_this_channel, cqc_channel. cbv zeta.
  split_and!.
  - done.
  - by intros ->.
  - intros ->. by destruct (user_is_admin i).
  - intros -> ->. simpl. split_and!; [done| |done].
    unfold add_server. rewrite cursor_set. by vm_compute.
  - intros k Hk.
    destruct (user_is_admin i); [|done]. simpl negb. cbv iota.
    destruct (tc_can_send (default (i_channel i) channel)); [|done].
    simpl. unfold add_server. by rewrite dict_get_set_ne.
Qed.

Lemma channel_commands_witness :
  cursor 7 (cqc_channel admin_in_7 None "t" store_7_at_5).1 = Some (VInt 0)
  ∧ cqc_channel member_in_7 None "t" store_7_at_5
    = (store_7_at_5, admin_only).
Proof.
  pose proof (channel_commands admin_in_7 None "t" store_7_at_5)
    as (_ & _ & _ & Hadmin & _).
  pose proof (channel_commands member_in_7 None "t" store_7_at_5)
    as (_ & Hmember & _).
  split.
  - apply Hadmin; reflexivity.
  - apply Hmember. reflexivity.
Defined.

Lemma find_active_absent (g : Z) (db : servers) :
  Forall canonical_key (dict_keys db) →
  py_str g ∉ dict_keys db →
  find (λ server, bool_decide (guild_id server = g)) (omap active_of db)
  = None.
Proof.
  unfold dict_keys. induction db as [|[k cfg] db IH]; csimpl; [done|].
  intros [Hk Hdb]%Forall_cons [Hne Hnotin]%not_elem_of_cons.
  destruct (active_of (k, cfg)) as [si|] eqn:Hact; csimpl; [|by apply IH].
  apply active_of_Some in Hact as [_ [Hint _]%active_entry_Ok].
  simpl in Hint. rewrite bool_decide_eq_false_2; [by apply IH|].
  intros Hg. apply Hne. rewrite <-Hg. symmetry.
  by apply canonical_key_int.
Qed.

Lemma find_active (g : Z) (db : servers) :
  store_wf db →
  find (λ server, bool_decide (guild_id server = g)) (omap active_of db)
  = listed_server g db.
Proof.
  unfold store_wf, dict_keys, listed_server.
  induction db as [|[k cfg] db IH]; csimpl; [done|].
  intros [[Hnotin Hnd]%NoDup_cons [Hk Hdb]%Forall_cons].
  destruct (decide (py_str g = k)) as [<-|Hne]; csimpl.
  - destruct (active_of (py_str g, cfg)) as [si|] eqn:Hact; csimpl.
    + apply active_of_Some in Hact as [_ [Hint _]%active_entry_Ok].
      simpl in Hint. rewrite py_int_str in Hint. injection Hint as Hg.
      by rewrite bool_decide_eq_true_2.
    + by apply find_active_absent.
  - rewrite <-IH by done.
    destruct (active_of (k, cfg)) as [si|] eqn:Hact; csimpl; [|done].
    apply active_of_Some in Hact as [_ [Hint _]%active_entry_Ok].
    simpl in Hint. rewrite bool_decide_eq_false_2; [done|].
    intros Hg. apply Hne. rewrite <-Hg. symmetry.
    by apply canonical_key_int.
Qed.

(** X26: [/cqc_status] refuses a user who is not an administrator
    without reading the store.  For an administrator, on a store
    that can be listed and has distinct canonical keys, the answer is
    an ephemeral embed with three fields.  The field about the guild
    reads "Not configured" when the guild has no entry and also when
    its entry is disabled; when the entry counts as enabled the field
    shows the channel of the entry (or "Unknown" when the bot does
    not find it) and the cursor of the entry. *)
Theorem cqc_status_reports (bot : Bot) (i : interaction) (db : servers) :
  (user_is_admin i = false →
   cqc_status bot i db = Ok (StatusRefused admin_only))
  ∧ (user_is_admin i = true → store_wf db → listable db →
     ∃ global this_server frequency,
       cqc_status bot i db
       = Ok (StatusEmbed
               {| s_title := "CQC Monitor Bot Status";
                  s_fields := [global; this_server; frequency];
                  s_footer := "CQC Monitor" |}
               true)
       ∧ match dict_get (py_str (i_guild_id i)) db with
         | Some cfg =>
             if is_enabled cfg
             then ∃ ch,
                 cfg !! "channel_id" = Some ch
                 ∧ f_value this_server
                   = "Channel: "
                       +:+ match find_channel bot ch with
                           | Some c => mention c
                           | None => "Unknown"
                           end
                       +:+ newline +:+ "Status: Active" +:+ newline
                       +:+ "Last Action: " +:+ py_format (cursor_of cfg)
             else f_value this_server = "Not configured"
         | None => f_value this_server = "Not configured"
         end).
Proof.
  unfold cqc_status. split; [by intros ->|].
  intros -> Hwf Hlist. simpl negb. cbv iota.
  rewrite (get_active_servers_omap _ Hlist). simpl.
  rewrite find_active by done.
  do 3 eexists. split; [done|].
  unfold listed_server.
  destruct (dict_get (py_str (i_guild_id i)) db) as [cfg|] eqn:Hcfg;
    simpl; [|done].
  destruct (is_enabled cfg) eqn:Hen.
  - destruct (listable_active_of db (py_str (i_guild_id i)) cfg Hlist)
      as (si & Hsi & ->); [by apply dict_get_Some_elem|done|].
    apply active_entry_Ok in Hsi as (_ & Hch & Hcur).
    exists (channel_id si). split; [done|]. simpl. by rewrite Hcur.
  - unfold active_of. simpl. by rewrite Hen.
Qed.

Lemma cqc_status_reports_witness :
  user_is_admin admin_in_7 = true
  ∧ store_wf store_7_at_5
  ∧ listable store_7_at_5
  ∧ ∃ global this_server frequency,
      cqc_status bot_3 admin_in_7 store_7_at_5
      = Ok (StatusEmbed
              {| s_title := "CQC Monitor Bot Status";
                 s_fields := [global; this_server; frequency];
                 s_footer := "CQC Monitor" |}
              true)
      ∧ f_value this_server
        = "Channel: <#70>" +:+ newline +:+ "Status: Active" +:+ newline
            +:+ "Last Action: 5".
Proof.
  assert (Hwf : store_wf store_7_at_5) by by_computation.
  assert (Hlist : listable store_7_at_5) by by_computation.
  split_and!; [reflexivity|exact Hwf|exact Hlist|].
  destruct (cqc_status_reports bot_3 admin_in_7 store_7_at_5)
    as [_ Hadmin].
  destruct (Hadmin eq_refl Hwf Hlist)
    as (global & this_server & frequency & He & Hfield).
  exists global, this_server, frequency. split; [exact He|].
  remember (f_value this_server) as v eqn:Hv. clear Hv.
  vm_compute in Hfield. destruct Hfield as (ch & Hch & Hv).
  injection Hch as <-. rewrite Hv. vm_compute. reflexivity.
Defined.
